(** * DEX snapshot collector: normalisation and idempotent append

    A shallow embedding of [collect_dex_data.py] (the collector of
    DexScreener pair snapshots) and of its older sibling under
    [scripts/], with the properties of the normalisation and
    append-with-dedup pipeline.

    Conventions of the embedding.

    - Python values are the inductive type [value]: [None], booleans,
      integers, strings, lists and string-keyed dictionaries.  Binary
      floating-point numbers are not represented.
    - Python exceptions are the constructor [Raise] of [result].
    - Text (a [str], the content of a file) is a [string]; the only
      characters the csv module tells apart are the comma, the double
      quote, carriage return and line feed.
    - A path is the list of its components once resolved, so that
      [os.path.join outdir name] is [outdir ++ [name]] and the directory
      holding a file is the path without its last component.
    - The file system is a set of directories and a map from paths to
      file contents, together with the trace of the calls made to it.
      The path of no component is the empty path, which names nothing; a
      path of one component lies in the current directory, which exists.
      The failures that depend on this state are modelled (a missing
      directory, a file or a directory in the way); permissions, quotas
      and encodings are not.
    - The two limits of the interpreter that the collector can meet are
      modelled: the longest field the csv reader accepts (131072
      characters) and the longest decimal numeral [str] makes of an
      integer (4300 digits).
    - The csv module is modelled for the default (excel) dialect, the one
      the collector uses: the writer as in [_csv.c]'s [join_append_data],
      the reader as its state machine [parse_process_char], fed with the
      lines a text file opened with [newline=''] delivers. *)

From stdpp Require Import gmap strings list fin_maps.
From Stdlib Require Import ZArith DecimalString Ascii.

Local Open Scope Z_scope.

(** ** Python values and exceptions *)

#[warnings="-register-all"]
Inductive value : Type :=
| VNone
| VBool (b : bool)
| VInt (n : Z)
| VStr (s : string)
| VList (l : list value)
| VDict (d : gmap string value).

Inductive exn : Type :=
| AttributeError
| TypeError
| ValueError
| CsvError
| FileNotFoundError
| FileExistsError
| NotADirectoryError
| IsADirectoryError.

Inductive result (A : Type) : Type :=
| Ok (a : A)
| Raise (e : exn).

Arguments Ok {A} a.
Arguments Raise {A} e.

Definition rbind {A B} (r : result A) (k : A → result B) : result B :=
  match r with
  | Ok a => k a
  | Raise e => Raise e
  end.

(** [for x in xs: out.append(f(x))], where [f] may raise. *)
Fixpoint for_each {A B} (f : A → result B) (xs : list A) : result (list B) :=
  match xs with
  | [] => Ok []
  | x :: xs' =>
      rbind (f x) (λ y, rbind (for_each f xs') (λ ys, Ok (y :: ys)))
  end.

(** [dict(pairs)] and the dict display [{k1: v1, ...}]: entries are stored
    in order, a later entry for the same key replaces the earlier one. *)
Definition dict_of (kvs : list (string * value)) : gmap string value :=
  foldl (λ d kv, <[kv.1 := kv.2]> d) ∅ kvs.

(** [d.get(k)] of a dictionary: [None] when the key is absent. *)
Definition dict_get (d : gmap string value) (k : string) : value :=
  default VNone (d !! k).

(** ** Field Extractor *)

(** [s.split(sep)] for a one-character separator. *)
Fixpoint split (sep : ascii) (s : string) : list string :=
  match s with
  | EmptyString => [""]
  | String c s' =>
      if Ascii.eqb c sep then "" :: split sep s'
      else match split sep s' with
           | hd :: tl => String c hd :: tl
           | [] => [String c ""]
           end
  end.

(** The loop of [_get_nested]: [cur] is the loop variable, [parts] the
    segments still to walk. *)
Fixpoint get_nested_loop (cur : value) (parts : list string) (dflt : value)
  : value :=
  match parts with
  | [] => cur
  | part :: parts' =>
      match cur with
      | VDict d =>
          match d !! part with
          | Some v => get_nested_loop v parts' dflt
          | None => dflt
          end
      | _ => dflt
      end
  end.

Definition _get_nested (d : value) (path : string) (dflt : value) : value :=
  get_nested_loop d (split "." path) dflt.

(** The contract of the Field Extractor in the words of its description:
    walking the segments through nested mappings either reaches a final
    value or stops at a value that is not a mapping or lacks the key. *)
Inductive walks : value → list string → value → Prop :=
| walks_done v : walks v [] v
| walks_step d part parts v w :
    d !! part = Some v → walks v parts w → walks (VDict d) (part :: parts) w.

Inductive stuck : value → list string → Prop :=
| stuck_not_mapping v part parts :
    (∀ d, v ≠ VDict d) → stuck v (part :: parts)
| stuck_absent d part parts :
    d !! part = None → stuck (VDict d) (part :: parts)
| stuck_later d part parts v :
    d !! part = Some v → stuck v parts → stuck (VDict d) (part :: parts).

(** ** Record Normalizer *)

Definition fieldnames : list string :=
  [ "snapshot_ts"; "pairAddress"; "chainId"; "dexId"; "url";
    "baseToken_symbol"; "baseToken_address";
    "quoteToken_symbol"; "quoteToken_address";
    "priceNative"; "priceUsd";
    "priceChange_h1"; "priceChange_h6"; "priceChange_h24";
    "txns_m5_buys"; "txns_m5_sells"; "txns_h1_buys"; "txns_h1_sells";
    "txns_h6_buys"; "txns_h6_sells"; "txns_h24_buys"; "txns_h24_sells";
    "volume_m5"; "volume_h1"; "volume_h6"; "volume_h24";
    "liquidity_base"; "liquidity_quote"; "liquidity_usd";
    "pairCreatedAt" ].

(** The body of the loop of [normalize_records] for one pair [p]: the
    calls [p.get(...)] need [p] to be a dictionary. *)
Definition normalize_record (p : value) (snapshot_ts : string)
  : result (gmap string value) :=
  match p with
  | VDict d =>
      Ok (dict_of
        [ ("snapshot_ts", VStr snapshot_ts);
          ("pairAddress", dict_get d "pairAddress");
          ("chainId", dict_get d "chainId");
          ("dexId", dict_get d "dexId");
          ("url", dict_get d "url");
          ("baseToken_symbol", _get_nested p "baseToken.symbol" VNone);
          ("baseToken_address", _get_nested p "baseToken.address" VNone);
          ("quoteToken_symbol", _get_nested p "quoteToken.symbol" VNone);
          ("quoteToken_address", _get_nested p "quoteToken.address" VNone);
          ("priceNative", dict_get d "priceNative");
          ("priceUsd", dict_get d "priceUsd");
          ("priceChange_h1", _get_nested p "priceChange.h1" VNone);
          ("priceChange_h6", _get_nested p "priceChange.h6" VNone);
          ("priceChange_h24", _get_nested p "priceChange.h24" VNone);
          ("txns_m5_buys", _get_nested p "txns.m5.buys" VNone);
          ("txns_m5_sells", _get_nested p "txns.m5.sells" VNone);
          ("txns_h1_buys", _get_nested p "txns.h1.buys" VNone);
          ("txns_h1_sells", _get_nested p "txns.h1.sells" VNone);
          ("txns_h6_buys", _get_nested p "txns.h6.buys" VNone);
          ("txns_h6_sells", _get_nested p "txns.h6.sells" VNone);
          ("txns_h24_buys", _get_nested p "txns.h24.buys" VNone);
          ("txns_h24_sells", _get_nested p "txns.h24.sells" VNone);
          ("volume_m5", _get_nested p "volume.m5" VNone);
          ("volume_h1", _get_nested p "volume.h1" VNone);
          ("volume_h6", _get_nested p "volume.h6" VNone);
          ("volume_h24", _get_nested p "volume.h24" VNone);
          ("liquidity_base", _get_nested p "liquidity.base" VNone);
          ("liquidity_quote", _get_nested p "liquidity.quote" VNone);
          ("liquidity_usd", _get_nested p "liquidity.usd" VNone);
          ("pairCreatedAt", dict_get d "pairCreatedAt") ])
  | _ => Raise AttributeError
  end.

Definition normalize_records (pairs : list value) (snapshot_ts : string)
  : result (list (gmap string value)) :=
  for_each (λ p, normalize_record p snapshot_ts) pairs.

(** The source of every field of a row other than [snapshot_ts]: the
    dot-separated path read from the raw record. *)
Definition source_path : list (string * string) :=
  [ ("pairAddress", "pairAddress"); ("chainId", "chainId");
    ("dexId", "dexId"); ("url", "url");
    ("baseToken_symbol", "baseToken.symbol");
    ("baseToken_address", "baseToken.address");
    ("quoteToken_symbol", "quoteToken.symbol");
    ("quoteToken_address", "quoteToken.address");
    ("priceNative", "priceNative"); ("priceUsd", "priceUsd");
    ("priceChange_h1", "priceChange.h1");
    ("priceChange_h6", "priceChange.h6");
    ("priceChange_h24", "priceChange.h24");
    ("txns_m5_buys", "txns.m5.buys"); ("txns_m5_sells", "txns.m5.sells");
    ("txns_h1_buys", "txns.h1.buys"); ("txns_h1_sells", "txns.h1.sells");
    ("txns_h6_buys", "txns.h6.buys"); ("txns_h6_sells", "txns.h6.sells");
    ("txns_h24_buys", "txns.h24.buys"); ("txns_h24_sells", "txns.h24.sells");
    ("volume_m5", "volume.m5"); ("volume_h1", "volume.h1");
    ("volume_h6", "volume.h6"); ("volume_h24", "volume.h24");
    ("liquidity_base", "liquidity.base");
    ("liquidity_quote", "liquidity.quote");
    ("liquidity_usd", "liquidity.usd");
    ("pairCreatedAt", "pairCreatedAt") ].

(** ** The csv module: writer *)

Definition COMMA : ascii := ","%char.
Definition DQUOTE : ascii := "034"%char.
Definition CR : ascii := "013"%char.
Definition LF : ascii := "010"%char.

(** The line terminator of the excel dialect. *)
Definition CRLF : string := String CR (String LF "").

(** The characters that force a field into quotes: the delimiter, the
    quote character and the characters of the line terminator. *)
Definition is_special (c : ascii) : bool :=
  Ascii.eqb c COMMA || Ascii.eqb c DQUOTE || Ascii.eqb c CR || Ascii.eqb c LF.

Fixpoint must_quote (s : string) : bool :=
  match s with
  | EmptyString => false
  | String c s' => is_special c || must_quote s'
  end.

(** The copy of a field with each quote character doubled. *)
Fixpoint double_quotes (s : string) : string :=
  match s with
  | EmptyString => ""
  | String c s' =>
      if Ascii.eqb c DQUOTE then String DQUOTE (String DQUOTE (double_quotes s'))
      else String c (double_quotes s')
  end.

(** [join_append]: one field as it is written (QUOTE_MINIMAL). *)
Definition join_append (field : string) : string :=
  if must_quote field
  then String DQUOTE (double_quotes field +:+ String DQUOTE "")
  else field.

Fixpoint join_record (cells : list string) : string :=
  match cells with
  | [] => ""
  | [c] => join_append c
  | c :: cs => join_append c +:+ String COMMA (join_record cs)
  end.

(** [writer.writerow]: the line written for a list of text cells.  A
    record that would be empty (a single empty field) is written as a pair
    of quotes. *)
Definition writerow (cells : list string) : string :=
  let rec := join_record cells in
  (if bool_decide (cells ≠ []) && bool_decide (rec = "")
   then String DQUOTE (String DQUOTE "") else rec) +:+ CRLF.

(** ** The csv module: reader *)

Inductive parser_state : Type :=
| START_RECORD
| START_FIELD
| IN_FIELD
| IN_QUOTED_FIELD
| QUOTE_IN_QUOTED_FIELD
| EAT_CRNL.

Global Instance parser_state_eq_dec : EqDecision parser_state.
Proof. solve_decision. Defined.

Record reader : Type := mk_reader {
  state : parser_state;
  field : string;
  fields : list string
}.

Definition parse_reset : reader :=
  {| state := START_RECORD; field := ""; fields := [] |}.

Definition parse_save_field (st : reader) : reader :=
  {| state := state st; field := ""; fields := fields st ++ [field st] |}.

(** [csv.field_size_limit()]: the longest field the reader accepts. *)
Definition field_limit : Z := 131072.

(** [parse_add_char]: a field that has reached the limit takes no more
    characters. *)
Definition parse_add_char (st : reader) (c : ascii) : result reader :=
  if field_limit <=? Z.of_nat (String.length (field st))
  then Raise CsvError
  else Ok {| state := state st; field := field st +:+ String c "";
             fields := fields st |}.

Definition set_state (s : parser_state) (st : reader) : reader :=
  {| state := s; field := field st; fields := fields st |}.

Definition is_newline (c : ascii) : bool := Ascii.eqb c LF || Ascii.eqb c CR.

(** [parse_process_char] for a character of the line. *)
Definition parse_process_char (st : reader) (c : ascii) : result reader :=
  match state st with
  | START_RECORD =>
      if is_newline c then Ok (set_state EAT_CRNL st)
      else
        (* handled as START_FIELD *)
        if Ascii.eqb c DQUOTE then Ok (set_state IN_QUOTED_FIELD st)
        else if Ascii.eqb c COMMA
        then Ok (parse_save_field (set_state START_FIELD st))
        else rbind (parse_add_char st c) (λ st', Ok (set_state IN_FIELD st'))
  | START_FIELD =>
      if is_newline c then Ok (set_state EAT_CRNL (parse_save_field st))
      else if Ascii.eqb c DQUOTE then Ok (set_state IN_QUOTED_FIELD st)
      else if Ascii.eqb c COMMA then Ok (parse_save_field st)
      else rbind (parse_add_char st c) (λ st', Ok (set_state IN_FIELD st'))
  | IN_FIELD =>
      if is_newline c then Ok (set_state EAT_CRNL (parse_save_field st))
      else if Ascii.eqb c COMMA
      then Ok (set_state START_FIELD (parse_save_field st))
      else parse_add_char st c
  | IN_QUOTED_FIELD =>
      if Ascii.eqb c DQUOTE then Ok (set_state QUOTE_IN_QUOTED_FIELD st)
      else parse_add_char st c
  | QUOTE_IN_QUOTED_FIELD =>
      if Ascii.eqb c DQUOTE
      then rbind (parse_add_char st c)
                 (λ st', Ok (set_state IN_QUOTED_FIELD st'))
      else if Ascii.eqb c COMMA
      then Ok (set_state START_FIELD (parse_save_field st))
      else if is_newline c then Ok (set_state EAT_CRNL (parse_save_field st))
      else rbind (parse_add_char st c) (λ st', Ok (set_state IN_FIELD st'))
  | EAT_CRNL =>
      if is_newline c then Ok st else Raise CsvError
  end.

(** [parse_process_char] for the end of a line. *)
Definition parse_process_eol (st : reader) : reader :=
  match state st with
  | START_RECORD => st
  | START_FIELD | IN_FIELD | QUOTE_IN_QUOTED_FIELD =>
      set_state START_RECORD (parse_save_field st)
  | IN_QUOTED_FIELD => st
  | EAT_CRNL => set_state START_RECORD st
  end.

(** A text file opened with [newline=''] ends a line after a line feed,
    and after a carriage return that no line feed follows. *)
Definition line_ends (c : ascii) (rest : string) : bool :=
  Ascii.eqb c LF
  || (Ascii.eqb c CR
      && negb match rest with String c' _ => Ascii.eqb c' LF | _ => false end).

(** What the reader returns when the lines are exhausted in the middle
    of a record. *)
Definition end_of_input (st : reader) : list (list string) :=
  if negb (bool_decide (field st = "")) || bool_decide (state st = IN_QUOTED_FIELD)
  then [fields st ++ [field st]]
  else [].

(** The rows [csv.reader] yields for the text of a file: the reader is in
    state [st], [in_line] tells whether characters of the current line
    were already consumed.  After the last character of each line the
    end-of-line step runs; a record is complete when it leaves the reader
    in [START_RECORD]. *)
Fixpoint reader_rows (st : reader) (in_line : bool) (text : string)
  : result (list (list string)) :=
  match text with
  | EmptyString =>
      if in_line then
        let st' := parse_process_eol st in
        if bool_decide (state st' = START_RECORD) then Ok [fields st']
        else Ok (end_of_input st')
      else Ok (end_of_input st)
  | String c text' =>
      rbind (parse_process_char st c) (λ st1,
        if line_ends c text' then
          let st2 := parse_process_eol st1 in
          if bool_decide (state st2 = START_RECORD)
          then rbind (reader_rows parse_reset false text')
                     (λ rows, Ok (fields st2 :: rows))
          else reader_rows st2 false text'
        else reader_rows st1 true text')
  end.

Definition csv_reader (text : string) : result (list (list string)) :=
  reader_rows parse_reset false text.

(** The dictionary [DictReader] builds for one row: the cells under the
    column names (a later column of the same name wins), [None] under the
    names the row is too short for.  The entry that collects surplus cells
    sits under the key [None], out of reach of a lookup by name, and is
    left out. *)
Definition DictReader_row (names : list string) (row : list string)
  : gmap string value :=
  foldl (λ d key, <[key := VNone]> d)
        (dict_of (zip names (VStr <$> row)))
        (drop (length row) names).

(** The rows [csv.DictReader] yields: the first record names the columns,
    empty records after it are skipped. *)
Definition DictReader (text : string) : result (list (gmap string value)) :=
  rbind (csv_reader text) (λ records,
    match records with
    | [] => Ok []
    | names :: rows =>
        Ok (DictReader_row names <$> filter (λ row, row ≠ []) rows)
    end).

(** ** Dedup keys *)

(** The hashable Python values, up to Python equality: [True == 1] and
    [False == 0], a string equals only the same string, [None] only
    itself. *)
Inductive atom : Type :=
| ANone
| ANum (n : Z)
| AStr (s : string).

Global Instance atom_eq_dec : EqDecision atom.
Proof. solve_decision. Defined.

Global Instance atom_countable : Countable atom.
Proof.
  refine (inj_countable'
    (λ a, match a with
          | ANone => inl ()
          | ANum n => inr (inl n)
          | AStr s => inr (inr s)
          end)
    (λ x, match x with
          | inl _ => ANone
          | inr (inl n) => ANum n
          | inr (inr s) => AStr s
          end) _).
  by intros [].
Defined.

(** [hash(v)], needed to look a value up in a set: lists and dictionaries
    are unhashable. *)
Definition py_hash (v : value) : result atom :=
  match v with
  | VNone => Ok ANone
  | VBool b => Ok (ANum (if b then 1 else 0))
  | VInt n => Ok (ANum n)
  | VStr s => Ok (AStr s)
  | VList _ | VDict _ => Raise TypeError
  end.

(** The tuple [(r.get("pairAddress"), r.get("snapshot_ts"))] as an
    element of a set. *)
Definition dedup_key (r : gmap string value) : result (atom * atom) :=
  rbind (py_hash (dict_get r "pairAddress")) (λ a,
  rbind (py_hash (dict_get r "snapshot_ts")) (λ t, Ok (a, t))).

(** ** The file system and the monad of effects *)

Inductive syscall : Type :=
| SysIsfile (p : list string)
| SysIsdir (p : list string)
| SysMakedirs (p : list string)
| SysOpenRead (p : list string)
| SysOpenAppend (p : list string)
| SysWrite (p : list string) (text : string).

(** The lines the collector prints. *)
Inductive message : Type :=
| ErrorHTTP (status_code : Z)
| ErrorRequestFailed
| ErrorUnexpected
| OkWrote (snapshot_ts : string) (added : Z) (csv_path : list string) (total : Z).

Record world : Type := mk_world {
  dirs : gset (list string);
  files : gmap (list string) string;
  trace : list syscall;
  printed : list message
}.

Definition M (A : Type) : Type := world → world * result A.

Global Instance M_ret : MRet M := λ A a w, (w, Ok a).

Global Instance M_bind : MBind M := λ A B k m w,
  match m w with
  | (w', Ok a) => k a w'
  | (w', Raise e) => (w', Raise e)
  end.

Definition lift {A} (r : result A) : M A := λ w, (w, r).

Definition called (c : syscall) (w : world) : world :=
  {| dirs := dirs w; files := files w;
     trace := trace w ++ [c]; printed := printed w |}.

Definition print (msg : message) : M unit := λ w,
  ({| dirs := dirs w; files := files w;
      trace := trace w; printed := printed w ++ [msg] |}, Ok ()).

(** [p] is a directory.  The empty path is none. *)
Definition is_dir (w : world) (p : list string) : bool :=
  bool_decide (p ≠ [] ∧ p ∈ dirs w).

Definition is_file (w : world) (p : list string) : bool :=
  bool_decide (is_Some (files w !! p)).

Definition os_path_isfile (p : list string) : M bool := λ w,
  (called (SysIsfile p) w, Ok (is_file w p)).

Definition os_path_isdir (p : list string) : M bool := λ w,
  (called (SysIsdir p) w, Ok (is_dir w p)).

(** [mkdir] of each missing directory from [base] down along [rest]. *)
Fixpoint makedirs_from (base rest : list string) (w : world)
  : world * result unit :=
  match rest with
  | [] => (w, Ok ())
  | c :: rest' =>
      let p := base ++ [c] in
      if is_file w p
      then (w, Raise (match rest' with
                      | [] => FileExistsError
                      | _ => NotADirectoryError
                      end))
      else makedirs_from p rest'
             {| dirs := {[p]} ∪ dirs w; files := files w;
                trace := trace w; printed := printed w |}
  end.

(** [os.makedirs(p, exist_ok=True)]; there is nothing to make for the
    empty path, and [mkdir] fails on it. *)
Definition os_makedirs (p : list string) : M unit := λ w,
  match p with
  | [] => (called (SysMakedirs p) w, Raise FileNotFoundError)
  | _ :: _ => makedirs_from [] p (called (SysMakedirs p) w)
  end.

(** [open(p, "r")] followed by reading the whole text. *)
Definition open_read (p : list string) : M string := λ w,
  let w' := called (SysOpenRead p) w in
  match files w !! p with
  | Some text => (w', Ok text)
  | None => (w', Raise (if is_dir w p then IsADirectoryError
                        else FileNotFoundError))
  end.

(** The directory that holds [p]. *)
Definition dirname (p : list string) : list string := removelast p.

(** The paths above [p]: its prefixes other than the empty path and [p]
    itself. *)
Definition ancestors (p : list string) : list (list string) :=
  (λ n, take n p) <$> seq 1 (length p - 1).

(** A regular file stands above [p]. *)
Definition under_file (w : world) (p : list string) : bool :=
  existsb (is_file w) (ancestors p).

(** The directory that is to hold [p] exists: it is a directory of the
    world, or [p] has one component and lies in the current directory. *)
Definition parent_exists (w : world) (p : list string) : bool :=
  is_dir w (dirname p) || bool_decide (length p = 1%nat).

(** [open(p, "a")]: the file is created, empty, when it does not exist;
    the directory that is to hold it must exist.  When it does not, the
    error tells whether a regular file stands in the way above. *)
Definition open_append (p : list string) : M unit := λ w,
  let w' := called (SysOpenAppend p) w in
  if is_dir w p then (w', Raise IsADirectoryError)
  else if is_file w p then (w', Ok ())
  else if is_file w (dirname p) then (w', Raise NotADirectoryError)
  else if parent_exists w p
  then ({| dirs := dirs w'; files := <[p := ""]> (files w');
           trace := trace w'; printed := printed w' |}, Ok ())
  else if under_file w p then (w', Raise NotADirectoryError)
  else (w', Raise FileNotFoundError).

(** [f.write(text)] on a file opened for appending. *)
Definition file_write (p : list string) (text : string) : M unit := λ w,
  ({| dirs := dirs w;
      files := <[p := default "" (files w !! p) +:+ text]> (files w);
      trace := trace w ++ [SysWrite p text]; printed := printed w |}, Ok ()).

(** ** Table Store *)

Definition ensure_dir (p : list string) : M unit :=
  isdir ← os_path_isdir p;
  if negb isdir then os_makedirs p else mret ().

(** The current moment, by the two texts the collector derives from it:
    [isoformat(timespec="seconds")] and [strftime("%Y-%m-%d")]. *)
Record datetime : Type := mk_datetime {
  isoformat_seconds : string;
  strftime_Ymd : string
}.

Definition _daily_csv_path (outdir : list string) (date_utc : datetime)
  : list string :=
  outdir ++ ["dexscreener_solana_" +:+ strftime_Ymd date_utc +:+ ".csv"].

(** The loop [for row in reader: keys.add(...)]. *)
Fixpoint add_keys (keys : gset (atom * atom)) (rows : list (gmap string value))
  : result (gset (atom * atom)) :=
  match rows with
  | [] => Ok keys
  | row :: rows' =>
      rbind (dedup_key row) (λ key, add_keys ({[key]} ∪ keys) rows')
  end.

Definition read_existing_keys (csv_path : list string)
  : M (gset (atom * atom)) :=
  isfile ← os_path_isfile csv_path;
  if negb isfile then mret ∅
  else
    text ← open_read csv_path;
    rows ← lift (DictReader text);
    lift (add_keys ∅ rows).

(** The older script's reader of the keys: it first opens the file to
    take the header line and run over the other lines, then falls back to
    [DictReader]. *)
Definition read_existing_rows_indexed (csv_path : list string)
  : M (gset (atom * atom)) :=
  isfile ← os_path_isfile csv_path;
  if negb isfile then mret ∅
  else
    text ← open_read csv_path;
    match text with
    | EmptyString => mret ∅
    | String _ _ =>
        text' ← open_read csv_path;
        rows ← lift (DictReader text');
        lift (add_keys ∅ rows)
    end.

(** The loop of [write_rows] that keeps the rows with a new key. *)
Fixpoint dedup_loop (existing : gset (atom * atom))
    (rows : list (gmap string value)) : result (list (gmap string value)) :=
  match rows with
  | [] => Ok []
  | r :: rows' =>
      rbind (dedup_key r) (λ key,
        if decide (key ∈ existing) then dedup_loop existing rows'
        else rbind (dedup_loop ({[key]} ∪ existing) rows')
                   (λ deduped, Ok (r :: deduped)))
  end.

(** [sys.get_int_max_str_digits()]: the number of digits of the longest
    decimal numeral that [str] and [repr] make of an integer. *)
Definition int_max_str_digits : Z := 4300.

(** The number of digits of the decimal numeral of [n], its sign left
    out. *)
Definition str_digits (n : Z) : Z :=
  Z.of_nat (String.length (NilZero.string_of_int (Z.to_int (Z.abs n)))).

(** The values [str] has a text for: the integers within the limit, and
    the lists and dictionaries that hold only such values. *)
Fixpoint printable (v : value) : bool :=
  match v with
  | VInt n => bool_decide (str_digits n ≤ int_max_str_digits)
  | VList l => forallb printable l
  | VDict d => map_fold (λ _ v' acc, printable v' && acc) true d
  | VNone | VBool _ | VStr _ => true
  end.

Section Collector.

(** The text [str()] gives a list or a dictionary that has one.  It
    depends on the insertion order of the keys, which the maps of this
    development do not record, and no property below depends on it. *)
Variable container_str : value → string.

(** The text of a cell, as [writerow] derives it from a value: [None] is
    the empty text, a string is itself, and [str] converts the rest, which
    fails on an integer with too many digits. *)
Definition field_text (v : value) : result string :=
  match v with
  | VNone => Ok ""
  | VStr s => Ok s
  | VBool true => Ok "True"
  | VBool false => Ok "False"
  | VInt n =>
      if printable v then Ok (NilZero.string_of_int (Z.to_int n))
      else Raise ValueError
  | VList _ | VDict _ =>
      if printable v then Ok (container_str v) else Raise ValueError
  end.

(** [DictWriter._dict_to_list] followed by the conversion of the values
    in [writerow]: a key outside the field names is an error, a missing
    field is written as the empty text. *)
Definition _dict_to_list (rowdict : gmap string value) : result (list string) :=
  if decide (dom rowdict ⊆ list_to_set fieldnames)
  then for_each (λ key, field_text (default (VStr "") (rowdict !! key)))
         fieldnames
  else Raise ValueError.

Definition writeheader (p : list string) : M unit :=
  file_write p (writerow fieldnames).

(** [DictWriter.writerows]: the rows are converted and written one by
    one. *)
Fixpoint writerows (p : list string) (rows : list (gmap string value))
  : M unit :=
  match rows with
  | [] => mret ()
  | r :: rows' =>
      cells ← lift (_dict_to_list r);
      file_write p (writerow cells);;
      writerows p rows'
  end.

Definition write_rows (csv_path : list string)
    (rows : list (gmap string value)) : M Z :=
  match rows with
  | [] => mret 0
  | _ :: _ =>
      file_exists ← os_path_isfile csv_path;
      existing ← read_existing_keys csv_path;
      deduped ← lift (dedup_loop existing rows);
      match deduped with
      | [] => mret 0
      | _ :: _ =>
          open_append csv_path;;
          (if negb file_exists then writeheader csv_path else mret ());;
          writerows csv_path deduped;;
          mret (Z.of_nat (length deduped))
      end
  end.

(** ** Snapshot Orchestrator *)

(** What calling the fetch collaborator inside the [try] block does: it
    returns the pairs, or raises [requests.HTTPError] (from
    [raise_for_status], so with the response and its status code), another
    [requests.RequestException], or any other [Exception]. *)
Inductive fetch_outcome : Type :=
| Fetched (pairs : list value)
| HTTPError (status_code : Z)
| RequestException
| OtherException.

(** [sum(1 for _ in f)]: the number of lines of a text. *)
Fixpoint count_lines (in_line : bool) (text : string) : Z :=
  match text with
  | EmptyString => if in_line then 1 else 0
  | String c text' =>
      if line_ends c text' then 1 + count_lines false text'
      else count_lines true text'
  end.

Definition count_data_lines (csv_path : list string) : M Z :=
  isfile ← os_path_isfile csv_path;
  if (isfile : bool) then
    text ← open_read csv_path;
    mret (Z.max (count_lines false text - 1) 0)
  else mret 0.

Definition do_snapshot (now_utc : datetime) (fetch : fetch_outcome)
    (outdir : list string) : M Z :=
  let snapshot_ts := isoformat_seconds now_utc in
  match fetch with
  | HTTPError status_code => print (ErrorHTTP status_code);; mret 0
  | RequestException => print ErrorRequestFailed;; mret 0
  | OtherException => print ErrorUnexpected;; mret 0
  | Fetched pairs =>
      rows ← lift (normalize_records pairs snapshot_ts);
      ensure_dir outdir;;
      let csv_path := _daily_csv_path outdir now_utc in
      before ← count_data_lines csv_path;
      added ← write_rows csv_path rows;
      after ← count_data_lines csv_path;
      print (OkWrote snapshot_ts added csv_path after);;
      mret added
  end.

End Collector.

(** ** Truth values, iteration and white space *)

(** [bool(v)], the test of [if v] and of [v or w]. *)
Definition py_truthy (v : value) : bool :=
  match v with
  | VNone => false
  | VBool b => b
  | VInt n => negb (n =? 0)
  | VStr s => negb (bool_decide (s = ""))
  | VList l => negb (bool_decide (l = []))
  | VDict d => negb (bool_decide (d = ∅))
  end.

(** [x or y] *)
Definition py_or (x y : value) : value := if py_truthy x then x else y.

Fixpoint characters (s : string) : list value :=
  match s with
  | EmptyString => []
  | String c s' => VStr (String c "") :: characters s'
  end.

(** The elements [for p in v] and [list.extend(v)] run over: those of a
    list, the characters of a string, the keys of a dictionary (in an
    order that the maps here do not record); the other values are not
    iterable. *)
Definition py_iter (v : value) : result (list value) :=
  match v with
  | VList l => Ok l
  | VStr s => Ok (characters s)
  | VDict d => Ok (VStr <$> (map_to_list d).*1)
  | VNone | VBool _ | VInt _ => Raise TypeError
  end.

(** [c.isspace()] for the characters below 256: the ASCII white space,
    the four separators 28 to 31, next line and the no-break space. *)
Definition py_isspace (c : ascii) : bool :=
  let n := nat_of_ascii c in
  ((9 <=? n) && (n <=? 13))%nat || ((28 <=? n) && (n <=? 32))%nat
  || (n =? 133)%nat || (n =? 160)%nat.

Fixpoint lstrip (s : string) : string :=
  match s with
  | EmptyString => ""
  | String c s' => if py_isspace c then lstrip s' else s
  end.

Fixpoint rstrip (s : string) : string :=
  match s with
  | EmptyString => ""
  | String c s' =>
      match rstrip s' with
      | EmptyString => if py_isspace c then "" else String c ""
      | t => String c t
      end
  end.

(** [s.strip()] *)
Definition strip (s : string) : string := rstrip (lstrip s).

(** [[x.strip() for x in s.split(",") if x.strip()]], the cleaning of a
    comma-separated option in [main] and in [fetch_pairs_by_ids]. *)
Definition clean_list (s : string) : list string :=
  filter (λ x, x ≠ "") (strip <$> split "," s).

(** ** Fetching *)

(** What a fetch can raise: an exception of the interpreter, the
    [HTTPError] of [raise_for_status] with the status of the response,
    another [RequestException], or any other exception. *)
Inductive raised : Type :=
| Python (e : exn)
| RequestsHTTPError (status_code : Z)
| RequestsException
| UnexpectedException.

Inductive outcome (A : Type) : Type :=
| Returned (a : A)
| Failed (e : raised).

Arguments Returned {A} a.
Arguments Failed {A} e.

Definition of_result {A} (r : result A) : outcome A :=
  match r with
  | Ok a => Returned a
  | Raise e => Failed (Python e)
  end.

Definition DEX_SEARCH_URL : string :=
  "https://api.dexscreener.com/latest/dex/search".

(** The pairs of a response, [data.get("pairs", []) or []], as the loop
    or [extend] runs over them. *)
Definition pairs_of (data : value) : result (list value) :=
  match data with
  | VDict d => py_iter (py_or (default (VList []) (d !! "pairs")) (VList []))
  | _ => Raise AttributeError
  end.

(** The loop that keeps the pairs with a new [pairAddress]: [seen] and
    [merged] are the two variables it updates. *)
Fixpoint merge_pairs (ps : list value) (seen : gset atom) (merged : list value)
  : result (gset atom * list value) :=
  match ps with
  | [] => Ok (seen, merged)
  | p :: ps' =>
      match p with
      | VDict d =>
          let pid := dict_get d "pairAddress" in
          if py_truthy pid then
            rbind (py_hash pid) (λ a,
              if decide (a ∈ seen) then merge_pairs ps' seen merged
              else merge_pairs ps' ({[a]} ∪ seen) (merged ++ [p]))
          else merge_pairs ps' seen merged
      | _ => Raise AttributeError
      end
  end.

Section Fetch.

(** The state of the network, and [http_get_json] on it: the request for
    a URL with its parameters returns the parsed body or raises. *)
Variable net : Type.
Variable http_get_json :
  string → option (list (string * string)) → net → net * outcome value.

(** [urllib.parse.quote] *)
Variable quote : string → string.

(** The loop over the queries of [fetch_pairs_by_search_queries]. *)
Fixpoint search_loop (queries : list string) (seen : gset atom)
    (merged : list value) (n : net) : net * outcome (list value) :=
  match queries with
  | [] => (n, Returned merged)
  | q :: queries' =>
      let q := strip q in
      if bool_decide (q = "") then search_loop queries' seen merged n
      else
        match http_get_json DEX_SEARCH_URL (Some [("q", q)]) n with
        | (n', Failed e) => (n', Failed e)
        | (n', Returned data) =>
            match rbind (pairs_of data) (λ ps, merge_pairs ps seen merged) with
            | Raise e => (n', Failed (Python e))
            | Ok (seen', merged') => search_loop queries' seen' merged' n'
            end
        end
  end.

Definition fetch_pairs_by_search_queries (queries : list string) (n : net)
  : net * outcome (list value) :=
  search_loop queries ∅ [] n.

(** [DEX_PAIRS_URL_TMPL.format(chainId=..., pairId=...)] *)
Definition pairs_url (chain_id pair_id : string) : string :=
  "https://api.dexscreener.com/latest/dex/pairs/" +:+ chain_id
  +:+ "/" +:+ pair_id.

(** The first loop of [fetch_pairs_by_ids], which fills [out]. *)
Fixpoint ids_loop (chain_id : string) (pids : list string) (out : list value)
    (n : net) : net * outcome (list value) :=
  match pids with
  | [] => (n, Returned out)
  | pid :: pids' =>
      match http_get_json (pairs_url chain_id (quote pid)) None n with
      | (n', Failed e) => (n', Failed e)
      | (n', Returned data) =>
          match pairs_of data with
          | Raise e => (n', Failed (Python e))
          | Ok ps => ids_loop chain_id pids' (out ++ ps) n'
          end
      end
  end.

Definition fetch_pairs_by_ids (chain_id pair_ids_csv : string) (n : net)
  : net * outcome (list value) :=
  match ids_loop chain_id (clean_list pair_ids_csv) [] n with
  | (n', Failed e) => (n', Failed e)
  | (n', Returned out) =>
      (n', of_result (rbind (merge_pairs out ∅ []) (λ sm, Ok sm.2)))
  end.

(** The pairs of the responses to the queries, one list after the other,
    before any pair is dropped: what [fetch_pairs_by_search_queries]
    merges. *)
Fixpoint search_responses (queries : list string) (n : net)
  : net * outcome (list value) :=
  match queries with
  | [] => (n, Returned [])
  | q :: queries' =>
      let q := strip q in
      if bool_decide (q = "") then search_responses queries' n
      else
        match http_get_json DEX_SEARCH_URL (Some [("q", q)]) n with
        | (n', Failed e) => (n', Failed e)
        | (n', Returned data) =>
            match pairs_of data with
            | Raise e => (n', Failed (Python e))
            | Ok ps =>
                match search_responses queries' n' with
                | (n'', Returned out) => (n'', Returned (ps ++ out))
                | (n'', Failed e) => (n'', Failed e)
                end
            end
        end
  end.

(** The [try] block of [do_snapshot] and the three handlers that follow
    it, as the outcome the rest of the function works on. *)
Definition try_fetch (queries : list string) (chain_id : string)
    (pair_ids_csv : option string) (n : net) : net * fetch_outcome :=
  let fetched :=
    match pair_ids_csv with
    | Some (String c ids) => fetch_pairs_by_ids chain_id (String c ids) n
    | Some EmptyString | None => fetch_pairs_by_search_queries queries n
    end in
  (fetched.1,
   match fetched.2 with
   | Returned pairs => Fetched pairs
   | Failed (RequestsHTTPError status_code) => HTTPError status_code
   | Failed RequestsException => RequestException
   | Failed (Python _) | Failed UnexpectedException => OtherException
   end).

(** [do_snapshot] with its fetch: [now_utc] is what [datetime.now]
    returns when the function starts. *)
Definition do_snapshot_fetching (cs : value → string) (now_utc : datetime)
    (outdir queries : list string) (chain_id : string)
    (pair_ids_csv : option string) (n : net) (w : world)
  : net * (world * result Z) :=
  let f := try_fetch queries chain_id pair_ids_csv n in
  (f.1, do_snapshot cs now_utc f.2 outdir w).

(** [main]'s list of queries, from the text of the option
    [--queries]. *)
Definition main_queries (queries : string) : list string := clean_list queries.

End Fetch.

(** The calls of [do_snapshot] that the loop of [main] makes, one at
    each moment of [clock], until it is interrupted; an exception that
    [do_snapshot] raises ends the loop and leaves [main]. *)
Fixpoint snapshot_loop {net : Type}
    (http_get_json :
       string → option (list (string * string)) → net → net * outcome value)
    (quote : string → string) (cs : value → string)
    (outdir queries : list string) (chain_id : string)
    (pair_ids_csv : option string) (clock : list datetime) (n : net)
    (w : world) : net * (world * result unit) :=
  match clock with
  | [] => (n, (w, Ok ()))
  | now_utc :: clock' =>
      match do_snapshot_fetching net http_get_json quote cs now_utc outdir
              queries chain_id pair_ids_csv n w with
      | (n', (w', Ok _)) =>
          snapshot_loop http_get_json quote cs outdir queries chain_id
            pair_ids_csv clock' n' w'
      | (n', (w', Raise e)) => (n', (w', Raise e))
      end
  end.

(** ** The older script *)

Module Script.

(** [normalize_records] of the older script takes the whole response. *)
Definition normalize_records (raw : value) (snapshot_ts : string)
  : result (list (gmap string value)) :=
  rbind (pairs_of raw) (λ pairs, normalize_records pairs snapshot_ts).

(** The lines the older script prints. *)
Inductive message : Type :=
| ErrorHTTP (status_code : Z)
| ErrorRequestFailed
| ErrorUnexpected
| OkWrote (snapshot_ts : string) (added : Z) (csv_path : list string).

Section Script.

Variable container_str : value → string.

(** [write_rows] of the older script returns nothing and reads the keys
    with [read_existing_rows_indexed]. *)
Definition write_rows (csv_path : list string)
    (rows : list (gmap string value)) : M unit :=
  match rows with
  | [] => mret ()
  | _ :: _ =>
      file_exists ← os_path_isfile csv_path;
      existing_keys ← read_existing_rows_indexed csv_path;
      deduped ← lift (dedup_loop existing_keys rows);
      match deduped with
      | [] => mret ()
      | _ :: _ =>
          open_append csv_path;;
          (if negb file_exists then writeheader csv_path else mret ());;
          writerows container_str csv_path deduped
      end
  end.

(** [snapshot_once]: [fetch] is what [fetch_solana_pairs] does inside the
    [try] block; the result holds the line printed, if the function gets
    that far. *)
Definition snapshot_once (now_utc : datetime) (fetch : outcome value)
    (outdir : list string) : M (Z * message) :=
  let snapshot_ts := isoformat_seconds now_utc in
  match fetch with
  | Failed (RequestsHTTPError status_code) => mret (0, ErrorHTTP status_code)
  | Failed RequestsException => mret (0, ErrorRequestFailed)
  | Failed (Python _) | Failed UnexpectedException => mret (0, ErrorUnexpected)
  | Returned raw =>
      rows ← lift (normalize_records raw snapshot_ts);
      ensure_dir outdir;;
      let csv_path := _daily_csv_path outdir now_utc in
      pre_count ← count_data_lines csv_path;
      write_rows csv_path rows;;
      post_count ← count_data_lines csv_path;
      let added := Z.max (post_count - pre_count) 0 in
      mret (added, OkWrote snapshot_ts added csv_path)
  end.

End Script.

End Script.

(** ** Vocabulary of the statements *)

(** The text of a record before its line terminator. *)
Definition record_text (cells : list string) : string :=
  if bool_decide (cells ≠ []) && bool_decide (join_record cells = "")
  then String DQUOTE (String DQUOTE "") else join_record cells.

(** The lines the writer produces for a list of records. *)
Fixpoint lines_text (records : list (list string)) : string :=
  match records with
  | [] => ""
  | cells :: records' => writerow cells +:+ lines_text records'
  end.

(** The state of the reader once it has consumed the text of the field
    [s] of a record whose earlier fields are [fs]. *)
Definition after_field (s : string) (fs : list string) : reader :=
  if must_quote s then mk_reader QUOTE_IN_QUOTED_FIELD s fs
  else if bool_decide (s = "") then mk_reader START_FIELD "" fs
  else mk_reader IN_FIELD s fs.

(** The key of a record of a partition file: the text of its second
    column, [pairAddress], and of its first, [snapshot_ts]. *)
Definition disk_key (cells : list string) : atom * atom :=
  (AStr (nth 1 cells ""), AStr (nth 0 cells "")).

(** The keys [read_existing_keys] finds in a world, without the trace. *)
Definition existing_keys (w : world) (p : list string)
  : result (gset (atom * atom)) :=
  match files w !! p with
  | None => Ok ∅
  | Some text => rbind (DictReader text) (add_keys ∅)
  end.

(** A row whose two key fields are strings. *)
Definition string_keyed (r : gmap string value) : Prop :=
  ∃ a t, r !! "pairAddress" = Some (VStr a) ∧ r !! "snapshot_ts" = Some (VStr t).

(** A row with no field outside the fixed field names. *)
Definition no_extra_fields (r : gmap string value) : Prop :=
  dom r ⊆ list_to_set fieldnames.

(** [open(p, "a")] can succeed: [p] is not a directory, and it is an
    existing file or the directory that is to hold it exists. *)
Definition appendable (w : world) (p : list string) : Prop :=
  is_dir w p = false ∧
  (is_file w p = true
   ∨ (is_file w (dirname p) = false ∧ parent_exists w p = true)).

(** Two worlds with the same directories, files and printed lines: they
    differ by the trace of calls only. *)
Definition same_store (w w' : world) : Prop :=
  dirs w' = dirs w ∧ files w' = files w ∧ printed w' = printed w.

(** The states in which a field can end. *)
Definition field_closed (st : reader) : Prop :=
  state st = START_FIELD ∨ state st = IN_FIELD
  ∨ state st = QUOTE_IN_QUOTED_FIELD.

(** The values [DictReader] puts in a row: texts and [None]. *)
Definition text_or_none (v : value) : Prop := v = VNone ∨ ∃ s, v = VStr s.

(** The text of a partition file: the header line, then the lines of the
    records. *)
Definition table_text (records : list (list string)) : string :=
  writerow fieldnames +:+ lines_text records.

(** The records [writerows] writes before it stops, and how it stops. *)
Fixpoint converted (cs : value → string) (rows : list (gmap string value))
  : list (list string) * result unit :=
  match rows with
  | [] => ([], Ok ())
  | r :: rows' =>
      match _dict_to_list cs r with
      | Ok cells => let c := converted cs rows' in (cells :: c.1, c.2)
      | Raise e => ([], Raise e)
      end
  end.

(** The exception of [open(p, "a")], if any. *)
Definition open_append_error (w : world) (p : list string) : option exn :=
  if is_dir w p then Some IsADirectoryError
  else if is_file w p then None
  else if is_file w (dirname p) then Some NotADirectoryError
  else if parent_exists w p then None
  else if under_file w p then Some NotADirectoryError
  else Some FileNotFoundError.

(** The text the file starts from when rows are appended: its content,
    or the header line when it does not exist. *)
Definition start_text (w : world) (p : list string) : string :=
  match files w !! p with
  | Some text => text
  | None => writerow fieldnames
  end.

(** The new content of the file, if it is touched at all, and the outcome
    of [write_rows]. *)
Definition write_rows_effect (cs : value → string) (w : world)
    (p : list string) (rows : list (gmap string value))
  : option string * result Z :=
  match rows with
  | [] => (None, Ok 0)
  | _ :: _ =>
      match rbind (existing_keys w p) (λ keys, dedup_loop keys rows) with
      | Raise e => (None, Raise e)
      | Ok [] => (None, Ok 0)
      | Ok deduped =>
          match open_append_error w p with
          | Some e => (None, Raise e)
          | None =>
              let c := converted cs deduped in
              (Some (start_text w p +:+ lines_text c.1),
               rbind c.2 (λ _, Ok (Z.of_nat (length deduped))))
          end
      end
  end.

(** The rows of a batch that are new, in the words of the description of
    the Table Store: a row is kept when its key is neither among the keys
    on disk nor carried by an earlier row of the batch ([seen] holds the
    keys of the rows before it). *)
Fixpoint new_rows (on_disk : gset (atom * atom)) (seen : list (atom * atom))
    (rows : list (gmap string value)) (keys : list (atom * atom))
  : list (gmap string value) :=
  match rows, keys with
  | r :: rows', k :: keys' =>
      if decide ((k ∉ on_disk) ∧ (k ∉ seen))
      then r :: new_rows on_disk (seen ++ [k]) rows' keys'
      else new_rows on_disk (seen ++ [k]) rows' keys'
  | _, _ => []
  end.

(** The text of the cell of a value, the empty text for a value that
    has none. *)
Definition cell_text (cs : value → string) (v : value) : string :=
  match field_text cs v with
  | Ok s => s
  | Raise _ => ""
  end.

(** The cells of a row. *)
Definition cells_of (cs : value → string) (r : gmap string value)
  : list string :=
  (λ key, cell_text cs (default (VStr "") (r !! key))) <$> fieldnames.

(** A text that fits in a field of the reader. *)
Definition small (s : string) : bool :=
  Z.of_nat (String.length s) <=? field_limit.

(** Records all of whose cells fit in a field of the reader. *)
Definition all_small (records : list (list string)) : bool :=
  forallb (forallb small) records.

(** Each value of the fields of the row has a text. *)
Definition row_printable (r : gmap string value) : bool :=
  forallb (λ key, printable (default (VStr "") (r !! key))) fieldnames.

(** A row that [writerows] can write: it has no field outside the fixed
    names, and each of its values has a text. *)
Definition writable (r : gmap string value) : Prop :=
  no_extra_fields r ∧ row_printable r = true.

(** A row that can be written and that the reader can read back: no cell
    of it is longer than the reader accepts. *)
Definition storable (cs : value → string) (r : gmap string value) : Prop :=
  writable r ∧ forallb small (cells_of cs r) = true.

(** A sequence of calls of [write_rows] on the same path; the results of
    the calls, exceptions included, are dropped. *)
Fixpoint append_calls (cs : value → string) (p : list string)
    (batches : list (list (gmap string value))) (w : world) : world :=
  match batches with
  | [] => w
  | rows :: batches' => append_calls cs p batches' (write_rows cs p rows w).1
  end.

(** How the content of the file may change: an absent file stays absent
    or becomes the header line followed by lines of rows among [rows]; an
    existing file keeps its content and gains lines of rows among [rows] at
    its end. *)
Definition extends (cs : value → string) (rows : list (gmap string value))
    (before after : option string) : Prop :=
  match before, after with
  | None, None => True
  | None, Some text' =>
      ∃ rs, sublist rs rows ∧ text' = table_text (cells_of cs <$> rs)
  | Some text, Some text' =>
      ∃ rs, sublist rs rows ∧ text' = text +:+ lines_text (cells_of cs <$> rs)
  | Some _, None => False
  end.

(** The [pairAddress] of a pair, [None] for what is not a dictionary. *)
Definition pair_address (p : value) : value :=
  match p with
  | VDict d => dict_get d "pairAddress"
  | _ => VNone
  end.

(** A pair the fetchers keep: a dictionary whose [pairAddress] is truthy
    and hashes to [a]. *)
Definition addressed (p : value) (a : atom) : Prop :=
  (∃ d, p = VDict d)
  ∧ py_truthy (pair_address p) = true
  ∧ py_hash (pair_address p) = Ok a.

(** The pairs [merged] kept out of the pairs [out] received: they come
    from [out] in its order, each has a truthy address, no two have the
    same address, and every pair received with a truthy address has its
    address among those kept. *)
Definition merged_from (out merged : list value) : Prop :=
  sublist merged out
  ∧ ∃ addrs,
      Forall2 addressed merged addrs
      ∧ NoDup addrs
      ∧ Forall (λ p, py_truthy (pair_address p) = true →
                     ∃ a, py_hash (pair_address p) = Ok a ∧ a ∈ addrs) out.

(** Whether the character [c] occurs in [s]. *)
Fixpoint has_char (c : ascii) (s : string) : bool :=
  match s with
  | EmptyString => false
  | String c' s' => Ascii.eqb c' c || has_char c s'
  end.

(** A text that does not begin with white space. *)
Definition starts_clean (s : string) : Prop :=
  match s with
  | EmptyString => True
  | String c _ => py_isspace c = false
  end.

(** A partition that holds exactly the rows [rs], whose keys are [keys]:
    absent when there is none, else the header and their lines; the keys
    are strings and pairwise different, no cell is longer than the reader
    accepts, and the file can be appended to. *)
Definition table_of (cs : value → string) (w : world) (p : list string)
    (rs : list (gmap string value)) (keys : list (atom * atom)) : Prop :=
  files w !! p = match rs with
                 | [] => None
                 | _ :: _ => Some (table_text (cells_of cs <$> rs))
                 end
  ∧ Forall string_keyed rs
  ∧ all_small (cells_of cs <$> rs) = true
  ∧ Forall2 (λ r k, dedup_key r = Ok k) rs keys
  ∧ NoDup keys
  ∧ appendable w p.

(** A row as it reads back from the file: every field is there, as the
    text of its cell. *)
Definition as_text (cs : value → string) (r : gmap string value)
  : gmap string value :=
  dict_of ((λ key, (key, VStr (cell_text cs (default (VStr "") (r !! key)))))
             <$> fieldnames).

(** A text without a line break. *)
Definition one_line (s : string) : bool :=
  negb (has_char CR s) && negb (has_char LF s).

(** The number of rows the orchestrator counts in a partition: its lines
    less the header, 0 when there is no file. *)
Definition data_lines (w : world) (p : list string) : Z :=
  match files w !! p with
  | Some text => Z.max (count_lines false text - 1) 0
  | None => 0
  end.

(** A partition that is absent or ends with the line terminator. *)
Definition terminated (w : world) (p : list string) : Prop :=
  files w !! p = None ∨ ∃ t, files w !! p = Some (t +:+ CRLF).

(** Rows whose cells hold no line break. *)
Definition one_line_rows (cs : value → string)
    (rows : list (gmap string value)) : Prop :=
  Forall (λ r, Forall (λ c, one_line c = true) (cells_of cs r)) rows.

(** The rows a snapshot has to write: those of the pairs fetched, none
    when the fetch or the normalisation fails. *)
Definition fetched_rows (now_utc : datetime) (fetch : fetch_outcome)
  : list (gmap string value) :=
  match fetch with
  | Fetched pairs =>
      match normalize_records pairs (isoformat_seconds now_utc) with
      | Ok rows => rows
      | Raise _ => []
      end
  | _ => []
  end.

(** A pair the merging loop can handle: a dictionary whose
    [pairAddress], if truthy, is hashable. *)
Definition sound_pair (p : value) : Prop :=
  (∃ d, p = VDict d)
  ∧ (py_truthy (pair_address p) = true →
     ∃ a, py_hash (pair_address p) = Ok a).

(** A response the fetchers can handle: a dictionary whose [pairs], if
    any, can be run over and are sound. *)
Definition well_formed (data : value) : Prop :=
  ∃ ps, pairs_of data = Ok ps ∧ Forall sound_pair ps.

(** The requests of a run, made one after the other from the state [n]
    of the network until one fails: the state that the failing request
    leaves and what it raised, or nothing when every request returns. *)
Fixpoint first_failure {net : Type}
    (http_get_json :
       string → option (list (string * string)) → net → net * outcome value)
    (requests : list (string * option (list (string * string)))) (n : net)
  : option (net * raised) :=
  match requests with
  | [] => None
  | (url, params) :: requests' =>
      match http_get_json url params n with
      | (n', Returned _) => first_failure http_get_json requests' n'
      | (n', Failed e) => Some (n', e)
      end
  end.

(** The requests of the search fetcher: one for each query that is not
    blank, in the order of the queries. *)
Fixpoint search_requests (queries : list string)
  : list (string * option (list (string * string))) :=
  match queries with
  | [] => []
  | q :: queries' =>
      if bool_decide (strip q = "") then search_requests queries'
      else (DEX_SEARCH_URL, Some [("q", strip q)]) :: search_requests queries'
  end.

(** The requests of the fetcher by identifiers: one for each identifier
    of the cleaned list, in its order. *)
Definition ids_requests (quote : string → string)
    (chain_id pair_ids_csv : string)
  : list (string * option (list (string * string))) :=
  (λ pid, (pairs_url chain_id (quote pid), None)) <$> clean_list pair_ids_csv.

(** ** Concrete inputs *)

Definition braces : value → string := λ _, "{}".

Definition new_year : datetime :=
  {| isoformat_seconds := "2024-01-01T00:00:00+00:00";
     strftime_Ymd := "2024-01-01" |}.

Definition partition : list string := _daily_csv_path ["data"] new_year.

(** A world with the directory [data] and no file, and a world with
    nothing at all. *)
Definition with_data_dir : world :=
  {| dirs := {[ ["data"] ]}; files := ∅; trace := []; printed := [] |}.

Definition bare : world :=
  {| dirs := ∅; files := ∅; trace := []; printed := [] |}.

Definition pair_P1 : gmap string value :=
  dict_of
    [ ("pairAddress", VStr "P1"); ("chainId", VStr "solana");
      ("dexId", VStr "raydium");
      ("baseToken", VDict (dict_of [("symbol", VStr "FOO")]));
      ("quoteToken", VDict (dict_of [("symbol", VStr "USDC")]));
      ("priceUsd", VStr "1.23");
      ("liquidity", VDict (dict_of [("usd", VInt 5000)]));
      ("txns", VDict (dict_of
         [("h1", VDict (dict_of [("buys", VInt 10); ("sells", VInt 4)]))])) ].

Definition pair_P2 : gmap string value :=
  dict_of [ ("pairAddress", VStr "P2"); ("chainId", VStr "solana") ].

Definition pair_P3 : gmap string value :=
  dict_of [ ("pairAddress", VStr "P3"); ("chainId", VStr "solana") ].

(** Two records without [pairAddress]. *)
Definition pair_unnamed : gmap string value :=
  dict_of [ ("chainId", VStr "solana"); ("dexId", VStr "raydium") ].

Definition pair_unnamed' : gmap string value :=
  dict_of [ ("chainId", VStr "solana"); ("dexId", VStr "orca") ].

(** A record whose [pairAddress] is a number. *)
Definition pair_numbered : gmap string value :=
  dict_of [ ("pairAddress", VInt 7); ("chainId", VStr "solana") ].

(** The rows [normalize_records] makes of a list of records at the
    timestamp of [new_year]. *)
Definition rows_of (ds : list (gmap string value)) : list (gmap string value) :=
  match normalize_records (VDict <$> ds) (isoformat_seconds new_year) with
  | Ok rows => rows
  | Raise _ => []
  end.

(** The row of one record. *)
Definition row_of (d : gmap string value) : gmap string value :=
  default ∅ (rows_of [d] !! 0%nat).

(** A partition whose last line lacks its terminator. *)
Definition unterminated : world :=
  {| dirs := {[ ["data"] ]};
     files := {[ partition :=
                   table_text [cells_of braces (row_of pair_P1)]
                   +:+ record_text (cells_of braces (row_of pair_P2)) ]};
     trace := []; printed := [] |}.

(** A network that answers the requests from a list of responses, in
    their order, and fails once the list is exhausted. *)
Definition canned (url : string) (params : option (list (string * string)))
    (n : list (outcome value)) : list (outcome value) * outcome value :=
  match n with
  | [] => ([], Failed RequestsException)
  | r :: n' => (n', r)
  end.

(** The response that holds the given pairs. *)
Definition body (ps : list (gmap string value)) : value :=
  VDict (dict_of [("pairs", VList (VDict <$> ps))]).

Definition two_responses : list (outcome value) :=
  [Returned (body [pair_P1; pair_P2]); Returned (body [pair_P2; pair_P3])].
(** A network that answers the first request and fails from then on; its
    state is the number of requests made. *)
Definition flaky (url : string) (params : option (list (string * string)))
    (n : nat) : nat * outcome value :=
  match n with
  | O => (1%nat, Returned (body [pair_P1; pair_P2]))
  | S _ => (S n, Failed RequestsException)
  end.

(** ** Text *)

#[local] Set Warnings "-clear-no-such-hyp".

Lemma sapp_cons c s t : String c s +:+ t = String c (s +:+ t).
Proof. reflexivity. Qed.

Lemma sapp_nil_l s : "" +:+ s = s.
Proof. reflexivity. Qed.

Lemma sapp_nil_r s : s +:+ "" = s.
Proof. induction s as [|c s IH]; [done|]. by rewrite sapp_cons, IH. Qed.

Lemma sapp_assoc s t u : (s +:+ t) +:+ u = s +:+ (t +:+ u).
Proof. induction s as [|c s IH]; [done|]. by rewrite !sapp_cons, IH. Qed.

Lemma sapp_snoc s c t : (s +:+ String c "") +:+ t = s +:+ String c t.
Proof. by rewrite sapp_assoc. Qed.

Lemma lines_text_app rs1 rs2 :
  lines_text (rs1 ++ rs2) = lines_text rs1 +:+ lines_text rs2.
Proof.
  induction rs1 as [|r rs1 IH]; [done|].
  cbn [lines_text app]. by rewrite IH, sapp_assoc.
Qed.

Lemma writerow_record_text cells : writerow cells = record_text cells +:+ CRLF.
Proof. reflexivity. Qed.

(** ** The reader on the writer's output *)

Lemma slength_app s t :
  String.length (s +:+ t) = (String.length s + String.length t)%nat.
Proof.
  induction s as [|c s IH]; [done|]. rewrite sapp_cons.
  cbn [String.length]. by rewrite IH.
Qed.

Lemma slength_snoc s c :
  Z.of_nat (String.length (s +:+ String c "")) = Z.of_nat (String.length s) + 1.
Proof. rewrite slength_app. cbn [String.length]. lia. Qed.

Lemma slength_cons c s :
  Z.of_nat (String.length (String c s)) = Z.of_nat (String.length s) + 1.
Proof. cbn [String.length]. lia. Qed.

Lemma small_spec s :
  small s = true ↔ Z.of_nat (String.length s) ≤ field_limit.
Proof. unfold small. apply Z.leb_le. Qed.

Lemma small_false s :
  small s = false ↔ field_limit < Z.of_nat (String.length s).
Proof. unfold small. apply Z.leb_gt. Qed.

Lemma field_limit_pos : 0 < field_limit.
Proof. done. Qed.

Lemma parse_add_char_fits st c :
  Z.of_nat (String.length (field st)) < field_limit →
  parse_add_char st c
  = Ok (mk_reader (state st) (field st +:+ String c "") (fields st)).
Proof.
  intros Hf. unfold parse_add_char. by rewrite (proj2 (Z.leb_gt _ _)).
Qed.

Lemma parse_add_char_full st c :
  field_limit ≤ Z.of_nat (String.length (field st)) →
  parse_add_char st c = Raise CsvError.
Proof.
  intros Hf. unfold parse_add_char. by rewrite (proj2 (Z.leb_le _ _)).
Qed.

Lemma is_special_false c :
  is_special c = false →
  Ascii.eqb c COMMA = false ∧ Ascii.eqb c DQUOTE = false ∧ is_newline c = false.
Proof.
  unfold is_special, is_newline. intros H.
  destruct (Ascii.eqb c COMMA), (Ascii.eqb c DQUOTE), (Ascii.eqb c CR),
    (Ascii.eqb c LF); naive_solver.
Qed.

Lemma line_ends_plain c text : is_newline c = false → line_ends c text = false.
Proof.
  unfold is_newline, line_ends.
  destruct (Ascii.eqb c LF), (Ascii.eqb c CR); naive_solver.
Qed.

(** An unquoted run of ordinary characters is added to the field, as long
    as the field stays within the limit. *)
Lemma reader_rows_plain s : ∀ f fs b text,
  must_quote s = false →
  Z.of_nat (String.length f) + Z.of_nat (String.length s) ≤ field_limit →
  reader_rows (mk_reader IN_FIELD f fs) b (s +:+ text)
  = reader_rows (mk_reader IN_FIELD (f +:+ s) fs)
      (b || negb (bool_decide (s = ""))) text.
Proof.
  induction s as [|c s IH]; intros f fs b text Hq Hlen.
  - rewrite sapp_nil_r, sapp_nil_l. by rewrite orb_false_r.
  - cbn [must_quote] in Hq. apply orb_false_iff in Hq as [Hc Hs].
    destruct (is_special_false _ Hc) as (Hcomma & Hdq & Hnl).
    rewrite slength_cons in Hlen.
    rewrite sapp_cons. cbn [reader_rows].
    unfold parse_process_char. cbn [state]. rewrite Hnl, Hcomma.
    rewrite parse_add_char_fits by (cbn [field]; lia).
    cbn [rbind state field fields].
    rewrite line_ends_plain by done.
    rewrite IH by (rewrite ?slength_snoc; done || lia). rewrite sapp_snoc.
    by rewrite orb_true_l, orb_true_r.
Qed.

(** The run that takes the field over the limit is refused. *)
Lemma reader_rows_plain_long s : ∀ f fs b text,
  must_quote s = false →
  Z.of_nat (String.length f) ≤ field_limit →
  field_limit < Z.of_nat (String.length f) + Z.of_nat (String.length s) →
  reader_rows (mk_reader IN_FIELD f fs) b (s +:+ text) = Raise CsvError.
Proof.
  induction s as [|c s IH]; intros f fs b text Hq Hf Hlen.
  - cbn [String.length] in Hlen. lia.
  - cbn [must_quote] in Hq. apply orb_false_iff in Hq as [Hc Hs].
    destruct (is_special_false _ Hc) as (Hcomma & Hdq & Hnl).
    rewrite slength_cons in Hlen.
    rewrite sapp_cons. cbn [reader_rows].
    unfold parse_process_char. cbn [state]. rewrite Hnl, Hcomma.
    destruct (decide (Z.of_nat (String.length f) < field_limit)) as [Hlt|Hge].
    + rewrite parse_add_char_fits by done. cbn [rbind state field fields].
      rewrite line_ends_plain by done.
      apply IH; [done|rewrite slength_snoc; lia..].
    + by rewrite parse_add_char_full by (cbn [field set_state]; lia).
Qed.

(** Inside quotes every character but the quote is added to the field,
    line ends included, and a doubled quote stands for one. *)
Lemma reader_rows_quoted s : ∀ f fs b text,
  Z.of_nat (String.length f) + Z.of_nat (String.length s) ≤ field_limit →
  reader_rows (mk_reader IN_QUOTED_FIELD f fs) b
    (double_quotes s +:+ String DQUOTE text)
  = reader_rows (mk_reader QUOTE_IN_QUOTED_FIELD (f +:+ s) fs) true text.
Proof.
  induction s as [|c s IH]; intros f fs b text Hlen.
  - rewrite sapp_nil_r. cbn [double_quotes]. rewrite sapp_nil_l.
    cbn [reader_rows]. unfold parse_process_char. cbn [state].
    rewrite Ascii.eqb_refl. cbn [rbind].
    by rewrite line_ends_plain by done.
  - rewrite slength_cons in Hlen.
    cbn [double_quotes]. destruct (Ascii.eqb c DQUOTE) eqn:Hc.
    + apply Ascii.eqb_eq in Hc as ->.
      rewrite !sapp_cons. cbn [reader_rows].
      unfold parse_process_char at 1. cbn [state].
      rewrite Ascii.eqb_refl. cbn [rbind].
      rewrite line_ends_plain by done.
      cbn [reader_rows]. unfold parse_process_char at 1.
      cbn [state set_state]. rewrite Ascii.eqb_refl.
      rewrite parse_add_char_fits by (cbn [field set_state]; lia).
      cbn [rbind state field fields set_state].
      rewrite line_ends_plain by done.
      unfold set_state. cbn [state field fields].
      rewrite IH by (rewrite slength_snoc; lia). by rewrite sapp_snoc.
    + rewrite sapp_cons. cbn [reader_rows].
      unfold parse_process_char. cbn [state]. rewrite Hc.
      rewrite parse_add_char_fits by (cbn [field]; lia).
    cbn [rbind state field fields].
      destruct (line_ends c _).
      * unfold parse_process_eol. cbn [state].
        rewrite bool_decide_false by done.
        rewrite IH by (rewrite slength_snoc; lia). by rewrite sapp_snoc.
      * rewrite IH by (rewrite slength_snoc; lia). by rewrite sapp_snoc.
Qed.

Lemma reader_rows_quoted_long s : ∀ f fs b text,
  Z.of_nat (String.length f) ≤ field_limit →
  field_limit < Z.of_nat (String.length f) + Z.of_nat (String.length s) →
  reader_rows (mk_reader IN_QUOTED_FIELD f fs) b
    (double_quotes s +:+ String DQUOTE text)
  = Raise CsvError.
Proof.
  induction s as [|c s IH]; intros f fs b text Hf Hlen.
  - cbn [String.length] in Hlen. lia.
  - rewrite slength_cons in Hlen.
    cbn [double_quotes]. destruct (Ascii.eqb c DQUOTE) eqn:Hc.
    + apply Ascii.eqb_eq in Hc as ->.
      rewrite !sapp_cons. cbn [reader_rows].
      unfold parse_process_char at 1. cbn [state].
      rewrite Ascii.eqb_refl. cbn [rbind].
      rewrite line_ends_plain by done.
      cbn [reader_rows]. unfold parse_process_char at 1.
      cbn [state set_state]. rewrite Ascii.eqb_refl.
      destruct (decide (Z.of_nat (String.length f) < field_limit)) as [Hlt|Hge].
      * rewrite parse_add_char_fits by (cbn [field set_state]; lia).
      cbn [rbind state field fields set_state].
        rewrite line_ends_plain by done.
        unfold set_state. cbn [state field fields].
        apply IH; rewrite slength_snoc; lia.
      * by rewrite parse_add_char_full by (cbn [field set_state]; lia).
    + rewrite sapp_cons. cbn [reader_rows].
      unfold parse_process_char. cbn [state]. rewrite Hc.
      destruct (decide (Z.of_nat (String.length f) < field_limit)) as [Hlt|Hge].
      * rewrite parse_add_char_fits by (cbn [field]; lia).
    cbn [rbind state field fields].
        destruct (line_ends c _).
        -- unfold parse_process_eol. cbn [state].
           rewrite bool_decide_false by done.
           apply IH; rewrite slength_snoc; lia.
        -- apply IH; rewrite slength_snoc; lia.
      * by rewrite parse_add_char_full by (cbn [field set_state]; lia).
Qed.

Lemma reader_rows_field s fs b text :
  small s = true →
  reader_rows (mk_reader START_FIELD "" fs) b (join_append s +:+ text)
  = reader_rows (after_field s fs) (b || negb (bool_decide (s = ""))) text.
Proof.
  intros Hs%small_spec.
  unfold join_append, after_field. destruct (must_quote s) eqn:Hq.
  - rewrite sapp_cons, sapp_assoc, sapp_cons, sapp_nil_l.
    cbn [reader_rows]. unfold parse_process_char. cbn [state].
    change (is_newline DQUOTE) with false. rewrite Ascii.eqb_refl.
    cbn [rbind]. rewrite line_ends_plain by done.
    unfold set_state. cbn [field fields].
    rewrite reader_rows_quoted, sapp_nil_l by (cbn [String.length]; lia).
    destruct s; [done|]. by rewrite orb_true_r.
  - destruct s as [|c s].
    + by rewrite sapp_nil_l, orb_false_r.
    + rewrite bool_decide_false by done.
      cbn [must_quote] in Hq. apply orb_false_iff in Hq as [Hc Hq].
      destruct (is_special_false _ Hc) as (Hcomma & Hdq & Hnl).
      rewrite slength_cons in Hs.
      rewrite sapp_cons. cbn [reader_rows].
      unfold parse_process_char. cbn [state]. rewrite Hnl, Hdq, Hcomma.
      rewrite parse_add_char_fits by (cbn [field String.length]; lia).
      cbn [rbind state field fields]. rewrite line_ends_plain by done.
      unfold set_state. cbn [state field fields]. rewrite sapp_nil_l.
      rewrite reader_rows_plain by (done || (cbn [String.length]; lia)).
      rewrite sapp_cons, sapp_nil_l.
      by rewrite orb_true_l, orb_true_r.
Qed.

(** A field longer than the limit is refused, whatever follows it. *)
Lemma reader_rows_field_long s fs b text :
  small s = false →
  reader_rows (mk_reader START_FIELD "" fs) b (join_append s +:+ text)
  = Raise CsvError.
Proof.
  intros Hs%small_false. pose proof field_limit_pos as Hpos.
  unfold join_append. destruct (must_quote s) eqn:Hq.
  - rewrite sapp_cons, sapp_assoc, sapp_cons, sapp_nil_l.
    cbn [reader_rows]. unfold parse_process_char. cbn [state].
    change (is_newline DQUOTE) with false. rewrite Ascii.eqb_refl.
    cbn [rbind]. rewrite line_ends_plain by done.
    unfold set_state. cbn [field fields].
    apply reader_rows_quoted_long; cbn [String.length]; lia.
  - destruct s as [|c s]; [cbn [String.length] in Hs; lia|].
    cbn [must_quote] in Hq. apply orb_false_iff in Hq as [Hc Hq].
    destruct (is_special_false _ Hc) as (Hcomma & Hdq & Hnl).
    rewrite slength_cons in Hs.
    rewrite sapp_cons. cbn [reader_rows].
    unfold parse_process_char. cbn [state]. rewrite Hnl, Hdq, Hcomma.
    rewrite parse_add_char_fits by (cbn [field String.length]; lia).
    cbn [rbind state field fields]. rewrite line_ends_plain by done.
    unfold set_state. cbn [state field fields]. rewrite sapp_nil_l.
    apply reader_rows_plain_long; [done|cbn [String.length]; lia..].
Qed.

Lemma after_field_closed s fs :
  field_closed (after_field s fs)
  ∧ field (after_field s fs) = s ∧ fields (after_field s fs) = fs.
Proof.
  unfold after_field, field_closed.
  destruct (must_quote s); [naive_solver|].
  case_bool_decide; naive_solver.
Qed.

Lemma closed_comma st b text :
  field_closed st →
  reader_rows st b (String COMMA text)
  = reader_rows (mk_reader START_FIELD "" (fields st ++ [field st])) true text.
Proof.
  destruct st as [s f fs]. unfold field_closed. cbn [state field fields].
  intros [-> | [-> | ->]]; reflexivity.
Qed.

Lemma closed_crlf st b text :
  field_closed st →
  reader_rows st b (CRLF +:+ text)
  = rbind (reader_rows parse_reset false text)
      (λ rows, Ok ((fields st ++ [field st]) :: rows)).
Proof.
  destruct st as [s f fs]. unfold field_closed. cbn [state field fields].
  intros [-> | [-> | ->]]; reflexivity.
Qed.

Lemma closed_eof st :
  field_closed st → reader_rows st true "" = Ok [fields st ++ [field st]].
Proof.
  destruct st as [s f fs]. unfold field_closed. cbn [state field fields].
  intros [-> | [-> | ->]]; reflexivity.
Qed.

Lemma join_record_cons c c' cells :
  join_record (c :: c' :: cells)
  = join_append c +:+ String COMMA (join_record (c' :: cells)).
Proof. reflexivity. Qed.

Lemma reader_rows_record cells : ∀ fs b text,
  cells ≠ [] → Forall (λ c, small c = true) cells →
  reader_rows (mk_reader START_FIELD "" fs) b
    (join_record cells +:+ CRLF +:+ text)
  = rbind (reader_rows parse_reset false text)
      (λ rows, Ok ((fs ++ cells) :: rows)).
Proof.
  induction cells as [|c cells IH]; intros fs b text Hne Hsm; [done|].
  apply Forall_cons in Hsm as [Hc Hsm].
  destruct (after_field_closed c fs) as (Hcl & Hf & Hfs).
  destruct cells as [|c' cells].
  - cbn [join_record]. rewrite reader_rows_field, closed_crlf by done.
    by rewrite Hf, Hfs.
  - rewrite join_record_cons.
    rewrite sapp_assoc, sapp_cons, reader_rows_field, closed_comma by done.
    rewrite Hf, Hfs, IH by done. by rewrite <- app_assoc.
Qed.

(** A record with a field longer than the limit is refused, whatever
    follows it. *)
Lemma reader_rows_record_long cells : ∀ fs b text,
  Exists (λ c, small c = false) cells →
  reader_rows (mk_reader START_FIELD "" fs) b (join_record cells +:+ text)
  = Raise CsvError.
Proof.
  induction cells as [|c cells IH]; intros fs b text Hex;
    [by apply Exists_nil in Hex|].
  destruct (small c) eqn:Hc.
  - apply Exists_cons in Hex as [Hex|Hex]; [congruence|].
    destruct (after_field_closed c fs) as (Hcl & Hf & Hfs).
    destruct cells as [|c' cells]; [by apply Exists_nil in Hex|].
    rewrite join_record_cons.
    rewrite sapp_assoc, sapp_cons, reader_rows_field, closed_comma by done.
    by apply IH.
  - destruct cells as [|c' cells].
    + cbn [join_record]. by apply reader_rows_field_long.
    + rewrite join_record_cons, sapp_assoc.
      by apply reader_rows_field_long.
Qed.

Lemma reader_rows_record_eof cells : ∀ fs b,
  cells ≠ [] → Forall (λ c, small c = true) cells →
  b = true ∨ join_record cells ≠ "" →
  reader_rows (mk_reader START_FIELD "" fs) b (join_record cells)
  = Ok [fs ++ cells].
Proof.
  induction cells as [|c cells IH]; intros fs b Hne Hsm Hb; [done|].
  apply Forall_cons in Hsm as [Hc Hsm].
  destruct (after_field_closed c fs) as (Hcl & Hf & Hfs).
  destruct cells as [|c' cells].
  - cbn [join_record] in *.
    rewrite <- (sapp_nil_r (join_append c)), reader_rows_field by done.
    assert (b || negb (bool_decide (c = "")) = true) as ->.
    { destruct Hb as [-> | Hb]; [done|].
      rewrite bool_decide_false; [by rewrite orb_true_r|].
      by intros ->. }
    rewrite closed_eof by done. by rewrite Hf, Hfs.
  - rewrite join_record_cons.
    rewrite reader_rows_field, closed_comma by done.
    rewrite Hf, Hfs, IH by auto. by rewrite <- app_assoc.
Qed.

Lemma join_append_head s c t :
  join_append s = String c t → is_newline c = false.
Proof.
  unfold join_append. destruct (must_quote s) eqn:Hq.
  - by intros [= <- _].
  - intros ->. cbn [must_quote] in Hq. apply orb_false_iff in Hq as [Hc _].
    by destruct (is_special_false _ Hc) as (_ & _ & ?).
Qed.

Lemma join_record_head cells c t :
  join_record cells = String c t → is_newline c = false.
Proof.
  destruct cells as [|x [|y cells]]; [done|apply join_append_head|].
  rewrite join_record_cons.
  destruct (join_append x) as [|c' t'] eqn:Hx.
  - rewrite sapp_nil_l. by intros [= <- _].
  - rewrite sapp_cons. intros [= <- _]. by eapply join_append_head.
Qed.

Lemma join_record_empty cells :
  cells ≠ [] → join_record cells = "" → cells = [""].
Proof.
  destruct cells as [|x [|y cells]]; [done| |].
  - intros _. cbn [join_record]. unfold join_append.
    destruct (must_quote x); [done|]. by intros ->.
  - intros _. rewrite join_record_cons. by destruct (join_append x).
Qed.

Lemma start_record_as_field fs b c text :
  is_newline c = false →
  reader_rows (mk_reader START_RECORD "" fs) b (String c text)
  = reader_rows (mk_reader START_FIELD "" fs) b (String c text).
Proof.
  intros Hnl. cbn [reader_rows]. unfold parse_process_char. cbn [state].
  by rewrite Hnl.
Qed.

(** The reader gives back the cells of a line of the writer. *)
Lemma reader_rows_writerow cells b text :
  cells ≠ [] → Forall (λ c, small c = true) cells →
  reader_rows parse_reset b (writerow cells +:+ text)
  = rbind (reader_rows parse_reset false text) (λ rows, Ok (cells :: rows)).
Proof.
  intros Hne Hsm. unfold writerow.
  destruct (join_record cells) as [|c t] eqn:Hj.
  - rewrite (join_record_empty cells) by done.
    rewrite bool_decide_true by done. reflexivity.
  - rewrite bool_decide_true by done. rewrite bool_decide_false by done.
    cbn [andb]. pose proof (join_record_head _ _ _ Hj) as Hnl.
    rewrite sapp_assoc, sapp_cons. unfold parse_reset.
    rewrite start_record_as_field by done.
    rewrite <- sapp_cons, <- Hj. by rewrite reader_rows_record.
Qed.

(** It refuses a line with a cell longer than the limit. *)
Lemma reader_rows_writerow_long cells b text :
  Exists (λ c, small c = false) cells →
  reader_rows parse_reset b (writerow cells +:+ text) = Raise CsvError.
Proof.
  intros Hex. unfold writerow.
  destruct (join_record cells) as [|c t] eqn:Hj.
  - destruct cells as [|x cells]; [by apply Exists_nil in Hex|].
    rewrite (join_record_empty (x :: cells)) in Hex by done.
    apply Exists_cons in Hex as [Hex|Hex];
      [by vm_compute in Hex|by apply Exists_nil in Hex].
  - rewrite (bool_decide_false (String c t = "")) by done.
    rewrite andb_false_r.
    pose proof (join_record_head _ _ _ Hj) as Hnl.
    rewrite sapp_assoc, sapp_cons. unfold parse_reset.
    rewrite start_record_as_field by done.
    rewrite <- sapp_cons, <- Hj. by apply reader_rows_record_long.
Qed.

(** The same for a last line that lacks its terminator. *)
Lemma reader_rows_record_text cells :
  cells ≠ [] → Forall (λ c, small c = true) cells →
  reader_rows parse_reset false (record_text cells) = Ok [cells].
Proof.
  intros Hne Hsm. unfold record_text.
  destruct (join_record cells) as [|c t] eqn:Hj.
  - rewrite (join_record_empty cells) by done.
    rewrite bool_decide_true by done. reflexivity.
  - rewrite bool_decide_true by done. rewrite bool_decide_false by done.
    cbn [andb]. pose proof (join_record_head _ _ _ Hj) as Hnl.
    unfold parse_reset. rewrite start_record_as_field by done.
    rewrite <- Hj. rewrite reader_rows_record_eof; [done|done|done|].
    right. by rewrite Hj.
Qed.

Lemma reader_rows_lines records : ∀ text,
  Forall (λ cells, cells ≠ []) records →
  Forall (Forall (λ c, small c = true)) records →
  reader_rows parse_reset false (lines_text records +:+ text)
  = rbind (reader_rows parse_reset false text)
      (λ rows, Ok (records ++ rows)).
Proof.
  induction records as [|cells records IH]; intros text Hne Hsm.
  - rewrite sapp_nil_l. by destruct (reader_rows _ _ _).
  - apply Forall_cons in Hne as [Hc Hne]. apply Forall_cons in Hsm as [Hs Hsm].
    cbn [lines_text]. rewrite sapp_assoc, reader_rows_writerow by done.
    rewrite IH by done. by destruct (reader_rows _ _ _).
Qed.

(** Lines of which one has a cell longer than the limit are refused. *)
Lemma reader_rows_lines_long records : ∀ text,
  Forall (λ cells, cells ≠ []) records →
  Exists (Exists (λ c, small c = false)) records →
  reader_rows parse_reset false (lines_text records +:+ text)
  = Raise CsvError.
Proof.
  induction records as [|cells records IH]; intros text Hne Hex;
    [by apply Exists_nil in Hex|].
  apply Forall_cons in Hne as [Hc Hne]. cbn [lines_text]. rewrite sapp_assoc.
  destruct (decide (Forall (λ c, small c = true) cells)) as [Hsm|Hbig].
  - apply Exists_cons in Hex as [Hex|Hex].
    { exfalso. apply Exists_exists in Hex as (c & Hin & Hcs).
      rewrite Forall_forall in Hsm. specialize (Hsm c Hin). congruence. }
    rewrite reader_rows_writerow by done. by rewrite IH.
  - apply reader_rows_writerow_long. apply not_Forall_Exists in Hbig; [|apply _].
    eapply Exists_impl; [exact Hbig|]. intros c Hcs.
    by apply not_true_is_false.
Qed.

(** ** The reader fails only with the error of the csv module *)

Lemma parse_process_char_error st c e :
  parse_process_char st c = Raise e → e = CsvError.
Proof.
  unfold parse_process_char, parse_add_char.
  destruct (state st), (is_newline c), (Ascii.eqb c DQUOTE),
    (Ascii.eqb c COMMA),
    (field_limit <=? Z.of_nat (String.length (field st)));
    cbn [rbind]; congruence.
Qed.

Lemma reader_rows_error text : ∀ st b e,
  reader_rows st b text = Raise e → e = CsvError.
Proof.
  induction text as [|c text IH]; intros st b e.
  - cbn [reader_rows]. destruct b; [case_bool_decide|]; done.
  - cbn [reader_rows].
    destruct (parse_process_char st c) as [st1|e1] eqn:Hc; cbn [rbind].
    + destruct (line_ends c text); [|apply IH].
      case_bool_decide; [|apply IH].
      destruct (reader_rows parse_reset false text) as [rows|e2] eqn:Hr;
        cbn [rbind]; [done|].
      intros [= <-]. by eapply IH.
    + intros [= <-]. by eapply parse_process_char_error.
Qed.

Lemma csv_reader_error text e : csv_reader text = Raise e → e = CsvError.
Proof. apply reader_rows_error. Qed.

(** ** Keys of the rows of [DictReader] *)

Lemma dict_of_Forall (P : value → Prop) (kvs : list (string * value)) :
  ∀ d : gmap string value,
  map_Forall (λ _, P) d → Forall (λ kv, P kv.2) kvs →
  map_Forall (λ _, P) (foldl (λ d kv, <[kv.1 := kv.2]> d) d kvs).
Proof.
  induction kvs as [|[k v] kvs IH]; intros d Hd Hkvs; [done|].
  apply Forall_cons in Hkvs as [Hv Hkvs]. cbn [foldl].
  apply IH; [|done]. by apply map_Forall_insert_2.
Qed.

Lemma DictReader_row_values names row :
  map_Forall (λ _, text_or_none) (DictReader_row names row).
Proof.
  unfold DictReader_row.
  assert (∀ (l : list string) (d : gmap string value),
    map_Forall (λ _, text_or_none) d →
    map_Forall (λ _, text_or_none)
      (foldl (λ d key, <[key := VNone]> d) d l)) as Hrest.
  { induction l as [|k l IH]; intros d Hd; [done|].
    cbn [foldl]. apply IH. apply map_Forall_insert_2; [by left|done]. }
  apply Hrest. apply dict_of_Forall; [apply map_Forall_empty|].
  generalize names. induction row as [|c row IH]; intros [|n ns]; cbn;
    try by constructor.
  constructor; [right; by eexists|apply IH].
Qed.

Lemma text_or_none_hash v : text_or_none v → ∃ a, py_hash v = Ok a.
Proof. intros [-> | [s ->]]; cbn; eauto. Qed.

Lemma DictReader_row_key names row :
  ∃ key, dedup_key (DictReader_row names row) = Ok key.
Proof.
  assert (∀ k, text_or_none (dict_get (DictReader_row names row) k)) as Hv.
  { intros k. unfold dict_get.
    destruct (DictReader_row names row !! k) as [v|] eqn:Hk; [|by left].
    by eapply (DictReader_row_values names row). }
  unfold dedup_key.
  destruct (text_or_none_hash _ (Hv "pairAddress")) as [a ->].
  destruct (text_or_none_hash _ (Hv "snapshot_ts")) as [t ->].
  cbn. eauto.
Qed.

Lemma add_keys_total rows : ∀ keys,
  Forall (λ r, ∃ key, dedup_key r = Ok key) rows →
  ∃ keys', add_keys keys rows = Ok keys'.
Proof.
  induction rows as [|r rows IH]; intros keys Hrows; [by eexists|].
  apply Forall_cons in Hrows as [[key Hkey] Hrows].
  cbn [add_keys]. rewrite Hkey. cbn [rbind]. by apply IH.
Qed.

Lemma add_keys_ok rows : ∀ keys ks,
  Forall2 (λ r key, dedup_key r = Ok key) rows ks →
  add_keys keys rows = Ok (list_to_set ks ∪ keys).
Proof.
  induction rows as [|r rows IH]; intros keys ks Hrows.
  - apply Forall2_nil_inv_l in Hrows as ->. cbn. f_equal. set_solver.
  - apply Forall2_cons_inv_l in Hrows as (key & ks' & Hkey & Hrows & ->).
    cbn [add_keys]. rewrite Hkey. cbn [rbind].
    rewrite (IH _ ks') by done. f_equal. set_solver.
Qed.

Lemma DictReader_keys text rows :
  DictReader text = Ok rows →
  Forall (λ r, ∃ key, dedup_key r = Ok key) rows.
Proof.
  unfold DictReader. destruct (csv_reader text) as [records|e]; [|done].
  cbn [rbind]. destruct records as [|names records]; intros [= <-].
  - constructor.
  - apply Forall_fmap, Forall_forall.
    intros row _. apply DictReader_row_key.
Qed.

Lemma DictReader_error text e : DictReader text = Raise e → e = CsvError.
Proof.
  unfold DictReader. destruct (csv_reader text) as [records|e'] eqn:Hr.
  - cbn [rbind]. by destruct records.
  - cbn [rbind]. intros [= <-]. by eapply csv_reader_error.
Qed.

(** Reading the keys of a file fails only with the error of the csv
    module. *)
Lemma existing_keys_error w p e :
  existing_keys w p = Raise e → e = CsvError.
Proof.
  unfold existing_keys. destruct (files w !! p) as [text|]; [|done].
  destruct (DictReader text) as [rows|e'] eqn:Hr; cbn [rbind].
  - destruct (add_keys_total rows ∅ (DictReader_keys _ _ Hr)) as [keys ->].
    done.
  - intros [= <-]. by eapply DictReader_error.
Qed.

Lemma forallb_Forall {A} (f : A → bool) (l : list A) :
  forallb f l = true ↔ Forall (λ x, f x = true) l.
Proof.
  induction l as [|x l IH]; cbn [forallb]; [by split; [constructor|]|].
  rewrite andb_true_iff, IH, Forall_cons. done.
Qed.

Lemma forallb_Exists {A} (f : A → bool) (l : list A) :
  forallb f l = false ↔ Exists (λ x, f x = false) l.
Proof.
  induction l as [|x l IH]; cbn [forallb].
  - split; [done|]. by intros ?%Exists_nil.
  - rewrite andb_false_iff, IH, Exists_cons. done.
Qed.

Lemma all_small_Forall (records : list (list string)) :
  all_small records = true
  ↔ Forall (Forall (λ c, small c = true)) records.
Proof.
  unfold all_small. rewrite forallb_Forall. apply Forall_proper; [|done].
  intros cells. apply forallb_Forall.
Qed.

Lemma all_small_Exists (records : list (list string)) :
  all_small records = false
  ↔ Exists (Exists (λ c, small c = false)) records.
Proof.
  unfold all_small. rewrite forallb_Exists. apply Exists_proper; [|done].
  intros cells. apply forallb_Exists.
Qed.

Lemma small_fieldnames : Forall (λ c, small c = true) fieldnames.
Proof. apply forallb_Forall. vm_compute. reflexivity. Qed.

(** A record as wide as the header gets its key from its first two
    cells. *)
Lemma DictReader_row_disk_key cells :
  length cells = length fieldnames →
  dedup_key (DictReader_row fieldnames cells) = Ok (disk_key cells).
Proof.
  intros Hlen.
  do 30 (destruct cells as [|? cells]; [done|]).
  destruct cells; [|done]. vm_compute. reflexivity.
Qed.

Lemma filter_nonempty_id (records : list (list string)) :
  Forall (λ cells, length cells = length fieldnames) records →
  filter (λ row, row ≠ []) records = records.
Proof.
  induction 1 as [|cells records Hc _ IH]; [done|].
  rewrite filter_cons_True; [by rewrite IH|]. by destruct cells.
Qed.

Lemma Forall_nonempty (records : list (list string)) :
  Forall (λ cells, length cells = length fieldnames) records →
  Forall (λ cells, cells ≠ []) records.
Proof. intros H. eapply Forall_impl; [exact H|]. by intros []. Qed.

Lemma DictReader_rows_keys (records : list (list string)) :
  Forall (λ cells, length cells = length fieldnames) records →
  add_keys ∅ (DictReader_row fieldnames <$> records)
  = Ok (list_to_set (disk_key <$> records)).
Proof.
  intros Hw. rewrite (add_keys_ok _ _ (disk_key <$> records)).
  - f_equal. set_solver.
  - apply Forall2_fmap, Forall_Forall2_diag.
    eapply Forall_impl; [exact Hw|]. apply DictReader_row_disk_key.
Qed.

(** The records of a table read back as they are, unless one of them
    has a cell longer than the reader accepts. *)
Lemma csv_reader_table records :
  Forall (λ cells, length cells = length fieldnames) records →
  csv_reader (table_text records)
  = if all_small records then Ok (fieldnames :: records) else Raise CsvError.
Proof.
  intros Hw. unfold csv_reader, table_text.
  rewrite reader_rows_writerow by (done || apply small_fieldnames).
  rewrite <- (sapp_nil_r (lines_text records)).
  destruct (all_small records) eqn:Hsm.
  - rewrite reader_rows_lines
      by (by apply Forall_nonempty || by apply all_small_Forall).
    cbn [reader_rows rbind].
    change (end_of_input parse_reset) with (@nil (list string)).
    by rewrite app_nil_r.
  - rewrite reader_rows_lines_long;
      [done|by apply Forall_nonempty|by apply all_small_Exists].
Qed.

Lemma table_text_keys records :
  Forall (λ cells, length cells = length fieldnames) records →
  rbind (DictReader (table_text records)) (add_keys ∅)
  = if all_small records then Ok (list_to_set (disk_key <$> records))
    else Raise CsvError.
Proof.
  intros Hw. unfold DictReader. rewrite csv_reader_table by done.
  destruct (all_small records); [|done]. cbn [rbind].
  rewrite filter_nonempty_id by done. by apply DictReader_rows_keys.
Qed.

(** The same table without the terminator of its last line. *)
Lemma table_text_keys_no_newline records last :
  Forall (λ cells, length cells = length fieldnames) (records ++ [last]) →
  all_small (records ++ [last]) = true →
  rbind (DictReader (table_text records +:+ record_text last)) (add_keys ∅)
  = Ok (list_to_set (disk_key <$> records ++ [last])).
Proof.
  intros Hw Hsm. unfold DictReader, csv_reader, table_text.
  pose proof Hw as Hw'. apply Forall_app in Hw' as [Hrec Hlast].
  apply Forall_inv in Hlast. cbn beta in Hlast.
  apply all_small_Forall, Forall_app in Hsm as [Hsrec Hslast].
  apply Forall_inv in Hslast.
  rewrite sapp_assoc, reader_rows_writerow by (done || apply small_fieldnames).
  rewrite reader_rows_lines by (done || by apply Forall_nonempty).
  rewrite reader_rows_record_text by (done || (intros ->; discriminate Hlast)).
  cbn [rbind]. rewrite filter_nonempty_id by done.
  by apply DictReader_rows_keys.
Qed.

Lemma header_only_keys_no_newline :
  rbind (DictReader (record_text fieldnames)) (add_keys ∅) = Ok ∅.
Proof. vm_compute. reflexivity. Qed.

(** ** What [write_rows] does to the store *)

Lemma same_store_called c w : same_store w (called c w).
Proof. done. Qed.

Lemma same_store_trans w1 w2 w3 :
  same_store w1 w2 → same_store w2 w3 → same_store w1 w3.
Proof. unfold same_store. intros (-> & -> & ->) (-> & -> & ->). done. Qed.

Lemma same_store_is_file w w' p : same_store w w' → is_file w' p = is_file w p.
Proof. intros (_ & Hf & _). unfold is_file. by rewrite Hf. Qed.

Lemma same_store_is_dir w w' p : same_store w w' → is_dir w' p = is_dir w p.
Proof. intros (Hd & _ & _). unfold is_dir. by rewrite Hd. Qed.

Lemma same_store_existing_keys w w' p :
  same_store w w' → existing_keys w' p = existing_keys w p.
Proof. intros (_ & Hf & _). unfold existing_keys. by rewrite Hf. Qed.

Lemma same_store_open_append_error w w' p :
  same_store w w' → open_append_error w' p = open_append_error w p.
Proof.
  intros (Hd & Hf & _).
  unfold open_append_error, parent_exists, under_file, is_dir, is_file.
  by rewrite Hd, Hf.
Qed.

Lemma read_existing_keys_eval p w :
  ∃ w', read_existing_keys p w = (w', existing_keys w p) ∧ same_store w w'.
Proof.
  unfold read_existing_keys, existing_keys, mbind, M_bind, os_path_isfile,
    open_read, lift, is_file.
  destruct (files w !! p) as [text|] eqn:Hp.
  - rewrite bool_decide_true by eauto. cbn [negb files called]. rewrite Hp.
    destruct (DictReader text) as [rows|e]; cbn [rbind];
      (eexists; split; [reflexivity|done]).
  - rewrite bool_decide_false by (by intros [? ?]). cbn [negb].
    eexists; split; [reflexivity|done].
Qed.

Lemma read_existing_keys_absent p w :
  files w !! p = None →
  read_existing_keys p w = (called (SysIsfile p) w, Ok ∅).
Proof.
  intros Hp.
  unfold read_existing_keys, mbind, M_bind, os_path_isfile, is_file.
  rewrite Hp. by rewrite bool_decide_false by (by intros [? ?]).
Qed.

Section Store.

Variable cs : value → string.

Lemma writerows_eval p rows : ∀ w t,
  files w !! p = Some t →
  ∃ w', writerows cs p rows w = (w', (converted cs rows).2)
    ∧ dirs w' = dirs w ∧ printed w' = printed w
    ∧ files w' = <[p := t +:+ lines_text (converted cs rows).1]> (files w).
Proof.
  induction rows as [|r rows IH]; intros w t Hp.
  - exists w. cbn. rewrite sapp_nil_r. by rewrite insert_id.
  - cbn [writerows converted]. unfold mbind, M_bind, lift.
    destruct (_dict_to_list cs r) as [cells|e].
    + unfold file_write at 1.
      match goal with |- context [writerows cs p rows ?w1] =>
        destruct (IH w1 (t +:+ writerow cells)) as (w' & -> & Hd & Hpr & Hf)
      end.
      { cbn [files]. by rewrite Hp, lookup_insert_eq. }
      exists w'. cbn [fst snd dirs printed files] in *.
      rewrite Hf, insert_insert_eq. cbn [lines_text]. by rewrite sapp_assoc.
    + exists w. cbn. rewrite sapp_nil_r. by rewrite insert_id.
Qed.

Lemma open_append_eval p w :
  match open_append_error w p with
  | Some e => ∃ w', open_append p w = (w', Raise e) ∧ same_store w w'
  | None =>
      ∃ w', open_append p w = (w', Ok ())
        ∧ dirs w' = dirs w ∧ printed w' = printed w
        ∧ files w' = match files w !! p with
                     | Some _ => files w
                     | None => <[p := ""]> (files w)
                     end
  end.
Proof.
  unfold open_append_error, open_append.
  destruct (is_dir w p); [eexists; split; [reflexivity|done]|].
  destruct (is_file w p) eqn:Hf.
  { eexists; split; [reflexivity|]. unfold is_file in Hf.
    apply bool_decide_eq_true in Hf as [t ->]. done. }
  destruct (is_file w (dirname p)); [eexists; split; [reflexivity|done]|].
  destruct (parent_exists w p);
    [|destruct (under_file w p); eexists; (split; [reflexivity|done])].
  eexists; split; [reflexivity|]. unfold is_file in Hf.
  apply bool_decide_eq_false in Hf.
  destruct (files w !! p) eqn:Hp; [by destruct Hf; eauto|done].
Qed.

Lemma write_rows_eval p rows w :
  ∃ w', write_rows cs p rows w = (w', (write_rows_effect cs w p rows).2)
    ∧ dirs w' = dirs w ∧ printed w' = printed w
    ∧ files w' = match (write_rows_effect cs w p rows).1 with
                 | Some text => <[p := text]> (files w)
                 | None => files w
                 end.
Proof.
  destruct rows as [|r0 rows]; [by exists w|].
  unfold write_rows, write_rows_effect.
  set (rs := r0 :: rows).
  unfold mbind at 1. unfold M_bind at 1. unfold os_path_isfile at 1.
  unfold mbind at 1. unfold M_bind at 1.
  destruct (read_existing_keys_eval p (called (SysIsfile p) w))
    as (w1 & -> & Hs1).
  pose proof (same_store_trans _ _ _ (same_store_called (SysIsfile p) w) Hs1)
    as Hs.
  rewrite (same_store_existing_keys w (called (SysIsfile p) w)) by done.
  destruct (existing_keys w p) as [keys|e]; cbn [rbind];
    [|exists w1; by destruct Hs as (? & ? & ?)].
  unfold mbind at 1. unfold M_bind at 1. unfold lift at 1.
  destruct (dedup_loop keys rs) as [[|d0 deduped]|e];
    [exists w1; by destruct Hs as (? & ? & ?)| |
     exists w1; by destruct Hs as (? & ? & ?)].
  set (ds := d0 :: deduped).
  unfold mbind at 1. unfold M_bind at 1.
  pose proof (open_append_eval p w1) as Hopen.
  pose proof (same_store_open_append_error w w1 p Hs) as Herr.
  rewrite Herr in Hopen.
  destruct (open_append_error w p) as [e|].
  { destruct Hopen as (w2 & -> & Hs2). exists w2.
    destruct (same_store_trans _ _ _ Hs Hs2) as (? & ? & ?). done. }
  destruct Hopen as (w2 & -> & Hd2 & Hp2 & Hf2).
  destruct Hs as (Hd1 & Hf1 & Hp1). rewrite Hf1 in Hf2.
  unfold mbind at 1. unfold M_bind at 1.
  unfold start_text. unfold is_file.
  destruct (files w !! p) as [t|] eqn:Hp.
  - rewrite bool_decide_true by eauto. cbn [negb]. unfold mret, M_ret.
    unfold mbind at 1. unfold M_bind at 1.
    destruct (writerows_eval p ds w2 t) as (w3 & -> & Hd3 & Hp3 & Hf3).
    { by rewrite Hf2. }
    destruct (converted cs ds) as [recs [[]|e]]; cbn [fst snd rbind] in *.
    + exists w3. rewrite Hf3, Hf2, Hd3, Hd2, Hd1, Hp3, Hp2, Hp1. done.
    + exists w3. rewrite Hf3, Hf2, Hd3, Hd2, Hd1, Hp3, Hp2, Hp1. done.
  - rewrite bool_decide_false by (by intros [? ?]). cbn [negb].
    unfold writeheader, file_write at 1.
    unfold mbind at 1. unfold M_bind at 1.
    match goal with |- context [writerows cs p ds ?w3] =>
      destruct (writerows_eval p ds w3 (writerow fieldnames))
        as (w4 & -> & Hd4 & Hp4 & Hf4)
    end.
    { cbn [files]. rewrite Hf2, lookup_insert_eq. cbn [default].
      by rewrite lookup_insert_eq. }
    cbn [dirs files printed] in Hd4, Hp4, Hf4.
    rewrite Hf2 in Hf4. rewrite !insert_insert_eq in Hf4.
    destruct (converted cs ds) as [recs [[]|e]]; cbn [fst snd rbind] in *.
    + exists w4. rewrite Hf4, Hd4, Hd2, Hd1, Hp4, Hp2, Hp1. done.
    + exists w4. rewrite Hf4, Hd4, Hd2, Hd1, Hp4, Hp2, Hp1. done.
Qed.

End Store.

(** ** The dedup loop *)

Lemma dedup_loop_new_rows rows : ∀ keys on_disk seen existing,
  Forall2 (λ r k, dedup_key r = Ok k) rows keys →
  existing = on_disk ∪ list_to_set seen →
  dedup_loop existing rows = Ok (new_rows on_disk seen rows keys).
Proof.
  induction rows as [|r rows IH]; intros keys on_disk seen existing Hk ->.
  - by apply Forall2_nil_inv_l in Hk as ->.
  - apply Forall2_cons_inv_l in Hk as (k & keys' & Hkey & Hk & ->).
    cbn [dedup_loop new_rows]. rewrite Hkey. cbn [rbind].
    destruct (decide (k ∈ on_disk ∪ list_to_set seen)) as [Hin|Hout].
    + rewrite decide_False by set_solver.
      apply IH; [done|]. rewrite list_to_set_app_L. set_solver.
    + rewrite decide_True by set_solver.
      rewrite (IH keys' on_disk (seen ++ [k])); [done|done|].
      rewrite list_to_set_app_L. set_solver.
Qed.

Lemma dedup_loop_total rows : ∀ existing,
  Forall (λ r, ∃ k, dedup_key r = Ok k) rows →
  ∃ deduped, dedup_loop existing rows = Ok deduped.
Proof.
  induction rows as [|r rows IH]; intros existing Hrows; [by eexists|].
  apply Forall_cons in Hrows as [[k Hk] Hrows].
  cbn [dedup_loop]. rewrite Hk. cbn [rbind]. case_decide; [by apply IH|].
  destruct (IH ({[k]} ∪ existing) Hrows) as [deduped ->]. by eexists.
Qed.

(** The rows kept are rows of the batch in their order, their keys are
    new and pairwise different, and every row of the batch has its key on
    disk or among the rows kept. *)
Lemma dedup_loop_kept rows : ∀ existing deduped,
  dedup_loop existing rows = Ok deduped →
  ∃ dkeys,
    Forall2 (λ r k, dedup_key r = Ok k) deduped dkeys
    ∧ NoDup dkeys
    ∧ (∀ k, k ∈ dkeys → k ∉ existing)
    ∧ sublist deduped rows
    ∧ Forall (λ r, ∃ k, dedup_key r = Ok k ∧ (k ∈ existing ∨ k ∈ dkeys)) rows.
Proof.
  induction rows as [|r rows IH]; intros existing deduped Hd.
  - injection Hd as <-. exists []. repeat split; try constructor.
    intros k Hk. by apply elem_of_nil in Hk.
  - cbn [dedup_loop] in Hd.
    destruct (dedup_key r) as [k|e] eqn:Hk; [|done]. cbn [rbind] in Hd.
    destruct (decide (k ∈ existing)) as [Hin|Hout].
    + destruct (IH _ _ Hd) as (dkeys & Hkeys & Hnd & Hnew & Hsub & Hall).
      exists dkeys. repeat split; try done.
      * by apply sublist_cons.
      * constructor; [eauto|done].
    + destruct (dedup_loop ({[k]} ∪ existing) rows) as [deduped'|e] eqn:Hd';
        [|done].
      injection Hd as <-.
      destruct (IH _ _ Hd') as (dkeys & Hkeys & Hnd & Hnew & Hsub & Hall).
      exists (k :: dkeys). repeat split.
      * by constructor.
      * constructor; [|done]. intros Hin. apply Hnew in Hin. set_solver.
      * intros k' Hin. apply elem_of_cons in Hin as [->|Hin]; [done|].
        apply Hnew in Hin. set_solver.
      * by apply sublist_skip.
      * constructor; [exists k; split; [done|right; by left]|].
        eapply Forall_impl; [exact Hall|]. intros r' (k' & Hk' & Hor).
        exists k'. split; [done|]. set_solver.
Qed.

Lemma dedup_loop_all_present rows : ∀ existing,
  Forall (λ r, ∃ k, dedup_key r = Ok k ∧ k ∈ existing) rows →
  dedup_loop existing rows = Ok [].
Proof.
  induction rows as [|r rows IH]; intros existing Hrows; [done|].
  apply Forall_cons in Hrows as [(k & Hk & Hin) Hrows].
  cbn [dedup_loop]. rewrite Hk. cbn [rbind].
  rewrite decide_True by done. by apply IH.
Qed.

(** ** Rows with string keys *)

Section Rows.

Variable cs : value → string.

Lemma field_text_printable v :
  field_text cs v
  = if printable v then Ok (cell_text cs v) else Raise ValueError.
Proof.
  unfold cell_text. destruct v as [| [] | | | |]; try done;
    cbn [field_text]; by destruct (printable _).
Qed.

(** The conversion of the fields, one after the other. *)
Lemma for_each_field_text (r : gmap string value) (keys : list string) :
  for_each (λ key, field_text cs (default (VStr "") (r !! key))) keys
  = if forallb (λ key, printable (default (VStr "") (r !! key))) keys
    then Ok ((λ key, cell_text cs (default (VStr "") (r !! key))) <$> keys)
    else Raise ValueError.
Proof.
  induction keys as [|key keys IH]; [done|].
  cbn [for_each forallb fmap list_fmap]. rewrite field_text_printable.
  destruct (printable _); [|done]. cbn [rbind andb]. rewrite IH.
  by destruct (forallb _ keys).
Qed.

Lemma _dict_to_list_spec r :
  _dict_to_list cs r
  = if decide (no_extra_fields r)
    then if row_printable r then Ok (cells_of cs r) else Raise ValueError
    else Raise ValueError.
Proof.
  unfold _dict_to_list, no_extra_fields, row_printable, cells_of.
  case_decide; [|done]. apply for_each_field_text.
Qed.

Lemma _dict_to_list_ok r :
  writable r → _dict_to_list cs r = Ok (cells_of cs r).
Proof.
  intros [Hr Hp]. rewrite _dict_to_list_spec, decide_True by done.
  by rewrite Hp.
Qed.

Lemma _dict_to_list_inv r cells :
  _dict_to_list cs r = Ok cells → cells = cells_of cs r ∧ writable r.
Proof.
  rewrite _dict_to_list_spec. case_decide; [|done].
  destruct (row_printable r) eqn:Hp; [|done]. by intros [= <-].
Qed.

Lemma _dict_to_list_error r e :
  _dict_to_list cs r = Raise e → e = ValueError.
Proof.
  rewrite _dict_to_list_spec. case_decide; [|congruence].
  destruct (row_printable r); congruence.
Qed.

Lemma cells_of_length r : length (cells_of cs r) = length fieldnames.
Proof. unfold cells_of. by rewrite length_fmap. Qed.

Lemma converted_ok rows :
  Forall writable rows →
  converted cs rows = (cells_of cs <$> rows, Ok ()).
Proof.
  induction 1 as [|r rows Hr _ IH]; [done|].
  cbn [converted]. rewrite _dict_to_list_ok by done. by rewrite IH.
Qed.

Lemma storable_writable r : storable cs r → writable r.
Proof. by intros [? _]. Qed.

Lemma storable_small rows :
  Forall (storable cs) rows → all_small (cells_of cs <$> rows) = true.
Proof.
  intros Hrows. apply all_small_Forall, Forall_fmap.
  eapply Forall_impl; [exact Hrows|]. intros r [_ Hsm].
  by apply forallb_Forall.
Qed.

(** For a row whose key fields are strings the key read back from its
    line is the key of the row. *)
Lemma string_keyed_key r :
  string_keyed r →
  ∃ k, dedup_key r = Ok k ∧ disk_key (cells_of cs r) = k.
Proof.
  intros (a & t & Ha & Ht). exists (AStr a, AStr t).
  unfold dedup_key, dict_get, disk_key, cells_of.
  cbn [fieldnames fmap list_fmap nth]. by rewrite Ha, Ht.
Qed.

Lemma string_keyed_disk_keys rows keys :
  Forall string_keyed rows →
  Forall2 (λ r k, dedup_key r = Ok k) rows keys →
  disk_key <$> (cells_of cs <$> rows) = keys.
Proof.
  intros Hs Hk. induction Hk as [|r k rows keys Hrk _ IH]; [done|].
  apply Forall_cons in Hs as [Hr Hs].
  destruct (string_keyed_key r Hr) as (k' & Hk' & Hdk).
  rewrite Hrk in Hk'. injection Hk' as <-.
  cbn [fmap list_fmap]. f_equal; [done|]. by apply IH.
Qed.

End Rows.

(** ** Field Extractor: the contract *)

Lemma walks_not_stuck cur parts v : walks cur parts v → ¬ stuck cur parts.
Proof.
  induction 1 as [v|d part parts v w Hp _ IH]; intros Hs; inversion Hs;
    simplify_eq.
  - naive_solver.
  - done.
Qed.

Lemma get_nested_loop_contract parts : ∀ cur dflt,
  (∃ v, walks cur parts v ∧ get_nested_loop cur parts dflt = v)
  ∨ (stuck cur parts ∧ get_nested_loop cur parts dflt = dflt).
Proof.
  induction parts as [|part parts IH]; intros cur dflt.
  - left. exists cur. split; [constructor|done].
  - cbn [get_nested_loop].
    destruct cur as [| | | | |d];
      try (right; split; [by apply stuck_not_mapping|done]).
    destruct (d !! part) as [v|] eqn:Hp.
    + destruct (IH v dflt) as [(u & Hw & Hu)|(Hs & Hu)].
      * left. exists u. split; [by econstructor|done].
      * right. split; [by eapply stuck_later|done].
    + right. split; [by apply stuck_absent|done].
Qed.

Lemma get_nested_stuck d path dflt :
  stuck d (split "." path) → _get_nested d path dflt = dflt.
Proof.
  intros Hs. unfold _get_nested.
  destruct (get_nested_loop_contract (split "." path) d dflt)
    as [(v & Hw & Hv)|(_ & Hv)]; [|done].
  by apply walks_not_stuck in Hw.
Qed.

(** C4.  For every record [d] (any value) and every dot-separated path,
    [_get_nested] (the same function in both scripts) either walks all the
    segments of the path through nested mappings and returns the value it
    reaches, unconverted, or stops at the first value that is not a mapping
    or lacks the segment's key and returns the default; being a total
    function, it raises in neither case. *)
Theorem get_nested_contract (d : value) (path : string) (dflt : value) :
  (∃ v, walks d (split "." path) v
        ∧ ¬ stuck d (split "." path)
        ∧ _get_nested d path dflt = v)
  ∨ (stuck d (split "." path)
     ∧ (∀ v, ¬ walks d (split "." path) v)
     ∧ _get_nested d path dflt = dflt).
Proof.
  unfold _get_nested.
  destruct (get_nested_loop_contract (split "." path) d dflt)
    as [(v & Hw & Hv)|(Hs & Hv)].
  - left. exists v. split; [done|]. split; [|done].
    by eapply walks_not_stuck.
  - right. split; [done|]. split; [|done].
    intros v Hw. by eapply walks_not_stuck.
Qed.

(** ** Record Normalizer: the rows *)

Lemma normalize_record_dict (d : gmap string value) ts :
  ∃ row, normalize_record (VDict d) ts = Ok row
    ∧ dom row = list_to_set fieldnames
    ∧ row !! "snapshot_ts" = Some (VStr ts)
    ∧ row !! "pairAddress" = Some (dict_get d "pairAddress")
    ∧ Forall (λ fp, row !! fp.1 = Some (_get_nested (VDict d) fp.2 VNone))
        source_path.
Proof.
  eexists. split; [reflexivity|]. split; [|split; [|split]].
  - unfold dict_of. cbn [foldl fst snd].
    rewrite !dom_insert_L, dom_empty_L. set_solver.
  - vm_compute. reflexivity.
  - vm_compute. reflexivity.
  - unfold source_path.
    repeat (apply Forall_cons; split; [vm_compute; reflexivity|]).
    apply Forall_nil_2.
Qed.

(** C3.  For every list of raw pair records, each a string-keyed mapping
    of any shape, and every snapshot timestamp, [normalize_records] raises
    nothing and returns one row per record, in the order of the records;
    every row has exactly the thirty fixed fields, [snapshot_ts] holds the
    timestamp, and every other field holds what the Field Extractor finds
    at its source path, which is the missing-value marker [None] when the
    path is absent. *)
Theorem normalize_records_rows (ds : list (gmap string value)) (ts : string) :
  length fieldnames = 30%nat
  ∧ fieldnames = "snapshot_ts" :: source_path.*1
  ∧ ∃ rows,
      normalize_records (VDict <$> ds) ts = Ok rows
      ∧ Forall2 (λ d row,
          dom row = list_to_set fieldnames
          ∧ row !! "snapshot_ts" = Some (VStr ts)
          ∧ Forall (λ fp,
              row !! fp.1 = Some (_get_nested (VDict d) fp.2 VNone)
              ∧ (stuck (VDict d) (split "." fp.2) → row !! fp.1 = Some VNone))
              source_path) ds rows.
Proof.
  split; [done|]. split; [done|].
  unfold normalize_records.
  induction ds as [|d ds (rows & Hrows & Hall)].
  - exists []. split; [done|constructor].
  - destruct (normalize_record_dict d ts) as (row & Hrow & Hdom & Hts & _ & Hsrc).
    exists (row :: rows). cbn [fmap list_fmap for_each].
    rewrite Hrow. cbn [rbind]. rewrite Hrows. cbn [rbind].
    split; [done|]. constructor; [|done].
    split; [done|]. split; [done|].
    eapply Forall_impl; [exact Hsrc|]. intros [f path] Hf. cbn [fst snd] in *.
    split; [done|]. intros Hstuck. rewrite Hf. f_equal.
    by apply get_nested_stuck.
Qed.

(** ** Table Store: reading the keys *)

Lemma read_existing_keys_result p w :
  (read_existing_keys p w).2 = existing_keys w p.
Proof. by destruct (read_existing_keys_eval p w) as (w' & -> & _). Qed.

Lemma read_existing_rows_indexed_result p w :
  (read_existing_rows_indexed p w).2 = existing_keys w p.
Proof.
  unfold read_existing_rows_indexed, existing_keys, mbind, M_bind,
    os_path_isfile, open_read, lift, is_file.
  destruct (files w !! p) as [text|] eqn:Hp.
  - rewrite bool_decide_true by eauto. cbn [negb files called]. rewrite Hp.
    destruct text as [|c text]; [done|]. cbn [files called]. rewrite Hp.
    by destruct (DictReader (String c text)) as [rows|e].
  - by rewrite bool_decide_false by (by intros [? ?]).
Qed.

(** X19.  [read_existing_keys] returns the empty set, after the one test
    for the file, when the partition file does not exist.  When it exists
    the call changes nothing in the store, and it fails only with the error
    of the csv module.  For a file that holds the header line and the lines
    of records as wide as the header, it returns exactly the set of the keys
    (text of [pairAddress], text of [snapshot_ts]) of these records when no
    cell is longer than the reader accepts, and fails with the error of the
    csv module when one is; it returns the empty set for the header alone,
    and the set of all the keys when the last line of the file lacks its
    terminator.  For the table of rows whose two key fields are strings,
    which can be written and read back, these keys are the Dedup Keys of
    the rows.  The reader of the older script,
    [read_existing_rows_indexed], returns the same result. *)
Theorem read_existing_keys_contract (cs : value → string) (p : list string)
    (w : world) :
  (files w !! p = None →
     read_existing_keys p w = (called (SysIsfile p) w, Ok ∅))
  ∧ (∃ w', read_existing_keys p w = (w', existing_keys w p) ∧ same_store w w')
  ∧ (∀ e, (read_existing_keys p w).2 = Raise e → e = CsvError)
  ∧ (∀ records,
       Forall (λ cells, length cells = length fieldnames) records →
       files w !! p = Some (table_text records) →
       (read_existing_keys p w).2
       = if all_small records then Ok (list_to_set (disk_key <$> records))
         else Raise CsvError)
  ∧ (files w !! p = Some (writerow fieldnames)
     ∨ files w !! p = Some (record_text fieldnames) →
       (read_existing_keys p w).2 = Ok ∅)
  ∧ (∀ records last,
       Forall (λ cells, length cells = length fieldnames) (records ++ [last]) →
       all_small (records ++ [last]) = true →
       files w !! p = Some (table_text records +:+ record_text last) →
       (read_existing_keys p w).2
       = Ok (list_to_set (disk_key <$> records ++ [last])))
  ∧ (∀ rows keys,
       Forall (storable cs) rows → Forall string_keyed rows →
       Forall2 (λ r k, dedup_key r = Ok k) rows keys →
       files w !! p = Some (table_text (cells_of cs <$> rows)) →
       (read_existing_keys p w).2 = Ok (list_to_set keys))
  ∧ (read_existing_rows_indexed p w).2 = (read_existing_keys p w).2.
Proof.
  split; [apply read_existing_keys_absent|].
  split; [apply read_existing_keys_eval|].
  split; [intros e; rewrite read_existing_keys_result;
          apply existing_keys_error|].
  split; [|split; [|split; [|split]]].
  - intros records Hw Hp. rewrite read_existing_keys_result.
    unfold existing_keys. rewrite Hp. by apply table_text_keys.
  - intros Hp. rewrite read_existing_keys_result. unfold existing_keys.
    destruct Hp as [-> | ->]; vm_compute; reflexivity.
  - intros records last Hw Hsm Hp. rewrite read_existing_keys_result.
    unfold existing_keys. rewrite Hp. by apply table_text_keys_no_newline.
  - intros rows keys Hst Hs Hk Hp. rewrite read_existing_keys_result.
    unfold existing_keys. rewrite Hp. rewrite table_text_keys.
    + rewrite storable_small by done.
      by rewrite (string_keyed_disk_keys cs rows keys).
    + apply Forall_fmap, Forall_forall. intros r _. apply cells_of_length.
  - by rewrite read_existing_keys_result, read_existing_rows_indexed_result.
Qed.

(** ** Table Store: appending *)

(** C9.  [write_rows] called with an empty list of rows returns 0 and
    leaves the world as it is: no file is created, changed or read, and no
    call to the file system is made at all. *)
Theorem write_rows_empty (cs : value → string) (p : list string) (w : world) :
  write_rows cs p [] w = (w, Ok 0).
Proof. reflexivity. Qed.

Section Append.

Variable cs : value → string.

Lemma Forall_of_sublist {A} (P : A → Prop) (l k : list A) :
  sublist k l → Forall P l → Forall P k.
Proof.
  intros Hsub Hl. apply Forall_forall. intros x Hx.
  rewrite Forall_forall in Hl. apply Hl. by eapply elem_of_sublist.
Qed.

Lemma appendable_no_error w p : appendable w p → open_append_error w p = None.
Proof.
  unfold appendable, open_append_error.
  intros (-> & [-> | (Hf & ->)]); [done|]. rewrite Hf. by destruct (is_file w p).
Qed.

Lemma converted_cells rows :
  (converted cs rows).2 = Ok () →
  (converted cs rows).1 = cells_of cs <$> rows ∧ Forall writable rows.
Proof.
  induction rows as [|r rows IH]; [by split|]. cbn [converted].
  destruct (_dict_to_list cs r) as [cells|e] eqn:Hr; [|done].
  apply _dict_to_list_inv in Hr as [-> Hw]. cbn [fst snd].
  intros Hok. destruct (IH Hok) as [-> Hrows]. split; [done|by constructor].
Qed.

Lemma converted_result rows :
  (converted cs rows).2 = Ok () ∨ (converted cs rows).2 = Raise ValueError.
Proof.
  induction rows as [|r rows IH]; [by left|]. cbn [converted].
  destruct (_dict_to_list cs r) as [cells|e] eqn:Hr; [done|].
  apply _dict_to_list_error in Hr as ->. by right.
Qed.

(** The rows that bring no new key leave the file as it is. *)
Lemma write_rows_nothing_new w p rows keys :
  existing_keys w p = Ok keys → dedup_loop keys rows = Ok [] →
  ∃ w', write_rows cs p rows w = (w', Ok 0)
    ∧ dirs w' = dirs w ∧ printed w' = printed w ∧ files w' = files w.
Proof.
  intros Hk Hd. destruct (write_rows_eval cs p rows w) as (w' & Hw & ? & ? & Hf).
  assert (write_rows_effect cs w p rows = (None, Ok 0)) as He.
  { unfold write_rows_effect. destruct rows; [done|].
    rewrite Hk. cbn [rbind]. by rewrite Hd. }
  rewrite He in Hw, Hf. by exists w'.
Qed.

(** The rows kept are appended, after the header when the file is new. *)
Lemma write_rows_kept w p rows keys kept :
  existing_keys w p = Ok keys → dedup_loop keys rows = Ok kept →
  appendable w p → Forall writable kept →
  ∃ w', write_rows cs p rows w = (w', Ok (Z.of_nat (length kept)))
    ∧ dirs w' = dirs w ∧ printed w' = printed w
    ∧ files w' = match kept with
                 | [] => files w
                 | _ :: _ => <[p := start_text w p
                                  +:+ lines_text (cells_of cs <$> kept)]> (files w)
                 end.
Proof.
  intros Hk Hd Happ Hkept.
  destruct kept as [|k0 kept]; [by eapply write_rows_nothing_new|].
  destruct (write_rows_eval cs p rows w) as (w' & Hw & ? & ? & Hf).
  assert (write_rows_effect cs w p rows
    = (Some (start_text w p +:+ lines_text (cells_of cs <$> k0 :: kept)),
       Ok (Z.of_nat (length (k0 :: kept))))) as He.
  { unfold write_rows_effect. destruct rows; [done|].
    rewrite Hk. cbn [rbind]. rewrite Hd.
    rewrite appendable_no_error by done. by rewrite converted_ok. }
  rewrite He in Hw, Hf. by exists w'.
Qed.

(** What a successful call has done. *)
Lemma write_rows_returned p rows w w' n :
  write_rows cs p rows w = (w', Ok n) →
  ∃ on_disk kept,
    (rows ≠ [] → existing_keys w p = Ok on_disk)
    ∧ dedup_loop on_disk rows = Ok kept
    ∧ n = Z.of_nat (length kept)
    ∧ Forall writable kept
    ∧ (kept ≠ [] → open_append_error w p = None)
    ∧ dirs w' = dirs w ∧ printed w' = printed w
    ∧ files w' = match kept with
                 | [] => files w
                 | _ :: _ => <[p := start_text w p
                                  +:+ lines_text (cells_of cs <$> kept)]> (files w)
                 end.
Proof.
  intros Hrun.
  destruct (write_rows_eval cs p rows w) as (w1 & Hw & Hd & Hp & Hf).
  rewrite Hrun in Hw. injection Hw as <- Hres.
  unfold write_rows_effect in Hres, Hf. destruct rows as [|r0 rows].
  { exists ∅, []. cbn [fst snd] in *. injection Hres as Hn. subst n.
    by repeat split. }
  destruct (existing_keys w p) as [on_disk|e]; [|done].
  cbn [rbind] in Hres, Hf. exists on_disk.
  destruct (dedup_loop on_disk (r0 :: rows)) as [[|k0 kept]|e]; [| |done].
  { exists []. cbn [fst snd] in *. injection Hres as Hn. subst n.
    by repeat split. }
  exists (k0 :: kept).
  destruct (open_append_error w p); [done|]. cbn [fst snd] in Hres, Hf.
  destruct (converted_result (k0 :: kept)) as [Hc|Hc];
    rewrite Hc in Hres; [|done].
  cbn [rbind] in Hres. injection Hres as Hn. subst n.
  destruct (converted_cells _ Hc) as [Hcells Hwr]. rewrite Hcells in Hf.
  by repeat split.
Qed.

(** C10.  Rows that lack [pairAddress] all carry [None] in their key, so
    two of them with the same timestamp have the same key, whatever their
    other fields are: among the rows [write_rows] appends for one batch
    (the rows [kept], whose lines are added to the file in this order) no
    two different positions hold rows without [pairAddress] and with equal
    [snapshot_ts].  The keys of the file are read for a batch that is not
    empty. *)
Theorem one_row_without_pair_address (w w' : world) (p : list string)
    (rows : list (gmap string value)) (n : Z) :
  write_rows cs p rows w = (w', Ok n) →
  ∃ on_disk kept,
    (rows ≠ [] → existing_keys w p = Ok on_disk)
    ∧ dedup_loop on_disk rows = Ok kept
    ∧ sublist kept rows
    ∧ n = Z.of_nat (length kept)
    ∧ files w' = match kept with
                 | [] => files w
                 | _ :: _ => <[p := start_text w p
                                  +:+ lines_text (cells_of cs <$> kept)]> (files w)
                 end
    ∧ ∀ i j r1 r2,
        kept !! i = Some r1 → kept !! j = Some r2 →
        dict_get r1 "pairAddress" = VNone →
        dict_get r2 "pairAddress" = VNone →
        dict_get r1 "snapshot_ts" = dict_get r2 "snapshot_ts" →
        dedup_key r1 = dedup_key r2 ∧ i = j.
Proof.
  intros Hrun.
  destruct (write_rows_returned _ _ _ _ _ Hrun)
    as (on_disk & kept & Hk & Hd & Hn & _ & _ & _ & _ & Hfiles).
  exists on_disk, kept.
  destruct (dedup_loop_kept _ _ _ Hd) as (dkeys & Hkeys & Hnd & _ & Hsub & _).
  do 5 (split; [done|]).
  intros i j r1 r2 Hi Hj Hp1 Hp2 Hts.
  assert (dedup_key r1 = dedup_key r2) as Hsame.
  { unfold dedup_key. by rewrite Hp1, Hp2, Hts. }
  split; [done|].
  destruct (Forall2_lookup_l _ _ _ _ _ Hkeys Hi) as (k1 & Hk1 & Hr1).
  destruct (Forall2_lookup_l _ _ _ _ _ Hkeys Hj) as (k2 & Hk2 & Hr2).
  assert (k1 = k2) as <-.
  { rewrite Hsame, Hr2 in Hr1. by injection Hr1. }
  by eapply NoDup_lookup.
Qed.

Lemma new_rows_sublist rows : ∀ keys on_disk seen,
  sublist (new_rows on_disk seen rows keys) rows.
Proof.
  induction rows as [|r rows IH]; intros [|k keys] on_disk seen;
    cbn [new_rows]; try apply sublist_nil_l.
  case_decide; [by apply sublist_skip|by apply sublist_cons].
Qed.

Lemma write_rows_new_rows w p rows keys on_disk :
  appendable w p → Forall writable rows →
  Forall2 (λ r k, dedup_key r = Ok k) rows keys →
  existing_keys w p = Ok on_disk →
  ∃ w',
    write_rows cs p rows w
    = (w', Ok (Z.of_nat (length (new_rows on_disk [] rows keys))))
    ∧ dirs w' = dirs w ∧ printed w' = printed w
    ∧ files w' = match new_rows on_disk [] rows keys with
                 | [] => files w
                 | _ :: _ =>
                     <[p := start_text w p
                        +:+ lines_text (cells_of cs <$> new_rows on_disk [] rows keys)]>
                       (files w)
                 end.
Proof.
  intros Happ Hrows Hkeys Hk.
  assert (dedup_loop on_disk rows = Ok (new_rows on_disk [] rows keys)) as Hd.
  { apply dedup_loop_new_rows; [done|]. cbn [list_to_set].
    by rewrite union_empty_r_L. }
  apply (write_rows_kept w p rows on_disk _ Hk Hd Happ).
  eapply Forall_of_sublist; [apply new_rows_sublist|done].
Qed.

(** Reading the keys fails: so does the call, and the file stays as it
    is. *)
Lemma write_rows_unreadable w p rows e :
  rows ≠ [] → existing_keys w p = Raise e →
  ∃ w', write_rows cs p rows w = (w', Raise e)
    ∧ dirs w' = dirs w ∧ printed w' = printed w ∧ files w' = files w.
Proof.
  intros Hne Hk. destruct (write_rows_eval cs p rows w) as (w' & Hw & ? & ? & Hf).
  assert (write_rows_effect cs w p rows = (None, Raise e)) as He.
  { unfold write_rows_effect. destruct rows; [done|]. by rewrite Hk. }
  rewrite He in Hw, Hf. by exists w'.
Qed.

End Append.

(** ** Appending batches with string keys *)

Section Batches.

Variable cs : value → string.

Lemma string_keyed_keys rows :
  Forall string_keyed rows →
  ∃ keys, Forall2 (λ r k, dedup_key r = Ok k) rows keys.
Proof.
  induction 1 as [|r rows Hr _ (keys & IH)]; [by exists []|].
  destruct (string_keyed_key cs r Hr) as (k & Hk & _).
  exists (k :: keys). by constructor.
Qed.

(** The keys read back from a file written from rows with string keys
    are the keys of the rows. *)
Lemma existing_keys_table w p rows keys :
  files w !! p = Some (table_text (cells_of cs <$> rows)) →
  Forall string_keyed rows →
  all_small (cells_of cs <$> rows) = true →
  Forall2 (λ r k, dedup_key r = Ok k) rows keys →
  existing_keys w p = Ok (list_to_set keys).
Proof.
  intros Hp Hs Hsm Hk. unfold existing_keys. rewrite Hp.
  rewrite table_text_keys.
  - rewrite Hsm. by rewrite (string_keyed_disk_keys cs rows keys).
  - apply Forall_fmap, Forall_forall. intros r _. apply cells_of_length.
Qed.

Lemma appendable_after w w' p :
  dirs w' = dirs w → is_Some (files w' !! p) → appendable w p →
  appendable w' p.
Proof.
  intros Hd Hf (Hdir & _). split.
  - unfold is_dir in *. by rewrite Hd.
  - left. unfold is_file. by rewrite bool_decide_true.
Qed.

Lemma existing_keys_absent w p : files w !! p = None → existing_keys w p = Ok ∅.
Proof. intros Hp. unfold existing_keys. by rewrite Hp. Qed.

Lemma start_text_absent w p :
  files w !! p = None → start_text w p = writerow fieldnames.
Proof. intros Hp. unfold start_text. by rewrite Hp. Qed.

Lemma start_text_present w p text :
  files w !! p = Some text → start_text w p = text.
Proof. intros Hp. unfold start_text. by rewrite Hp. Qed.

Lemma table_text_app records1 records2 :
  table_text records1 +:+ lines_text records2
  = table_text (records1 ++ records2).
Proof. unfold table_text. by rewrite sapp_assoc, lines_text_app. Qed.

(** Each row kept is the first row of the batch with its key. *)
Lemma new_rows_first rows : ∀ keys on_disk seen,
  Forall2 (λ r k, dedup_key r = Ok k) rows keys →
  Forall (λ r, ∃ i k,
      rows !! i = Some r ∧ dedup_key r = Ok k ∧ (k ∉ on_disk) ∧ (k ∉ seen)
      ∧ ∀ j r', (j < i)%nat → rows !! j = Some r' → dedup_key r' ≠ Ok k)
    (new_rows on_disk seen rows keys).
Proof.
  induction rows as [|r rows IH]; intros keys on_disk seen Hk.
  - apply Forall2_nil_inv_l in Hk as ->. constructor.
  - apply Forall2_cons_inv_l in Hk as (k & keys' & Hkey & Hk & ->).
    cbn [new_rows].
    assert (Forall (λ r0, ∃ i k0,
        (r :: rows) !! i = Some r0 ∧ dedup_key r0 = Ok k0 ∧ (k0 ∉ on_disk)
        ∧ (k0 ∉ seen)
        ∧ ∀ j r', (j < i)%nat → (r :: rows) !! j = Some r' →
                  dedup_key r' ≠ Ok k0)
      (new_rows on_disk (seen ++ [k]) rows keys')) as Htail.
    { eapply Forall_impl; [apply (IH keys' on_disk (seen ++ [k]) Hk)|].
      intros r0 (i & k0 & Hi & Hk0 & Hd & Hs & Hfirst).
      exists (S i), k0. split; [done|]. split; [done|]. split; [done|].
      split; [set_solver|]. intros [|j] r' Hj Hr'.
      - injection Hr' as <-. rewrite Hkey. intros [= ->]. set_solver.
      - apply (Hfirst j r'); [lia|done]. }
    case_decide as Hnew; [|done]. constructor; [|done].
    exists 0%nat, k. split; [done|]. split; [done|].
    split; [tauto|]. split; [tauto|]. intros j r' Hj. lia.
Qed.

(** X18.  For every world in which the file can be opened for appending
    and every batch of rows that can be written and have hashable key
    values: when [read_existing_keys] returns a set of keys for the file,
    [write_rows] appends the lines of exactly the rows whose key, the
    values of [pairAddress] and [snapshot_ts], is neither in that set nor
    carried by an earlier row of the batch, in the order of the batch and
    after the header line when the file is new, and returns their number
    (0, and no change, when none is new); each row appended is the first
    row of the batch with its key.  When reading the keys fails, the call
    fails in the same way and the file stays as it is.  In particular,
    when the key fields of the rows are strings and no cell is longer than
    the reader accepts, writing a batch with keys [k1], [k2] and then a
    batch with keys [k2], [k3] to an absent partition returns 2 and then 1
    and leaves the header and the three rows [k1], [k2], [k3] in arrival
    order. *)
Theorem write_rows_appends_new_rows :
  (∀ w p rows keys on_disk,
     appendable w p → Forall writable rows →
     Forall2 (λ r k, dedup_key r = Ok k) rows keys →
     (read_existing_keys p w).2 = Ok on_disk →
     ∃ w',
       write_rows cs p rows w
       = (w', Ok (Z.of_nat (length (new_rows on_disk [] rows keys))))
       ∧ files w' = match new_rows on_disk [] rows keys with
                    | [] => files w
                    | _ :: _ =>
                        <[p := start_text w p
                           +:+ lines_text
                                 (cells_of cs <$> new_rows on_disk [] rows keys)]>
                          (files w)
                    end
       ∧ sublist (new_rows on_disk [] rows keys) rows
       ∧ Forall (λ r, ∃ i k,
           rows !! i = Some r ∧ dedup_key r = Ok k ∧ (k ∉ on_disk)
           ∧ ∀ j r', (j < i)%nat → rows !! j = Some r' → dedup_key r' ≠ Ok k)
           (new_rows on_disk [] rows keys))
  ∧ (∀ w p rows e,
       rows ≠ [] → (read_existing_keys p w).2 = Raise e →
       (write_rows cs p rows w).2 = Raise e
       ∧ files (write_rows cs p rows w).1 = files w)
  ∧ (∀ w p a1 a2 b2 b3 k1 k2 k3,
       files w !! p = None → appendable w p →
       Forall (storable cs) [a1; a2; b2; b3] →
       Forall string_keyed [a1; a2; b2; b3] →
       Forall2 (λ r k, dedup_key r = Ok k) [a1; a2; b2; b3] [k1; k2; k2; k3] →
       k1 ≠ k2 → k1 ≠ k3 → k2 ≠ k3 →
       ∃ w1 w2,
         write_rows cs p [a1; a2] w = (w1, Ok 2)
         ∧ write_rows cs p [b2; b3] w1 = (w2, Ok 1)
         ∧ files w2 !! p = Some (table_text (cells_of cs <$> [a1; a2; b3]))).
Proof.
  split; [|split].
  - intros w p rows keys on_disk Happ Hrows Hkeys Hk.
    rewrite read_existing_keys_result in Hk.
    destruct (write_rows_new_rows cs w p rows keys on_disk Happ Hrows Hkeys Hk)
      as (w' & Hw & _ & _ & Hf).
    exists w'. split; [done|]. split; [done|].
    split; [apply new_rows_sublist|].
    eapply Forall_impl; [apply (new_rows_first rows keys on_disk [] Hkeys)|].
    intros r (i & k & Hi & Hkr & Hd & _ & Hfirst). by exists i, k.
  - intros w p rows e Hne Hk. rewrite read_existing_keys_result in Hk.
    destruct (write_rows_unreadable cs w p rows e Hne Hk)
      as (w' & -> & _ & _ & Hf). done.
  - intros w p a1 a2 b2 b3 k1 k2 k3 Hp Happ Hst Hsk Hkeys H12 H13 H23.
    assert (Forall writable [a1; a2; b2; b3]) as Hwr.
    { eapply Forall_impl; [exact Hst|]. apply storable_writable. }
    pose proof (storable_small cs [a1; a2]) as Hsm.
    apply Forall2_cons_1 in Hkeys as [Hk1 Hkeys].
    apply Forall2_cons_1 in Hkeys as [Hk2 Hkeys].
    apply Forall2_cons_1 in Hkeys as [Hk2' Hkeys].
    apply Forall2_cons_1 in Hkeys as [Hk3 _].
    apply Forall_cons in Hwr as [Hn1 Hwr]. apply Forall_cons in Hwr as [Hn2 Hwr].
    apply Forall_cons in Hsk as [Hs1 Hsk]. apply Forall_cons in Hsk as [Hs2 Hsk].
    apply Forall_cons in Hst as [Ht1 Hst]. apply Forall_cons in Hst as [Ht2 Hst].
    (* first batch *)
    destruct (write_rows_new_rows cs w p [a1; a2] [k1; k2] ∅)
      as (w1 & Hw1 & Hdirs1 & _ & Hf1);
      [done|by repeat first [apply Forall_nil_2|apply Forall_cons_2]
      |by repeat constructor|by apply existing_keys_absent|].
    cbn [new_rows app] in Hw1, Hf1.
    rewrite decide_True in Hw1, Hf1 by set_solver.
    rewrite decide_True in Hw1, Hf1 by set_solver.
    rewrite start_text_absent in Hf1 by done.
    assert (files w1 !! p = Some (table_text (cells_of cs <$> [a1; a2]))) as Hp1.
    { by rewrite Hf1, lookup_insert_eq. }
    (* second batch *)
    destruct (write_rows_new_rows cs w1 p [b2; b3] [k2; k3]
                (list_to_set [k1; k2]))
      as (w2 & Hw2 & _ & _ & Hf2);
      [by eapply appendable_after|done|by repeat constructor| |].
    { apply (existing_keys_table w1 p [a1; a2] [k1; k2]);
        [done|by repeat constructor
        |apply Hsm; by repeat first [apply Forall_nil_2|apply Forall_cons_2]
        |by repeat constructor]. }
    cbn [new_rows app] in Hw2, Hf2.
    rewrite decide_False in Hw2, Hf2 by set_solver.
    rewrite decide_True in Hw2, Hf2 by set_solver.
    rewrite (start_text_present w1 p _ Hp1) in Hf2.
    exists w1, w2. split; [done|]. split; [done|].
    rewrite Hf2, lookup_insert_eq. f_equal.
    by rewrite table_text_app.
Qed.

Lemma normalize_records_dicts (ds : list (gmap string value)) ts :
  ∃ rows, normalize_records (VDict <$> ds) ts = Ok rows
    ∧ Forall2 (λ d row, normalize_record (VDict d) ts = Ok row) ds rows.
Proof.
  unfold normalize_records. induction ds as [|d ds (rows & Hrows & Hall)].
  - exists []. split; [done|constructor].
  - destruct (normalize_record_dict d ts) as (row & Hrow & _).
    exists (row :: rows). cbn [fmap list_fmap for_each].
    rewrite Hrow. cbn [rbind]. rewrite Hrows. cbn [rbind].
    split; [done|]. by constructor.
Qed.

(** The rows [normalize_records] makes of dictionaries that carry a
    string [pairAddress] have string keys and no field outside the fixed
    names. *)
Lemma normalize_records_named ds ts rows :
  Forall (λ d, ∃ a, d !! "pairAddress" = Some (VStr a)) ds →
  normalize_records (VDict <$> ds) ts = Ok rows →
  Forall string_keyed rows.
Proof.
  intros Hds Hrows.
  destruct (normalize_records_dicts ds ts) as (rows' & Hrows' & Hall).
  rewrite Hrows in Hrows'. injection Hrows' as <-. clear Hrows.
  induction Hall as [|d row ds rows Hrow _ IH]; [constructor|].
  apply Forall_cons in Hds as [[a Ha] Hds]. constructor; [|by apply IH].
  destruct (normalize_record_dict d ts) as (row' & Hrow' & Hdom & Hts & Hpa & _).
  rewrite Hrow in Hrow'. injection Hrow' as <-.
  exists a, ts. unfold dict_get in Hpa. by rewrite Ha in Hpa.
Qed.

(** X17.  For every list of raw pair records that each carry a string
    [pairAddress], and every snapshot timestamp, when the rows of the list
    can be written and no cell of theirs is longer than the reader accepts:
    appending the rows twice to the same partition, absent at first,
    leaves after the first call the header and one line for each distinct
    key, that of the first row of the list with the key, in the order of
    the list; the second call returns 0 and leaves the file as it is. *)
Theorem append_twice_idempotent (w : world) (p : list string)
    (ds : list (gmap string value)) (ts : string)
    (rows : list (gmap string value)) :
  files w !! p = None → appendable w p →
  Forall (λ d, ∃ a, d !! "pairAddress" = Some (VStr a)) ds →
  normalize_records (VDict <$> ds) ts = Ok rows →
  Forall (storable cs) rows →
  ∃ kept keys w1 w2,
    write_rows cs p rows w = (w1, Ok (Z.of_nat (length kept)))
    ∧ write_rows cs p rows w1 = (w2, Ok 0)
    ∧ files w2 = files w1
    ∧ files w1 !! p = match kept with
                      | [] => None
                      | _ :: _ => Some (table_text (cells_of cs <$> kept))
                      end
    ∧ sublist kept rows
    ∧ Forall2 (λ r k, dedup_key r = Ok k) kept keys
    ∧ NoDup keys
    ∧ Forall (λ r, ∃ k, dedup_key r = Ok k ∧ k ∈ keys) rows
    ∧ Forall (λ r, ∃ i k,
        rows !! i = Some r ∧ dedup_key r = Ok k
        ∧ ∀ j r', (j < i)%nat → rows !! j = Some r' → dedup_key r' ≠ Ok k)
        kept.
Proof.
  intros Hp Happ Hds Hrows Hst.
  pose proof (normalize_records_named ds ts rows Hds Hrows) as Hsk.
  assert (Forall writable rows) as Hwr.
  { eapply Forall_impl; [exact Hst|]. apply storable_writable. }
  destruct (string_keyed_keys rows Hsk) as [rkeys Hrkeys].
  pose proof (dedup_loop_new_rows rows rkeys ∅ [] ∅ Hrkeys) as Hloop.
  set (kept := new_rows ∅ [] rows rkeys) in *.
  assert (dedup_loop ∅ rows = Ok kept) as Hloop'.
  { apply Hloop. cbn [list_to_set]. by rewrite union_empty_r_L. }
  clear Hloop. rename Hloop' into Hloop.
  destruct (dedup_loop_kept _ _ _ Hloop)
    as (keys & Hkeys & Hnd & _ & Hsub & Hcover).
  assert (Forall (λ r, ∃ k, dedup_key r = Ok k ∧ k ∈ keys) rows) as Hcover'.
  { eapply Forall_impl; [exact Hcover|]. intros r (k & Hk & [Hin|Hin]);
      [set_solver|eauto]. }
  destruct (write_rows_kept cs w p rows ∅ kept) as (w1 & Hw1 & Hd1 & _ & Hf1);
    [by apply existing_keys_absent|done|done
    |by eapply Forall_of_sublist|].
  assert (Forall (λ r, ∃ i k,
        rows !! i = Some r ∧ dedup_key r = Ok k
        ∧ ∀ j r', (j < i)%nat → rows !! j = Some r' → dedup_key r' ≠ Ok k)
        kept) as Hfirst.
  { eapply Forall_impl; [apply (new_rows_first rows rkeys ∅ [] Hrkeys)|].
    intros r (i & k & Hi & Hkr & _ & _ & Hf). by exists i, k. }
  exists kept, keys, w1.
  destruct kept as [|k0 kept'] eqn:Hkeq.
  - (* nothing was written: the list is empty *)
    apply Forall2_nil_inv_l in Hkeys as ->.
    destruct rows as [|r rows'].
    + exists w1. rewrite Hf1, Hp. by repeat split.
    + apply Forall_cons in Hcover' as [(k & _ & Hin) _]. by apply elem_of_nil in Hin.
  - rewrite start_text_absent in Hf1 by done.
    assert (files w1 !! p = Some (table_text (cells_of cs <$> k0 :: kept')))
      as Hp1.
    { by rewrite Hf1, lookup_insert_eq. }
    destruct (write_rows_nothing_new cs w1 p rows (list_to_set keys))
      as (w2 & Hw2 & _ & _ & Hf2).
    { eapply existing_keys_table; [done| | |done].
      - by eapply Forall_of_sublist.
      - apply storable_small. by eapply Forall_of_sublist. }
    { apply dedup_loop_all_present.
      eapply Forall_impl; [exact Hcover'|]. intros r (k & Hk & Hin).
      exists k. split; [done|]. by apply elem_of_list_to_set. }
    exists w2. by repeat split.
Qed.

End Batches.

(** ** Header once, append only *)

Section HeaderOnce.

Variable cs : value → string.

Lemma converted_prefix rows :
  ∃ n, (converted cs rows).1 = cells_of cs <$> take n rows.
Proof.
  induction rows as [|r rows (n & IH)]; [by exists 0%nat|].
  cbn [converted]. destruct (_dict_to_list cs r) as [cells|e] eqn:Hr.
  - apply _dict_to_list_inv in Hr as [-> _].
    exists (S n). cbn [fst take fmap list_fmap]. by rewrite IH.
  - by exists 0%nat.
Qed.

Lemma sublist_take {A} (l : list A) n : sublist (take n l) l.
Proof.
  revert n. induction l as [|x l IH]; intros [|n]; cbn;
    try constructor; [apply sublist_nil_l|apply IH].
Qed.

Lemma write_rows_effect_file w p rows :
  (write_rows_effect cs w p rows).1 = None
  ∨ ∃ rs, sublist rs rows
      ∧ (write_rows_effect cs w p rows).1
        = Some (start_text w p +:+ lines_text (cells_of cs <$> rs)).
Proof.
  unfold write_rows_effect. destruct rows as [|r0 rows]; [by left|].
  destruct (existing_keys w p) as [keys|e]; cbn [rbind]; [|by left].
  destruct (dedup_loop keys (r0 :: rows)) as [[|d0 deduped]|e] eqn:Hd;
    [by left| |by left].
  destruct (open_append_error w p); [by left|]. right.
  destruct (converted_prefix (d0 :: deduped)) as [n Hn].
  exists (take n (d0 :: deduped)). cbn [fst]. rewrite Hn. split; [|done].
  destruct (dedup_loop_kept _ _ _ Hd) as (_ & _ & _ & _ & Hsub & _).
  etrans; [apply sublist_take|done].
Qed.

Lemma extends_refl rows before : extends cs rows before before.
Proof.
  destruct before as [text|]; [|done]. exists []. split; [apply sublist_nil_l|].
  by rewrite sapp_nil_r.
Qed.

Lemma extends_trans rows1 rows2 a b c :
  extends cs rows1 a b → extends cs rows2 b c → extends cs (rows1 ++ rows2) a c.
Proof.
  destruct a as [ta|], b as [tb|], c as [tc|]; cbn; try done.
  - intros (rs1 & Hs1 & ->) (rs2 & Hs2 & ->). exists (rs1 ++ rs2).
    split; [by apply sublist_app|].
    by rewrite fmap_app, lines_text_app, sapp_assoc.
  - intros (rs1 & Hs1 & ->) (rs2 & Hs2 & ->). exists (rs1 ++ rs2).
    split; [by apply sublist_app|].
    by rewrite fmap_app, table_text_app.
  - intros _ (rs2 & Hs2 & ->). exists rs2. split; [|done].
    by apply sublist_inserts_l.
Qed.

Lemma write_rows_extends w p rows :
  extends cs rows (files w !! p) (files (write_rows cs p rows w).1 !! p).
Proof.
  destruct (write_rows_eval cs p rows w) as (w' & Hw & _ & _ & Hf).
  rewrite Hw. cbn [fst]. rewrite Hf.
  destruct (write_rows_effect_file w p rows) as [-> | (rs & Hsub & ->)].
  - apply extends_refl.
  - rewrite lookup_insert_eq. unfold start_text.
    destruct (files w !! p) as [text|]; by exists rs.
Qed.

Lemma append_calls_extends p batches : ∀ w,
  extends cs (concat batches) (files w !! p)
    (files (append_calls cs p batches w) !! p).
Proof.
  induction batches as [|rows batches IH]; intros w.
  - apply extends_refl.
  - cbn [append_calls concat]. eapply extends_trans; [|apply IH].
    apply write_rows_extends.
Qed.

Lemma append_calls_app p batches1 batches2 : ∀ w,
  append_calls cs p (batches1 ++ batches2) w
  = append_calls cs p batches2 (append_calls cs p batches1 w).
Proof. induction batches1 as [|rows batches1 IH]; intros w; [done|apply IH]. Qed.

Lemma writerow_inj cells1 cells2 :
  cells1 ≠ [] → cells2 ≠ [] → Forall (λ c, small c = true) cells2 →
  writerow cells1 = writerow cells2 →
  cells1 = cells2.
Proof.
  intros H1 H2 Hsm Heq.
  pose proof (reader_rows_writerow cells2 false "" H2 Hsm) as Hr2.
  rewrite sapp_nil_r in Hr2. rewrite <- Heq in Hr2.
  destruct (decide (Forall (λ c, small c = true) cells1)) as [Hsm1|Hbig].
  - pose proof (reader_rows_writerow cells1 false "" H1 Hsm1) as Hr1.
    rewrite sapp_nil_r in Hr1. rewrite Hr2 in Hr1.
    cbn in Hr1. by injection Hr1.
  - apply not_Forall_Exists in Hbig; [|apply _].
    assert (Exists (λ c, small c = false) cells1) as Hex.
    { eapply Exists_impl; [exact Hbig|]. intros c Hcs.
      by apply not_true_is_false. }
    pose proof (reader_rows_writerow_long cells1 false "" Hex) as Hr1.
    rewrite sapp_nil_r in Hr1. rewrite Hr2 in Hr1. done.
Qed.

(** C5.  Each call of [write_rows], whatever its outcome, leaves the
    content the file had in place and only adds lines of rows of its batch
    at the end; a file that did not exist stays absent or starts with the
    header line.  So, starting from an absent partition file, after any
    sequence of calls the file is absent or is the header line, once and
    at the top, followed by lines of rows of the batches only, and what the
    file held after a part of the calls is still the beginning of what it
    holds after all of them.  The line of a row is the header line only if
    the cells of the row spell the column names. *)
Theorem header_once_append_only (p : list string) :
  (∀ w rows,
     extends cs rows (files w !! p) (files (write_rows cs p rows w).1 !! p))
  ∧ (∀ w batches,
       files w !! p = None →
       extends cs (concat batches) None
         (files (append_calls cs p batches w) !! p))
  ∧ (∀ w batches1 batches2 text,
       files (append_calls cs p batches1 w) !! p = Some text →
       extends cs (concat batches2) (Some text)
         (files (append_calls cs p (batches1 ++ batches2) w) !! p))
  ∧ (∀ r, writerow (cells_of cs r) = writerow fieldnames →
          cells_of cs r = fieldnames).
Proof.
  repeat split.
  - intros w rows. apply write_rows_extends.
  - intros w batches Hp. rewrite <- Hp. apply append_calls_extends.
  - intros w batches1 batches2 text Hp.
    rewrite append_calls_app, <- Hp. apply append_calls_extends.
  - intros r Heq. apply writerow_inj in Heq; [done..|].
    apply small_fieldnames.
Qed.

End HeaderOnce.

(** ** Snapshot Orchestrator: the outcomes *)

Section Orchestrator.

Variable cs : value → string.

Lemma count_data_lines_eval p w :
  ∃ w' n, count_data_lines p w = (w', Ok n) ∧ same_store w w'.
Proof.
  unfold count_data_lines, mbind, M_bind, os_path_isfile, open_read, is_file.
  destruct (files w !! p) as [text|] eqn:Hp.
  - rewrite bool_decide_true by eauto. cbn [files called]. rewrite Hp.
    eexists _, _. split; [reflexivity|done].
  - rewrite bool_decide_false by (by intros [? ?]).
    eexists _, _. split; [reflexivity|done].
Qed.

Lemma makedirs_from_eval rest : ∀ base w,
  ∃ w' r, makedirs_from base rest w = (w', r)
    ∧ files w' = files w ∧ printed w' = printed w
    ∧ ((r = Ok () ∧ (rest ≠ [] → base ++ rest ∈ dirs w'))
       ∨ r = Raise FileExistsError ∨ r = Raise NotADirectoryError)
    ∧ dirs w ⊆ dirs w'.
Proof.
  induction rest as [|c rest IH]; intros base w.
  - exists w, (Ok ()). repeat split; try done. by left.
  - cbn [makedirs_from]. destruct (is_file w (base ++ [c])).
    + eexists _, _. split; [reflexivity|]. repeat split; try done.
      right. destruct rest; [by left|by right].
    + match goal with |- context [makedirs_from _ rest ?w1] =>
        destruct (IH (base ++ [c]) w1) as (w' & r & -> & Hf & Hp & Hr & Hd)
      end.
      cbn [files printed dirs] in *.
      exists w', r. repeat split; try done; [|set_solver].
      destruct Hr as [(-> & Hin)|Hr]; [left|by right].
      split; [done|]. intros _. destruct rest as [|c' rest].
      * rewrite app_nil_r in *. set_solver.
      * rewrite <- app_assoc in Hin. by apply Hin.
Qed.

Lemma ensure_dir_eval outdir w :
  ∃ w' r, ensure_dir outdir w = (w', r)
    ∧ files w' = files w ∧ printed w' = printed w
    ∧ ((r = Ok () ∧ is_dir w' outdir = true)
       ∨ r = Raise FileExistsError ∨ r = Raise NotADirectoryError
       ∨ (r = Raise FileNotFoundError ∧ outdir = [])).
Proof.
  unfold ensure_dir, mbind, M_bind, os_path_isdir.
  destruct (is_dir w outdir) eqn:Hd; cbn [negb].
  - eexists _, _. split; [reflexivity|]. repeat split; try done. by left.
  - unfold os_makedirs. destruct outdir as [|c outdir].
    { eexists _, _. split; [reflexivity|]. repeat split; try done.
      by right; right; right. }
    destruct (makedirs_from_eval (c :: outdir) []
                (called (SysMakedirs (c :: outdir))
                   (called (SysIsdir (c :: outdir)) w)))
      as (w' & r & -> & Hf & Hp & Hr & _).
    exists w', r. repeat split; try done.
    destruct Hr as [(-> & Hin)|[Hr|Hr]];
      [left|by right; left|by right; right; left].
    split; [done|]. unfold is_dir. apply bool_decide_eq_true.
    split; [done|]. by apply Hin.
Qed.

Lemma normalize_records_error pairs ts e :
  normalize_records pairs ts = Raise e → e = AttributeError.
Proof.
  unfold normalize_records. revert e.
  induction pairs as [|p pairs IH]; intros e; [done|]. cbn [for_each].
  destruct (normalize_record p ts) as [row|e'] eqn:Hrow; cbn [rbind].
  - destruct (for_each _ pairs) as [rows|e'']; cbn [rbind]; [done|].
    intros [= <-]. by apply IH.
  - intros [= <-]. unfold normalize_record in Hrow.
    destruct p; congruence.
Qed.

Lemma dedup_loop_error rows : ∀ keys e,
  dedup_loop keys rows = Raise e → e = TypeError.
Proof.
  induction rows as [|r rows IH]; intros keys e; [done|]. cbn [dedup_loop].
  destruct (dedup_key r) as [k|e0] eqn:Hk; cbn [rbind].
  - case_decide; [apply IH|].
    destruct (dedup_loop ({[k]} ∪ keys) rows) eqn:Hl; [done|].
    cbn [rbind]. intros [= <-]. by eapply IH.
  - intros [= <-]. unfold dedup_key in Hk.
    destruct (dict_get r "pairAddress"), (dict_get r "snapshot_ts");
      cbn in Hk; by simplify_eq.
Qed.

Lemma write_rows_effect_error w p rows e :
  (write_rows_effect cs w p rows).2 = Raise e →
  e = TypeError ∨ e = ValueError
  ∨ (e = CsvError ∧ existing_keys w p = Raise CsvError)
  ∨ open_append_error w p = Some e.
Proof.
  unfold write_rows_effect. destruct rows as [|r0 rows]; [done|].
  destruct (existing_keys w p) as [keys|e'] eqn:Hkeys; cbn [rbind].
  - destruct (dedup_loop keys (r0 :: rows)) as [[|d0 deduped]|e'] eqn:Hd;
      [done| |].
    + destruct (open_append_error w p) as [e'|]; cbn [snd].
      * intros [= <-]. by right; right; right.
      * destruct (converted_result cs (d0 :: deduped)) as [-> | ->]; [done|].
        intros [= <-]. by right; left.
    + cbn [snd]. intros [= <-]. left. by eapply dedup_loop_error.
  - cbn [snd]. intros [= <-]. right; right; left.
    by apply existing_keys_error in Hkeys as ->.
Qed.

Lemma open_append_error_with_directory w p :
  parent_exists w p = true → open_append_error w p ≠ Some FileNotFoundError.
Proof.
  unfold open_append_error. intros ->.
  by destruct (is_dir w p), (is_file w p), (is_file w (dirname p)).
Qed.

Lemma is_dir_parent_exists w p :
  is_dir w (dirname p) = true → parent_exists w p = true.
Proof. unfold parent_exists. by intros ->. Qed.

(** The first row of a batch is new when the file holds no key. *)
Lemma dedup_loop_first_kept r rows kept :
  dedup_loop ∅ (r :: rows) = Ok kept → kept ≠ [].
Proof.
  cbn [dedup_loop]. destruct (dedup_key r) as [k|e]; [|done]. cbn [rbind].
  rewrite decide_False by set_solver.
  destruct (dedup_loop _ rows) as [deduped|e]; [|done]. cbn [rbind].
  by intros [= <-].
Qed.

(** A call with new rows, the file being absent and the directory that is
    to hold it missing. *)
Lemma write_rows_no_directory w p rows keys :
  rows ≠ [] → Forall2 (λ r k, dedup_key r = Ok k) rows keys →
  is_dir w p = false → is_file w p = false → parent_exists w p = false →
  ∃ w', write_rows cs p rows w
        = (w', Raise (if is_file w (dirname p) || under_file w p
                      then NotADirectoryError else FileNotFoundError))
    ∧ dirs w' = dirs w ∧ printed w' = printed w ∧ files w' = files w.
Proof.
  intros Hne Hkeys Hd Hf Hpar.
  destruct (write_rows_eval cs p rows w) as (w' & Hw & ? & ? & Hfiles).
  assert (files w !! p = None) as Hp.
  { unfold is_file in Hf. apply bool_decide_eq_false in Hf.
    destruct (files w !! p); [by destruct Hf|done]. }
  assert (write_rows_effect cs w p rows
    = (None, Raise (if is_file w (dirname p) || under_file w p
                    then NotADirectoryError else FileNotFoundError))) as He.
  { unfold write_rows_effect. destruct rows as [|r rows]; [done|].
    unfold existing_keys. rewrite Hp. cbn [rbind].
    destruct (dedup_loop ∅ (r :: rows)) as [kept|e] eqn:Hloop.
    - pose proof (dedup_loop_first_kept _ _ _ Hloop) as Hk.
      destruct kept as [|k0 kept]; [done|].
      unfold open_append_error. rewrite Hd, Hf, Hpar.
      by destruct (is_file w (dirname p)), (under_file w p).
    - exfalso. rewrite (dedup_loop_new_rows (r :: rows) keys ∅ [] ∅) in Hloop;
        [done|done|]. cbn [list_to_set]. by rewrite union_empty_r_L. }
  rewrite He in Hw, Hfiles. by exists w'.
Qed.

Lemma dirname_daily_csv_path outdir now :
  dirname (_daily_csv_path outdir now) = outdir.
Proof. unfold dirname, _daily_csv_path. apply removelast_last. Qed.

(** What [do_snapshot] does after a fetch that succeeded. *)
Lemma do_snapshot_fetched now pairs outdir w rows w1 :
  normalize_records pairs (isoformat_seconds now) = Ok rows →
  ensure_dir outdir w = (w1, Ok ()) →
  ∃ w2 w3 w4 r,
    same_store w1 w2
    ∧ write_rows cs (_daily_csv_path outdir now) rows w2 = (w3, r)
    ∧ do_snapshot cs now (Fetched pairs) outdir w = (w4, r)
    ∧ dirs w4 = dirs w3 ∧ files w4 = files w3.
Proof.
  intros Hn He. unfold do_snapshot.
  unfold mbind at 1. unfold M_bind at 1. unfold lift at 1. rewrite Hn.
  unfold mbind at 1. unfold M_bind at 1. rewrite He.
  unfold mbind at 1. unfold M_bind at 1.
  destruct (count_data_lines_eval (_daily_csv_path outdir now) w1)
    as (w2 & n & -> & Hs2).
  unfold mbind at 1. unfold M_bind at 1.
  destruct (write_rows cs (_daily_csv_path outdir now) rows w2)
    as [w3 [added|e]] eqn:Hw.
  - unfold mbind at 1. unfold M_bind at 1.
    destruct (count_data_lines_eval (_daily_csv_path outdir now) w3)
      as (w4 & n' & -> & (Hd4 & Hf4 & _)).
    exists w2, w3,
      (print (OkWrote (isoformat_seconds now) added
                (_daily_csv_path outdir now) n') w4).1, (Ok added).
    split; [exact Hs2|]. split; [exact Hw|]. split; [reflexivity|].
    by split.
  - exists w2, w3, w3, (Raise e).
    split; [exact Hs2|]. split; [exact Hw|]. by split.
Qed.

(** C6.  When the fetch fails, with an HTTP error, a transport error or
    any other exception, [do_snapshot] prints one line and returns 0: it
    raises nothing, makes no call to the file system and leaves files and
    directories as they are.  When the fetch succeeds and the rows are
    normalised and the output directory ensured, [do_snapshot] returns
    what the call of [write_rows] on the day's partition returns, the
    number of rows written, and the files are those [write_rows] left. *)
Theorem do_snapshot_outcomes (now : datetime) (outdir : list string)
    (w : world) :
  (∀ status_code,
     do_snapshot cs now (HTTPError status_code) outdir w
     = ((print (ErrorHTTP status_code) w).1, Ok 0))
  ∧ do_snapshot cs now RequestException outdir w
    = ((print ErrorRequestFailed w).1, Ok 0)
  ∧ do_snapshot cs now OtherException outdir w
    = ((print ErrorUnexpected w).1, Ok 0)
  ∧ (∀ msg, dirs (print msg w).1 = dirs w
            ∧ files (print msg w).1 = files w
            ∧ trace (print msg w).1 = trace w)
  ∧ (∀ pairs rows w1,
       normalize_records pairs (isoformat_seconds now) = Ok rows →
       ensure_dir outdir w = (w1, Ok ()) →
       ∃ w2 w3 w4 r,
         same_store w1 w2
         ∧ write_rows cs (_daily_csv_path outdir now) rows w2 = (w3, r)
         ∧ do_snapshot cs now (Fetched pairs) outdir w = (w4, r)
         ∧ dirs w4 = dirs w3 ∧ files w4 = files w3).
Proof.
  repeat split. intros pairs rows w1. apply do_snapshot_fetched.
Qed.

(** C8, as amended.  [write_rows] creates no directory: whatever it is
    called with, the directories after the call are those before it.
    Called with rows that are new (a batch that is not empty, with
    hashable keys, for a file that does not exist) while the directory
    that is to hold the file is missing, it fails and creates nothing:
    with [NotADirectoryError] when a regular file stands above the path,
    with [FileNotFoundError] otherwise.  It cannot fail for a missing
    directory when that directory exists already.  It is [do_snapshot]
    that ensures the output directory before it calls [write_rows], so
    that a snapshot into an output directory whose path is not empty never
    fails for a missing directory; with the empty path for the output
    directory, ensuring it fails for a directory that is not found. *)
Theorem directory_ensured_by_orchestrator :
  (∀ p rows w, dirs (write_rows cs p rows w).1 = dirs w)
  ∧ (∀ p rows keys w,
       rows ≠ [] → Forall2 (λ r k, dedup_key r = Ok k) rows keys →
       is_dir w p = false → is_file w p = false →
       parent_exists w p = false →
       (write_rows cs p rows w).2
       = Raise (if is_file w (dirname p) || under_file w p
                then NotADirectoryError else FileNotFoundError)
       ∧ files (write_rows cs p rows w).1 = files w)
  ∧ (∀ p rows w,
       parent_exists w p = true →
       (write_rows cs p rows w).2 ≠ Raise FileNotFoundError)
  ∧ (∀ now fetch outdir w,
       outdir ≠ [] →
       (do_snapshot cs now fetch outdir w).2 ≠ Raise FileNotFoundError)
  ∧ (∀ now pairs rows w,
       normalize_records pairs (isoformat_seconds now) = Ok rows →
       (do_snapshot cs now (Fetched pairs) [] w).2 = Raise FileNotFoundError
       ∧ files (do_snapshot cs now (Fetched pairs) [] w).1 = files w
       ∧ dirs (do_snapshot cs now (Fetched pairs) [] w).1 = dirs w).
Proof.
  assert (∀ p rows w, parent_exists w p = true →
    (write_rows cs p rows w).2 ≠ Raise FileNotFoundError) as Hwrite.
  { intros p rows w Hdir.
    destruct (write_rows_eval cs p rows w) as (w' & -> & _). cbn [snd].
    intros Hr. apply write_rows_effect_error in Hr as [Hr|[Hr|[[Hr _]|Hr]]];
      try done.
    by apply open_append_error_with_directory in Hr. }
  split; [|split; [|split; [|split]]].
  - intros p rows w. by destruct (write_rows_eval cs p rows w) as (w' & -> & ? & _).
  - intros p rows keys w Hne Hkeys Hd Hf Hpar.
    destruct (write_rows_no_directory w p rows keys Hne Hkeys Hd Hf Hpar)
      as (w' & -> & _ & _ & Hfiles). done.
  - done.
  - intros now fetch outdir w Hout. destruct fetch as [pairs| | |]; try done.
    destruct (normalize_records pairs (isoformat_seconds now)) as [rows|e] eqn:Hn.
    + destruct (ensure_dir_eval outdir w) as (w1 & r & He & _ & _ & Hr).
      destruct Hr as [(-> & Hdir)|Hr].
      * destruct (do_snapshot_fetched now pairs outdir w rows w1 Hn He)
          as (w2 & w3 & w4 & r & Hs & Hw & -> & _).
        cbn [snd]. intros ->.
        apply (Hwrite (_daily_csv_path outdir now) rows w2).
        -- apply is_dir_parent_exists. rewrite dirname_daily_csv_path.
           by rewrite (same_store_is_dir w1 w2).
        -- by rewrite Hw.
      * unfold do_snapshot, mbind, M_bind, lift. rewrite Hn, He.
        by destruct Hr as [-> | [-> | [_ ->]]].
    + unfold do_snapshot, mbind, M_bind, lift. rewrite Hn. cbn [snd].
      apply normalize_records_error in Hn as ->. done.
  - intros now pairs rows w Hn.
    unfold do_snapshot, mbind, M_bind, lift. rewrite Hn.
    unfold ensure_dir, mbind, M_bind, os_path_isdir, os_makedirs.
    assert (is_dir w [] = false) as ->; [|done].
    unfold is_dir. apply bool_decide_eq_false. by intros [? _].
Qed.

End Orchestrator.

(** Closed statements about concrete inputs are settled by evaluation. *)
Ltac by_evaluation :=
  cbv zeta;
  repeat match goal with |- _ ∧ _ => split end;
  vm_compute; (reflexivity || discriminate).

(** The scenario of the description: the record normalises to the row
    with the given fields, appending it reports 1 row, appending it again
    reports 0. *)
Example concrete_scenario :
  let row := default ∅ (rows_of [pair_P1] !! 0%nat) in
  length (rows_of [pair_P1]) = 1%nat
  ∧ cells_of braces row
    = [ "2024-01-01T00:00:00+00:00"; "P1"; "solana"; "raydium"; "";
        "FOO"; ""; "USDC"; ""; ""; "1.23"; ""; ""; ""; ""; ""; "10"; "4";
        ""; ""; ""; ""; ""; ""; ""; ""; ""; ""; "5000"; "" ]
  ∧ (write_rows braces partition (rows_of [pair_P1]) with_data_dir).2 = Ok 1
  ∧ (write_rows braces partition (rows_of [pair_P1])
       (write_rows braces partition (rows_of [pair_P1]) with_data_dir).1).2
    = Ok 0.
Proof. by_evaluation. Qed.

(** C1.  Appending the same list twice does not leave one copy of each
    row.  A record without [pairAddress] gives a row whose key is
    [(None, ts)]; it is written as an empty cell and read back as the key
    [("", ts)], which is not the key of the row, so that the second append
    of the same list finds the row new, writes it again and returns 1.
    The same happens to a record whose [pairAddress] is a number, read
    back as its numeral, also when the record comes through the fetcher
    in two snapshots of the same moment, and to the older script. *)
Lemma append_twice_repeats_row_without_pair_address :
  let rows := rows_of [pair_unnamed] in
  let w1 := (write_rows braces partition rows with_data_dir).1 in
  let w2 := (write_rows braces partition rows w1).1 in
  let rows' := rows_of [pair_numbered] in
  let v1 := (write_rows braces partition rows' with_data_dir).1 in
  let v2 := (write_rows braces partition rows' v1).1 in
  let net := [Returned (body [pair_numbered])] in
  let snapshot :=
    do_snapshot_fetching _ canned (λ s, s) braces new_year ["data"]
      ["solana"] "solana" None net in
  let s1 := (snapshot with_data_dir).2.1 in
  let raw := Returned (body [pair_unnamed]) in
  let o1 := (Script.snapshot_once braces new_year raw ["data"]
               with_data_dir).1 in
  (dedup_key <$> rows = [Ok (ANone, AStr "2024-01-01T00:00:00+00:00")]
   ∧ (write_rows braces partition rows with_data_dir).2 = Ok 1
   ∧ (write_rows braces partition rows w1).2 = Ok 1
   ∧ files w2 !! partition
     = Some (table_text (cells_of braces <$> rows ++ rows)))
  ∧ (dedup_key <$> rows' = [Ok (ANum 7, AStr "2024-01-01T00:00:00+00:00")]
     ∧ (write_rows braces partition rows' with_data_dir).2 = Ok 1
     ∧ (write_rows braces partition rows' v1).2 = Ok 1
     ∧ files v2 !! partition
       = Some (table_text (cells_of braces <$> rows' ++ rows')))
  ∧ ((snapshot with_data_dir).2.2 = Ok 1 ∧ (snapshot s1).2.2 = Ok 1)
  ∧ ((Script.snapshot_once braces new_year raw ["data"] with_data_dir).2
     = Ok (1, Script.OkWrote "2024-01-01T00:00:00+00:00" 1 partition)
     ∧ (Script.snapshot_once braces new_year raw ["data"] o1).2
       = Ok (1, Script.OkWrote "2024-01-01T00:00:00+00:00" 1 partition)).
Proof. by_evaluation. Qed.

(** C2.  A row whose key is on disk is appended again when the key has no
    [pairAddress], or a number for it: of the batches [P1; x] and [x; P2]
    the second writes both of its rows, and the file holds four rows, the
    shared one twice. *)
Lemma second_batch_repeats_row_without_pair_address :
  let batch_a := rows_of [pair_P1; pair_unnamed] in
  let batch_b := rows_of [pair_unnamed; pair_P2] in
  let w1 := (write_rows braces partition batch_a with_data_dir).1 in
  let w2 := (write_rows braces partition batch_b w1).1 in
  let batch_a' := rows_of [pair_P1; pair_numbered] in
  let batch_b' := rows_of [pair_numbered; pair_P2] in
  let v1 := (write_rows braces partition batch_a' with_data_dir).1 in
  let v2 := (write_rows braces partition batch_b' v1).1 in
  ((dedup_key <$> batch_a) ++ (dedup_key <$> batch_b)
   = [ Ok (AStr "P1", AStr "2024-01-01T00:00:00+00:00");
       Ok (ANone, AStr "2024-01-01T00:00:00+00:00");
       Ok (ANone, AStr "2024-01-01T00:00:00+00:00");
       Ok (AStr "P2", AStr "2024-01-01T00:00:00+00:00") ]
   ∧ (write_rows braces partition batch_a with_data_dir).2 = Ok 2
   ∧ (write_rows braces partition batch_b w1).2 = Ok 2
   ∧ files w2 !! partition
     = Some (table_text (cells_of braces <$> batch_a ++ batch_b)))
  ∧ ((dedup_key <$> batch_a') ++ (dedup_key <$> batch_b')
     = [ Ok (AStr "P1", AStr "2024-01-01T00:00:00+00:00");
         Ok (ANum 7, AStr "2024-01-01T00:00:00+00:00");
         Ok (ANum 7, AStr "2024-01-01T00:00:00+00:00");
         Ok (AStr "P2", AStr "2024-01-01T00:00:00+00:00") ]
     ∧ (write_rows braces partition batch_a' with_data_dir).2 = Ok 2
     ∧ (write_rows braces partition batch_b' v1).2 = Ok 2
     ∧ files v2 !! partition
       = Some (table_text (cells_of braces <$> batch_a' ++ batch_b'))).
Proof. by_evaluation. Qed.


(** C8 fails as stated: called for a path whose directory does not
    exist, [write_rows] creates no directory and the append fails. *)
Lemma write_rows_missing_directory :
  length (rows_of [pair_P1]) = 1%nat
  ∧ (write_rows braces partition (rows_of [pair_P1]) bare).2
    = Raise FileNotFoundError
  ∧ dirs (write_rows braces partition (rows_of [pair_P1]) bare).1 = ∅
  ∧ files (write_rows braces partition (rows_of [pair_P1]) bare).1 = ∅.
Proof. by_evaluation. Qed.

(** [rows_of] is the result of [normalize_records] on dictionaries. *)
Lemma rows_of_ok (ds : list (gmap string value)) :
  normalize_records (VDict <$> ds) (isoformat_seconds new_year)
  = Ok (rows_of ds).
Proof.
  unfold rows_of.
  by destruct (normalize_records_dicts ds (isoformat_seconds new_year))
    as (rows & -> & _).
Qed.

(** Rows of the concrete inputs can be written and read back. *)
Ltac storable_rows :=
  repeat first [apply Forall_nil_2 | apply Forall_cons_2];
  (split; [split; [unfold no_extra_fields; compute_done
                  |vm_compute; reflexivity]
          |vm_compute; reflexivity]).

(** X17 at three records, two of them the same pair. *)
Lemma append_twice_idempotent_witness :
  ∃ kept keys w1 w2,
    write_rows braces partition (rows_of [pair_P1; pair_P2; pair_P1])
      with_data_dir
    = (w1, Ok (Z.of_nat (length kept)))
    ∧ write_rows braces partition (rows_of [pair_P1; pair_P2; pair_P1]) w1
      = (w2, Ok 0)
    ∧ files w2 = files w1
    ∧ files w1 !! partition
      = match kept with
        | [] => None
        | _ :: _ => Some (table_text (cells_of braces <$> kept))
        end
    ∧ sublist kept (rows_of [pair_P1; pair_P2; pair_P1])
    ∧ Forall2 (λ r k, dedup_key r = Ok k) kept keys
    ∧ NoDup keys
    ∧ Forall (λ r, ∃ k, dedup_key r = Ok k ∧ k ∈ keys)
        (rows_of [pair_P1; pair_P2; pair_P1])
    ∧ Forall (λ r, ∃ i k,
        rows_of [pair_P1; pair_P2; pair_P1] !! i = Some r
        ∧ dedup_key r = Ok k
        ∧ ∀ j r', (j < i)%nat →
            rows_of [pair_P1; pair_P2; pair_P1] !! j = Some r' →
            dedup_key r' ≠ Ok k)
        kept.
Proof.
  apply (append_twice_idempotent braces with_data_dir partition
           [pair_P1; pair_P2; pair_P1] (isoformat_seconds new_year)
           (rows_of [pair_P1; pair_P2; pair_P1])).
  - reflexivity.
  - split; [reflexivity|]. right. split; reflexivity.
  - repeat constructor; eexists; vm_compute; reflexivity.
  - apply rows_of_ok.
  - storable_rows.
Defined.

(** C10 at a batch of two different records without [pairAddress]. *)
Lemma one_row_without_pair_address_witness :
  ∃ on_disk kept,
    (rows_of [pair_unnamed; pair_unnamed'] ≠ [] →
     existing_keys with_data_dir partition = Ok on_disk)
    ∧ dedup_loop on_disk (rows_of [pair_unnamed; pair_unnamed']) = Ok kept
    ∧ sublist kept (rows_of [pair_unnamed; pair_unnamed'])
    ∧ 1 = Z.of_nat (length kept)
    ∧ files (write_rows braces partition
               (rows_of [pair_unnamed; pair_unnamed']) with_data_dir).1
      = match kept with
        | [] => files with_data_dir
        | _ :: _ =>
            <[partition := start_text with_data_dir partition
                +:+ lines_text (cells_of braces <$> kept)]>
              (files with_data_dir)
        end
    ∧ ∀ i j r1 r2,
        kept !! i = Some r1 → kept !! j = Some r2 →
        dict_get r1 "pairAddress" = VNone →
        dict_get r2 "pairAddress" = VNone →
        dict_get r1 "snapshot_ts" = dict_get r2 "snapshot_ts" →
        dedup_key r1 = dedup_key r2 ∧ i = j.
Proof.
  apply (one_row_without_pair_address braces with_data_dir
           (write_rows braces partition
              (rows_of [pair_unnamed; pair_unnamed']) with_data_dir).1
           partition (rows_of [pair_unnamed; pair_unnamed']) 1).
  vm_compute. reflexivity.
Defined.

(** X18 at the batches [P1; P2] and [P2; P3]. *)
Lemma write_rows_appends_new_rows_witness :
  ∃ w1 w2,
    write_rows braces partition [row_of pair_P1; row_of pair_P2] with_data_dir
    = (w1, Ok 2)
    ∧ write_rows braces partition [row_of pair_P2; row_of pair_P3] w1
      = (w2, Ok 1)
    ∧ files w2 !! partition
      = Some (table_text
                (cells_of braces
                   <$> [row_of pair_P1; row_of pair_P2; row_of pair_P3])).
Proof.
  apply (proj2 (proj2 (write_rows_appends_new_rows braces))
           with_data_dir partition
           (row_of pair_P1) (row_of pair_P2) (row_of pair_P2) (row_of pair_P3)
           (AStr "P1", AStr "2024-01-01T00:00:00+00:00")
           (AStr "P2", AStr "2024-01-01T00:00:00+00:00")
           (AStr "P3", AStr "2024-01-01T00:00:00+00:00")).
  - reflexivity.
  - split; [reflexivity|]. right. split; reflexivity.
  - storable_rows.
  - repeat apply Forall_cons_2; try apply Forall_nil_2;
      eexists _, _; split; vm_compute; reflexivity.
  - repeat apply Forall2_cons_2; try apply Forall2_nil_2;
      vm_compute; reflexivity.
  - discriminate.
  - discriminate.
  - discriminate.
Defined.

(** X19 at a file of two rows whose last line lacks its terminator. *)
Lemma read_existing_keys_contract_witness :
  (read_existing_keys partition unterminated).2
  = Ok (list_to_set
          (disk_key <$> [cells_of braces (row_of pair_P1)]
                        ++ [cells_of braces (row_of pair_P2)])).
Proof.
  apply (proj1 (proj2 (proj2 (proj2 (proj2 (proj2
           (read_existing_keys_contract braces partition unterminated))))))
           [cells_of braces (row_of pair_P1)]
           (cells_of braces (row_of pair_P2))).
  - repeat apply Forall_cons_2; try apply Forall_nil_2; reflexivity.
  - vm_compute. reflexivity.
  - reflexivity.
Defined.

(** C5 at three calls, the second with an empty batch. *)
Lemma header_once_append_only_witness :
  extends braces
    (concat [rows_of [pair_P1; pair_unnamed]; []; rows_of [pair_unnamed; pair_P2]])
    None
    (files (append_calls braces partition
              [rows_of [pair_P1; pair_unnamed]; []; rows_of [pair_unnamed; pair_P2]]
              with_data_dir) !! partition).
Proof.
  apply (proj1 (proj2 (header_once_append_only braces partition))
           with_data_dir
           [rows_of [pair_P1; pair_unnamed]; []; rows_of [pair_unnamed; pair_P2]]).
  reflexivity.
Defined.

(** C6 at a successful fetch of two pairs, in a world where the output
    directory is still to be made. *)
Lemma do_snapshot_outcomes_witness :
  ∃ w2 w3 w4 r,
    same_store (ensure_dir ["data"] bare).1 w2
    ∧ write_rows braces (_daily_csv_path ["data"] new_year)
        (rows_of [pair_P1; pair_P2]) w2 = (w3, r)
    ∧ do_snapshot braces new_year (Fetched (VDict <$> [pair_P1; pair_P2]))
        ["data"] bare = (w4, r)
    ∧ dirs w4 = dirs w3 ∧ files w4 = files w3.
Proof.
  apply (proj2 (proj2 (proj2 (proj2
           (do_snapshot_outcomes braces new_year ["data"] bare))))
           (VDict <$> [pair_P1; pair_P2]) (rows_of [pair_P1; pair_P2])
           (ensure_dir ["data"] bare).1).
  - apply rows_of_ok.
  - vm_compute. reflexivity.
Defined.

(** The amended C8: a call for a path whose directory is missing, a call
    for a path whose directory exists, and a snapshot in a world where the
    output directory is still to be made. *)
Lemma directory_ensured_by_orchestrator_witness :
  ((write_rows braces partition (rows_of [pair_P1]) bare).2
   = Raise (if is_file bare (dirname partition) || under_file bare partition
            then NotADirectoryError else FileNotFoundError)
   ∧ files (write_rows braces partition (rows_of [pair_P1]) bare).1
     = files bare)
  ∧ (write_rows braces partition (rows_of [pair_P1]) with_data_dir).2
    ≠ Raise FileNotFoundError
  ∧ (do_snapshot braces new_year (Fetched [VDict pair_P1]) ["data"] bare).2
    ≠ Raise FileNotFoundError.
Proof.
  split; [|split].
  - apply (proj1 (proj2 (directory_ensured_by_orchestrator braces))
             partition (rows_of [pair_P1])
             [(AStr "P1", AStr "2024-01-01T00:00:00+00:00")] bare).
    + discriminate.
    + repeat apply Forall2_cons_2; try apply Forall2_nil_2;
        vm_compute; reflexivity.
    + reflexivity.
    + reflexivity.
    + reflexivity.
  - apply (proj1 (proj2 (proj2 (directory_ensured_by_orchestrator braces)))
             partition (rows_of [pair_P1]) with_data_dir).
    reflexivity.
  - apply (proj1 (proj2 (proj2 (proj2
             (directory_ensured_by_orchestrator braces))))
             new_year (Fetched [VDict pair_P1]) ["data"] bare).
    discriminate.
Defined.

(** ** The fetchers *)

Lemma merge_pairs_app ps1 : ∀ ps2 seen merged,
  merge_pairs (ps1 ++ ps2) seen merged
  = rbind (merge_pairs ps1 seen merged) (λ sm, merge_pairs ps2 sm.1 sm.2).
Proof.
  induction ps1 as [|p ps1 IH]; intros ps2 seen merged; [done|].
  cbn [app merge_pairs]. destruct p; try done.
  destruct (py_truthy _); [|apply IH].
  destruct (py_hash _) as [a|e]; [|done]. cbn [rbind].
  case_decide; apply IH.
Qed.

Lemma merge_pairs_kept ps : ∀ seen merged seen' merged',
  merge_pairs ps seen merged = Ok (seen', merged') →
  ∃ new addrs,
    merged' = merged ++ new
    ∧ sublist new ps
    ∧ Forall2 addressed new addrs
    ∧ NoDup addrs
    ∧ (∀ a, a ∈ addrs → a ∉ seen)
    ∧ seen' = list_to_set addrs ∪ seen
    ∧ Forall (λ p, py_truthy (pair_address p) = true →
                   ∃ a, py_hash (pair_address p) = Ok a ∧ a ∈ seen') ps.
Proof.
  induction ps as [|p ps IH]; intros seen merged seen' merged' Hm.
  - injection Hm as <- <-. exists [], []. rewrite app_nil_r.
    repeat split; try constructor; set_solver.
  - cbn [merge_pairs] in Hm. destruct p as [| | | | |d]; try done.
    destruct (py_truthy (dict_get d "pairAddress")) eqn:Ht.
    + destruct (py_hash (dict_get d "pairAddress")) as [a|e] eqn:Ha; [|done].
      cbn [rbind] in Hm. destruct (decide (a ∈ seen)) as [Hin|Hout].
      * destruct (IH _ _ _ _ Hm)
          as (new & addrs & -> & Hsub & Hadr & Hnd & Hfresh & -> & Hcov).
        exists new, addrs. repeat split; try done.
        -- by apply sublist_cons.
        -- constructor; [|done]. intros _. exists a. split; [done|set_solver].
      * destruct (IH _ _ _ _ Hm)
          as (new & addrs & -> & Hsub & Hadr & Hnd & Hfresh & -> & Hcov).
        exists (VDict d :: new), (a :: addrs). repeat split.
        -- by rewrite <- app_assoc.
        -- by apply sublist_skip.
        -- constructor; [|done]. repeat split; [by eexists|done|done].
        -- constructor; [|done]. intros Hin. apply Hfresh in Hin. set_solver.
        -- intros a' Hin. apply elem_of_cons in Hin as [->|Hin]; [done|].
           apply Hfresh in Hin. set_solver.
        -- set_solver.
        -- constructor; [|done]. intros _. exists a. split; [done|set_solver].
    + destruct (IH _ _ _ _ Hm)
        as (new & addrs & -> & Hsub & Hadr & Hnd & Hfresh & -> & Hcov).
      exists new, addrs. repeat split; try done.
      * by apply sublist_cons.
      * constructor; [|done]. cbn [pair_address]. by rewrite Ht.
Qed.

Lemma merge_pairs_merged_from out seen merged :
  merge_pairs out ∅ [] = Ok (seen, merged) → merged_from out merged.
Proof.
  intros Hm.
  destruct (merge_pairs_kept _ _ _ _ _ Hm)
    as (new & addrs & -> & Hsub & Hadr & Hnd & _ & -> & Hcov).
  split; [done|]. exists addrs. repeat split; try done.
  eapply Forall_impl; [exact Hcov|]. intros p Hp Ht.
  destruct (Hp Ht) as (a & Ha & Hin). exists a. split; [done|set_solver].
Qed.

Section FetchProperties.

Variable net : Type.
Variable http_get_json :
  string → option (list (string * string)) → net → net * outcome value.
Variable quote : string → string.

Lemma search_loop_responses queries : ∀ seen merged n n' pairs,
  search_loop net http_get_json queries seen merged n = (n', Returned pairs) →
  ∃ out seen',
    search_responses net http_get_json queries n = (n', Returned out)
    ∧ merge_pairs out seen merged = Ok (seen', pairs).
Proof.
  induction queries as [|q queries IH]; intros seen merged n n' pairs Hs.
  - injection Hs as <- <-. by exists [], seen.
  - cbn [search_loop search_responses] in *. case_bool_decide; [by apply IH|].
    destruct (http_get_json _ _ n) as [n1 [data|e]]; [|done].
    destruct (pairs_of data) as [ps|e]; [|done]. cbn [rbind] in Hs.
    destruct (merge_pairs ps seen merged) as [[seen1 merged1]|e] eqn:Hm; [|done].
    destruct (IH _ _ _ _ _ Hs) as (out & seen' & -> & Hout).
    exists (ps ++ out), seen'. split; [done|].
    by rewrite merge_pairs_app, Hm.
Qed.

(** X1.  When [fetch_pairs_by_search_queries] returns, the pairs it
    returns are those of the responses to all the queries, merged: kept
    in the order received, each a dictionary with a truthy [pairAddress],
    no two with the same address, and no address received is missing. *)
Theorem search_merges_responses (queries : list string) (n n' : net)
    (pairs : list value) :
  fetch_pairs_by_search_queries net http_get_json queries n
  = (n', Returned pairs) →
  ∃ out,
    search_responses net http_get_json queries n = (n', Returned out)
    ∧ merged_from out pairs.
Proof.
  intros Hf. apply search_loop_responses in Hf as (out & seen & Hout & Hm).
  exists out. split; [done|]. by eapply merge_pairs_merged_from.
Qed.


End FetchProperties.

(** ** Cleaning the lists of the command line *)

Lemma lstrip_starts_clean s : starts_clean (lstrip s).
Proof.
  induction s as [|c s IH]; [done|]. cbn [lstrip].
  by destruct (py_isspace c) eqn:Hc.
Qed.

Lemma lstrip_clean s : starts_clean s → lstrip s = s.
Proof. destruct s as [|c s]; [done|]. cbn. by intros ->. Qed.

Lemma rstrip_cons c s :
  rstrip (String c s)
  = match rstrip s with
    | EmptyString => if py_isspace c then "" else String c ""
    | t => String c t
    end.
Proof. reflexivity. Qed.

Lemma rstrip_starts_clean s : starts_clean s → starts_clean (rstrip s).
Proof.
  destruct s as [|c s]; [done|]. rewrite rstrip_cons. cbn [starts_clean].
  intros Hc. destruct (rstrip s); by rewrite ?Hc.
Qed.

Lemma rstrip_idempotent s : rstrip (rstrip s) = rstrip s.
Proof.
  induction s as [|c s IH]; [done|]. rewrite rstrip_cons.
  destruct (rstrip s) as [|c' t] eqn:Ht.
  - destruct (py_isspace c) eqn:Hc; [done|]. rewrite rstrip_cons. cbn [rstrip].
    by rewrite Hc.
  - rewrite rstrip_cons. by rewrite IH.
Qed.

Lemma strip_idempotent s : strip (strip s) = strip s.
Proof.
  unfold strip.
  rewrite (lstrip_clean (rstrip (lstrip s))).
  - apply rstrip_idempotent.
  - apply rstrip_starts_clean, lstrip_starts_clean.
Qed.

Lemma has_char_lstrip c s : has_char c s = false → has_char c (lstrip s) = false.
Proof.
  induction s as [|c' s IH]; [done|]. cbn [has_char lstrip]. intros Hs.
  apply orb_false_iff in Hs as [Hc Hs].
  destruct (py_isspace c'); [by apply IH|]. cbn [has_char]. by rewrite Hc, Hs.
Qed.

Lemma has_char_rstrip c s : has_char c s = false → has_char c (rstrip s) = false.
Proof.
  induction s as [|c' s IH]; [done|]. rewrite rstrip_cons. cbn [has_char].
  intros Hs. apply orb_false_iff in Hs as [Hc Hs]. specialize (IH Hs).
  destruct (rstrip s) as [|c'' t].
  - destruct (py_isspace c'); [done|]. cbn [has_char]. by rewrite Hc.
  - cbn [has_char] in *. by rewrite Hc, IH.
Qed.

Lemma split_no_separator sep s : Forall (λ x, has_char sep x = false) (split sep s).
Proof.
  induction s as [|c s IH]; [by repeat constructor|]. cbn [split].
  destruct (Ascii.eqb c sep) eqn:Hc; [by constructor|].
  destruct (split sep s) as [|hd tl]; [by repeat constructor; cbn; rewrite Hc|].
  apply Forall_cons in IH as [Hhd Htl]. constructor; [|done].
  cbn [has_char]. by rewrite Hc, Hhd.
Qed.

Lemma clean_list_clean s :
  Forall (λ x, x ≠ "" ∧ strip x = x ∧ has_char "," x = false) (clean_list s).
Proof.
  unfold clean_list. apply Forall_forall. intros x Hx.
  apply list_elem_of_filter in Hx as [Hne Hx].
  apply list_elem_of_fmap in Hx as (y & -> & Hy).
  split; [done|]. split; [apply strip_idempotent|].
  pose proof (split_no_separator "," s) as Hs. rewrite Forall_forall in Hs.
  unfold strip. by apply has_char_rstrip, has_char_lstrip, Hs.
Qed.

Section Cleaning.

Variable net : Type.
Variable http_get_json :
  string → option (list (string * string)) → net → net * outcome value.

Lemma search_loop_cleaned queries : ∀ seen merged n,
  search_loop net http_get_json (filter (λ x, x ≠ "") (strip <$> queries))
    seen merged n
  = search_loop net http_get_json queries seen merged n.
Proof.
  induction queries as [|q queries IH]; intros seen merged n; [done|].
  cbn [fmap list_fmap]. destruct (decide (strip q = "")) as [Hq|Hq].
  - rewrite filter_cons_False by (by intros ?).
    cbn [search_loop]. rewrite bool_decide_true by done. apply IH.
  - rewrite filter_cons_True by done. cbn [search_loop].
    rewrite strip_idempotent. rewrite bool_decide_false by done.
    destruct (http_get_json _ _ n) as [n1 [data|e]]; [|done].
    destruct (rbind _ _) as [[seen1 merged1]|e]; [|done]. apply IH.
Qed.

(** X3.  The queries [main] makes of the option [--queries] are not
    empty, carry no white space at either end and no comma; the fetch
    strips and skips on its own, so that it does on them exactly what it
    does on the raw pieces of the option. *)
Theorem main_queries_are_clean (queries : string) :
  Forall (λ q, q ≠ "" ∧ strip q = q ∧ has_char "," q = false)
    (main_queries queries)
  ∧ ∀ n, fetch_pairs_by_search_queries net http_get_json (main_queries queries) n
         = fetch_pairs_by_search_queries net http_get_json (split "," queries) n.
Proof.
  split; [apply clean_list_clean|]. intros n. apply search_loop_cleaned.
Qed.

End Cleaning.

(** ** A snapshot with its fetch *)

(** A row whose key is hashable. *)
Lemma merged_from_dicts out merged :
  merged_from out merged →
  Forall (λ p, ∃ d a, p = VDict d ∧ py_hash (dict_get d "pairAddress") = Ok a)
    merged.
Proof.
  intros (_ & addrs & Hadr & _). induction Hadr as [|p a ps addrs Hp _ IH];
    constructor; [|done].
  destruct Hp as ([d ->] & _ & Ha). by exists d, a.
Qed.

Lemma normalize_records_fetched pairs ts :
  Forall (λ p, ∃ d a, p = VDict d ∧ py_hash (dict_get d "pairAddress") = Ok a)
    pairs →
  ∃ rows, normalize_records pairs ts = Ok rows
    ∧ Forall no_extra_fields rows
    ∧ Forall (λ r, ∃ k, dedup_key r = Ok k) rows.
Proof.
  unfold normalize_records.
  induction 1 as [|p pairs (d & a & -> & Ha) _ (rows & Hrows & Hne & Hk)].
  - by exists [].
  - destruct (normalize_record_dict d ts)
      as (row & Hrow & Hdom & Hts & Hpa & _).
    exists (row :: rows). cbn [for_each]. rewrite Hrow. cbn [rbind].
    rewrite Hrows. cbn [rbind]. split; [done|]. split.
    + constructor; [|done]. unfold no_extra_fields. by rewrite Hdom.
    + constructor; [|done]. exists (a, AStr ts).
      unfold dedup_key.
      assert (dict_get row "pairAddress" = dict_get d "pairAddress") as ->
        by (unfold dict_get at 1; by rewrite Hpa).
      assert (dict_get row "snapshot_ts" = VStr ts) as ->
        by (unfold dict_get; by rewrite Hts).
      by rewrite Ha.
Qed.

Section Snapshot.

Variable net : Type.
Variable http_get_json :
  string → option (list (string * string)) → net → net * outcome value.
Variable quote : string → string.
Variable cs : value → string.

Lemma fetchers_return_dicts queries chain_id pair_ids_csv n pairs :
  (try_fetch net http_get_json quote queries chain_id pair_ids_csv n).2
  = Fetched pairs →
  Forall (λ p, ∃ d a, p = VDict d ∧ py_hash (dict_get d "pairAddress") = Ok a)
    pairs.
Proof.
  unfold try_fetch. cbn [snd].
  assert (∀ n' ps,
    fetch_pairs_by_search_queries net http_get_json queries n
    = (n', Returned ps) →
    Forall (λ p, ∃ d a, p = VDict d ∧ py_hash (dict_get d "pairAddress") = Ok a)
      ps) as Hsearch.
  { intros n' ps Hf.
    apply search_loop_responses in Hf as (out & seen & _ & Hm).
    by eapply merged_from_dicts, merge_pairs_merged_from. }
  assert (∀ ids n' ps,
    fetch_pairs_by_ids net http_get_json quote chain_id ids n
    = (n', Returned ps) →
    Forall (λ p, ∃ d a, p = VDict d ∧ py_hash (dict_get d "pairAddress") = Ok a)
      ps) as Hids.
  { intros ids n' ps. unfold fetch_pairs_by_ids.
    destruct (ids_loop _ _ _ _ _ _ n) as [n1 [out|e]]; [|done].
    destruct (merge_pairs out ∅ []) as [[seen merged]|e] eqn:Hm; [|done].
    cbn. intros [= <- <-].
    by eapply merged_from_dicts, merge_pairs_merged_from. }
  destruct pair_ids_csv as [[|c ids]|].
  - destruct (fetch_pairs_by_search_queries _ _ _ n) as [n' [ps|[]]] eqn:Hf;
      cbn [snd]; try done. intros [= <-]. by eapply Hsearch.
  - destruct (fetch_pairs_by_ids _ _ _ _ _ n) as [n' [ps|[]]] eqn:Hf;
      cbn [snd]; try done. intros [= <-]. by eapply Hids.
  - destruct (fetch_pairs_by_search_queries _ _ _ n) as [n' [ps|[]]] eqn:Hf;
      cbn [snd]; try done. intros [= <-]. by eapply Hsearch.
Qed.

(** How [write_rows] can fail on rows with hashable keys: in writing a
    value that has no text, in reading the keys of the file that is
    there, or in opening the file. *)
Lemma write_rows_failures p rows w e :
  Forall (λ r, ∃ k, dedup_key r = Ok k) rows →
  (write_rows cs p rows w).2 = Raise e →
  e = ValueError ∨ (e = CsvError ∧ is_file w p = true)
  ∨ open_append_error w p = Some e.
Proof.
  intros Hk. destruct (write_rows_eval cs p rows w) as (w' & -> & _).
  cbn [snd]. unfold write_rows_effect.
  destruct rows as [|r0 rows]; [done|].
  destruct (existing_keys w p) as [keys|e'] eqn:Hkeys; cbn [rbind].
  - destruct (dedup_loop_total (r0 :: rows) keys Hk) as [kept ->].
    destruct kept as [|k0 kept]; [done|].
    destruct (open_append_error w p) as [e0|]; cbn [snd].
    + intros [= <-]. by right; right.
    + destruct (converted_result cs (k0 :: kept)) as [-> | ->]; [done|].
      intros [= <-]. by left.
  - cbn [snd]. intros [= <-]. right; left.
    pose proof (existing_keys_error _ _ _ Hkeys) as ->. split; [done|].
    unfold existing_keys in Hkeys. unfold is_file. apply bool_decide_eq_true.
    by destruct (files w !! p).
Qed.

Lemma open_append_error_kinds w p e :
  open_append_error w p = Some e →
  e = IsADirectoryError ∨ e = NotADirectoryError ∨ e = FileNotFoundError.
Proof.
  unfold open_append_error.
  destruct (is_dir w p), (is_file w p), (is_file w (dirname p)),
    (parent_exists w p), (under_file w p); naive_solver.
Qed.

(** How a snapshot can fail once the fetch has returned pairs that are
    dictionaries with hashable addresses. *)
Lemma do_snapshot_good now pairs outdir w e :
  Forall (λ p, ∃ d a, p = VDict d ∧ py_hash (dict_get d "pairAddress") = Ok a)
    pairs →
  (do_snapshot cs now (Fetched pairs) outdir w).2 = Raise e →
  e = FileExistsError ∨ e = NotADirectoryError ∨ e = IsADirectoryError
  ∨ e = ValueError
  ∨ (e = FileNotFoundError ∧ outdir = [])
  ∨ (e = CsvError ∧ is_file w (_daily_csv_path outdir now) = true).
Proof.
  intros Hpairs.
  destruct (normalize_records_fetched pairs (isoformat_seconds now) Hpairs)
    as (rows & Hn & Hne & Hk).
  destruct (ensure_dir_eval outdir w) as (w1 & r & He & Hf1 & _ & Hr).
  destruct Hr as [(-> & Hdir)|Hr].
  - destruct (do_snapshot_fetched cs now pairs outdir w rows w1 Hn He)
      as (w2 & w3 & w4 & r & Hs & Hw & -> & _). cbn [snd].
    intros ->.
    pose proof (write_rows_failures (_daily_csv_path outdir now) rows w2 e Hk)
      as Hfail.
    rewrite Hw in Hfail.
    destruct (Hfail eq_refl) as [-> | [[-> Hfile] | Herr]]; [tauto| |].
    + do 5 right. split; [done|].
      rewrite (same_store_is_file w1 w2) in Hfile by done.
      unfold is_file in *. by rewrite Hf1 in Hfile.
    + destruct (open_append_error_kinds _ _ _ Herr) as [-> | [-> | ->]];
        [tauto|tauto|].
      exfalso. revert Herr. apply open_append_error_with_directory.
      apply is_dir_parent_exists.
      rewrite dirname_daily_csv_path. by rewrite (same_store_is_dir w1 w2).
  - unfold do_snapshot, mbind, M_bind, lift. rewrite Hn, He. cbn [snd].
    destruct Hr as [-> | [-> | [-> ->]]]; intros [= <-]; tauto.
Qed.

(** X4.  A snapshot with its fetch, whatever the network answers, never
    fails on the shape of the data: whatever the responses hold, it raises
    neither [AttributeError] nor [TypeError].  It fails for a directory
    that is not found only when the path of the output directory is empty,
    and with the error of the csv module only when the partition file was
    there before the snapshot. *)
Theorem snapshot_never_fails_on_shape (now : datetime)
    (outdir queries : list string) (chain_id : string)
    (pair_ids_csv : option string) (n : net) (w : world) (e : exn) :
  (do_snapshot_fetching net http_get_json quote cs now outdir queries
     chain_id pair_ids_csv n w).2.2 = Raise e →
  e ≠ AttributeError ∧ e ≠ TypeError
  ∧ (e = FileNotFoundError → outdir = [])
  ∧ (e = CsvError → is_file w (_daily_csv_path outdir now) = true).
Proof.
  unfold do_snapshot_fetching. cbn [snd].
  destruct (try_fetch net http_get_json quote queries chain_id pair_ids_csv n).2
    as [pairs|code| |] eqn:Hf; [|done..].
  intros He. apply do_snapshot_good in He; [|by eapply fetchers_return_dicts].
  destruct He as [-> | [-> | [-> | [-> | [[-> ->] | [-> ?]]]]]];
    by repeat split.
Qed.

End Snapshot.

(** ** The output directory and the path of the partition *)

Lemma makedirs_from_ok rest : ∀ base w,
  (makedirs_from base rest w).2 = Ok ()
  ↔ ∀ q, q ≠ [] → q `prefix_of` rest → is_file w (base ++ q) = false.
Proof.
  induction rest as [|c rest IH]; intros base w.
  - split; [|done]. intros _ q Hq Hpre. apply prefix_nil_inv in Hpre. done.
  - cbn [makedirs_from]. destruct (is_file w (base ++ [c])) eqn:Hf.
    + split; [by destruct rest|]. intros Hall.
      rewrite (Hall [c]) in Hf; [done|done|]. by exists rest.
    + rewrite IH. cbn [is_file files]. unfold is_file in *. split.
      * intros Hall q Hq [k Hk]. destruct q as [|c' q]; [done|].
        injection Hk as -> ->.
        destruct q as [|c'' q]; [done|].
        specialize (Hall (c'' :: q)). rewrite <- app_assoc in Hall.
        apply Hall; [done|]. by exists k.
      * intros Hall q Hq [k ->]. specialize (Hall (c :: q)).
        rewrite <- app_assoc. apply Hall; [done|]. by exists k.
Qed.

Lemma ensure_dir_dirs p w :
  dirs w ⊆ dirs (ensure_dir p w).1.
Proof.
  unfold ensure_dir, mbind, M_bind, os_path_isdir.
  destruct (is_dir w p); cbn [negb]; [done|]. unfold os_makedirs.
  destruct p as [|c p]; [done|].
  destruct (makedirs_from_eval (c :: p) []
              (called (SysMakedirs (c :: p)) (called (SysIsdir (c :: p)) w)))
    as (w' & r & -> & _ & _ & _ & Hd).
  by destruct r.
Qed.

(** X5.  [ensure_dir] changes no file and removes no directory.  It
    returns normally exactly when the directory exists already, or its
    path is not empty and no file stands in the place of the directory or
    of one above it; the directory then exists, and a second call finds it
    and does nothing.  For the empty path it fails: the directory is not
    found.  When the directory exists already the call only tests for
    it. *)
Theorem ensure_dir_makes_the_directory (p : list string) (w : world) :
  files (ensure_dir p w).1 = files w
  ∧ dirs w ⊆ dirs (ensure_dir p w).1
  ∧ ((ensure_dir p w).2 = Ok ()
     ↔ is_dir w p = true
       ∨ (p ≠ [] ∧ ∀ q, q ≠ [] → q `prefix_of` p → is_file w q = false))
  ∧ (p = [] → (ensure_dir p w).2 = Raise FileNotFoundError)
  ∧ ((ensure_dir p w).2 = Ok () →
     is_dir (ensure_dir p w).1 p = true
     ∧ ensure_dir p (ensure_dir p w).1
       = (called (SysIsdir p) (ensure_dir p w).1, Ok ()))
  ∧ (is_dir w p = true → ensure_dir p w = (called (SysIsdir p) w, Ok ())).
Proof.
  assert (∀ w0, is_dir w0 p = true →
    ensure_dir p w0 = (called (SysIsdir p) w0, Ok ())) as Hexists.
  { intros w0 Hd. unfold ensure_dir, mbind, M_bind, os_path_isdir.
    by rewrite Hd. }
  assert (is_dir w [] = false) as Hempty.
  { unfold is_dir. apply bool_decide_eq_false. by intros [? _]. }
  destruct (ensure_dir_eval p w) as (w' & r & He & Hf & _ & Hr).
  split; [by rewrite He|]. split; [apply ensure_dir_dirs|].
  split; [|split; [|split; [|apply Hexists]]].
  - destruct (is_dir w p) eqn:Hd.
    + rewrite Hexists by done. split; [by left|done].
    + unfold ensure_dir, mbind, M_bind, os_path_isdir. rewrite Hd.
      cbn [negb]. unfold os_makedirs. destruct p as [|c p].
      { cbn [snd]. split; [done|]. by intros [?|[? _]]. }
      rewrite makedirs_from_ok.
      split; [by right|]. by intros [?|[_ ?]].
  - intros ->. unfold ensure_dir, mbind, M_bind, os_path_isdir.
    by rewrite Hempty.
  - rewrite He. cbn [fst snd]. intros ->.
    destruct Hr as [[_ Hd]|[?|[?|[? _]]]]; [|done..]. split; [done|].
    by apply Hexists.
Qed.

Lemma sapp_inj_r s t suffix : s +:+ suffix = t +:+ suffix → s = t.
Proof.
  revert t. induction s as [|c s IH]; intros [|c' t] Heq; [done| | |].
  - apply (f_equal String.length) in Heq.
    rewrite sapp_nil_l, sapp_cons in Heq. cbn in Heq.
    rewrite slength_app in Heq. lia.
  - apply (f_equal String.length) in Heq.
    rewrite sapp_nil_l, sapp_cons in Heq. cbn in Heq.
    rewrite slength_app in Heq. lia.
  - rewrite !sapp_cons in Heq. injection Heq as -> Heq. f_equal. by apply IH.
Qed.

(** X6.  [_daily_csv_path] puts the partition directly in the output
    directory, one file per day: two paths are the same exactly when the
    output directories are and the dates read the same as year, month and
    day. *)
Theorem daily_csv_path_one_per_day (outdir1 outdir2 : list string)
    (date1 date2 : datetime) :
  (_daily_csv_path outdir1 date1 = _daily_csv_path outdir2 date2
   ↔ outdir1 = outdir2 ∧ strftime_Ymd date1 = strftime_Ymd date2)
  ∧ dirname (_daily_csv_path outdir1 date1) = outdir1.
Proof.
  split; [|apply dirname_daily_csv_path]. unfold _daily_csv_path. split.
  - intros Heq. apply app_inj_tail in Heq as [-> Heq]. split; [done|].
    apply (inj (String.append _)) in Heq. by apply sapp_inj_r in Heq.
  - by intros [-> ->].
Qed.

(** ** The table over any number of appends *)

Section Table.

Variable cs : value → string.

Lemma table_of_keys w p rs keys :
  table_of cs w p rs keys → existing_keys w p = Ok (list_to_set keys).
Proof.
  intros (Hf & Hsk & Hsm & Hk & _ & _). destruct rs as [|r rs].
  - apply Forall2_nil_inv_l in Hk as ->. by apply existing_keys_absent.
  - by eapply existing_keys_table.
Qed.

Lemma appendable_same w w' p :
  dirs w' = dirs w → files w' = files w → appendable w p → appendable w' p.
Proof.
  unfold appendable, parent_exists, is_dir, is_file. by intros -> ->.
Qed.

Lemma all_small_app records1 records2 :
  all_small (records1 ++ records2)
  = all_small records1 && all_small records2.
Proof. unfold all_small. apply forallb_app. Qed.

(** One more batch on a table. *)
Lemma table_of_write_rows w p rs keys rows :
  table_of cs w p rs keys →
  Forall string_keyed rows → Forall (storable cs) rows →
  ∃ kept dkeys w',
    write_rows cs p rows w = (w', Ok (Z.of_nat (length kept)))
    ∧ table_of cs w' p (rs ++ kept) (keys ++ dkeys)
    ∧ sublist kept rows
    ∧ Forall (λ r, ∃ k, dedup_key r = Ok k ∧ k ∈ keys ++ dkeys) rows.
Proof.
  intros Htab Hsk Hst. pose proof (table_of_keys _ _ _ _ Htab) as Hkeys.
  destruct Htab as (Hf & Hrs & Hsm & Hk & Hnd & Happ).
  destruct (dedup_loop_total rows (list_to_set keys)) as [kept Hkept].
  { eapply Forall_impl; [exact Hsk|]. intros r Hr.
    destruct (string_keyed_key cs r Hr) as (k & Hk' & _). eauto. }
  destruct (dedup_loop_kept _ _ _ Hkept)
    as (dkeys & Hdk & Hdnd & Hfresh & Hsub & Hcover).
  assert (Forall (storable cs) kept) as Hkst by by eapply Forall_of_sublist.
  destruct (write_rows_kept cs w p rows _ kept Hkeys Hkept Happ)
    as (w' & Hw & Hd & _ & Hf').
  { eapply Forall_impl; [exact Hkst|]. apply storable_writable. }
  exists kept, dkeys, w'. split; [done|]. split; [|split; [done|]].
  - assert (Forall string_keyed kept) as Hks by by eapply Forall_of_sublist.
    split; [|split; [by apply Forall_app|split;
      [|split; [by apply Forall2_app|split]]]].
    + destruct kept as [|k0 kept].
      * rewrite app_nil_r. by rewrite Hf'.
      * rewrite Hf', lookup_insert_eq. destruct rs as [|r rs].
        -- by rewrite start_text_absent.
        -- rewrite (start_text_present _ _ _ Hf), table_text_app.
           by rewrite fmap_app.
    + rewrite fmap_app, all_small_app, Hsm. by rewrite storable_small.
    + apply NoDup_app. split; [done|]. split; [|done].
      intros k Hin Hin'. apply Hfresh in Hin'. apply Hin'.
      by apply elem_of_list_to_set.
    + destruct kept as [|k0 kept].
      * by eapply appendable_same.
      * eapply appendable_after; [done| |done].
        rewrite Hf', lookup_insert_eq. by eexists.
  - eapply Forall_impl; [exact Hcover|]. intros r (k & Hk' & Hor).
    exists k. split; [done|]. apply elem_of_app.
    destruct Hor as [Hin|Hin]; [left|by right].
    by apply elem_of_list_to_set in Hin.
Qed.

Lemma table_of_append_calls p batches : ∀ w rs keys,
  table_of cs w p rs keys →
  Forall (Forall (λ r, string_keyed r ∧ storable cs r)) batches →
  ∃ rs' keys',
    table_of cs (append_calls cs p batches w) p (rs ++ rs') (keys ++ keys')
    ∧ sublist rs' (concat batches)
    ∧ Forall (λ r, ∃ k, dedup_key r = Ok k ∧ k ∈ keys ++ keys')
        (concat batches).
Proof.
  induction batches as [|rows batches IH]; intros w rs keys Htab Hall.
  - exists [], []. rewrite !app_nil_r. cbn [append_calls concat].
    split; [done|]. split; [done|]. apply Forall_nil_2.
  - apply Forall_cons in Hall as [Hrows Hall].
    apply Forall_and in Hrows as [Hsk Hne].
    destruct (table_of_write_rows w p rs keys rows Htab Hsk Hne)
      as (kept & dkeys & w' & Hw & Htab' & Hsub & Hcover).
    cbn [append_calls concat]. rewrite Hw. cbn [fst].
    destruct (IH w' _ _ Htab' Hall) as (rs' & keys' & Htab'' & Hsub' & Hcover').
    exists (kept ++ rs'), (dkeys ++ keys'). rewrite !app_assoc.
    split; [done|]. split; [by apply sublist_app|].
    apply Forall_app. split; [|done].
    eapply Forall_impl; [exact Hcover|]. intros r (k & Hk & Hin).
    exists k. split; [done|]. apply elem_of_app. by left.
Qed.

(** X7.  Starting from an absent partition that can be created, after
    any sequence of calls of [write_rows] with rows that have string keys,
    can be written and have no cell longer than the reader accepts, the
    file holds one line for each distinct key among all the rows given,
    that of a row with the key, in the order given, and no key twice;
    [read_existing_keys] reads back exactly these keys. *)
Theorem table_keys_stay_unique (w : world) (p : list string)
    (batches : list (list (gmap string value))) :
  files w !! p = None → appendable w p →
  Forall (Forall (λ r, string_keyed r ∧ storable cs r)) batches →
  ∃ rs keys,
    sublist rs (concat batches)
    ∧ Forall2 (λ r k, dedup_key r = Ok k) rs keys
    ∧ NoDup keys
    ∧ Forall (λ r, ∃ k, dedup_key r = Ok k ∧ k ∈ keys) (concat batches)
    ∧ files (append_calls cs p batches w) !! p
      = match rs with
        | [] => None
        | _ :: _ => Some (table_text (cells_of cs <$> rs))
        end
    ∧ (read_existing_keys p (append_calls cs p batches w)).2
      = Ok (list_to_set keys).
Proof.
  intros Hp Happ Hall.
  destruct (table_of_append_calls p batches w [] [])
    as (rs & keys & Htab & Hsub & Hcov); [|done|].
  { split; [done|]. split; [apply Forall_nil_2|]. split; [done|].
    split; [apply Forall2_nil_2|]. split; [apply NoDup_nil_2|done]. }
  cbn [app] in *. exists rs, keys.
  pose proof (table_of_keys _ _ _ _ Htab) as Hkeys.
  destruct Htab as (Hf & _ & _ & Hk & Hnd & _).
  by rewrite read_existing_keys_result.
Qed.

(** ** Reading back what was written *)

Lemma zip_fmap_same {A B} (f : A → B) (l : list A) :
  zip l (f <$> l) = (λ x, (x, f x)) <$> l.
Proof. induction l as [|x l IH]; [done|]. cbn. by rewrite IH. Qed.

Lemma DictReader_row_cells r :
  DictReader_row fieldnames (cells_of cs r) = as_text cs r.
Proof.
  unfold DictReader_row, as_text, cells_of.
  rewrite length_fmap, drop_all. cbn [foldl].
  rewrite <- list_fmap_compose. by rewrite zip_fmap_same.
Qed.

Lemma DictReader_table rows :
  DictReader (table_text (cells_of cs <$> rows))
  = if all_small (cells_of cs <$> rows) then Ok (as_text cs <$> rows)
    else Raise CsvError.
Proof.
  unfold DictReader. rewrite csv_reader_table.
  - destruct (all_small _); [|done]. cbn [rbind].
    rewrite filter_nonempty_id.
    + f_equal. rewrite <- list_fmap_compose. apply list_fmap_ext.
      intros i r _. apply DictReader_row_cells.
    + apply Forall_fmap, Forall_forall. intros r _. apply cells_of_length.
  - apply Forall_fmap, Forall_forall. intros r _. apply cells_of_length.
Qed.

Lemma dict_of_lookup_fresh (kvs : list (string * value)) :
  ∀ (d : gmap string value) (k : string),
  k ∉ kvs.*1 →
  foldl (λ (d : gmap string value) kv, <[kv.1 := kv.2]> d) d kvs !! k
  = d !! k.
Proof.
  induction kvs as [|[k' v] kvs IH]; intros d k Hk; [done|].
  cbn [foldl fst snd]. rewrite IH by set_solver.
  apply lookup_insert_ne. set_solver.
Qed.

Lemma dict_of_lookup (kvs : list (string * value)) k v :
  NoDup kvs.*1 → (k, v) ∈ kvs → dict_of kvs !! k = Some v.
Proof.
  unfold dict_of. generalize (∅ : gmap string value).
  induction kvs as [|[k' v'] kvs IH]; intros d Hnd Hin.
  - by apply elem_of_nil in Hin.
  - cbn [fmap list_fmap fst] in Hnd. apply NoDup_cons in Hnd as [Hk' Hnd].
    cbn [foldl fst snd]. apply elem_of_cons in Hin as [[= -> ->]|Hin].
    + rewrite dict_of_lookup_fresh by done. apply lookup_insert_eq.
    + by apply IH.
Qed.

Lemma write_rows_appended p rows w w' n :
  write_rows cs p rows w = (w', Ok n) →
  ∃ kept, sublist kept rows ∧ n = Z.of_nat (length kept)
    ∧ files w' = match kept with
                 | [] => files w
                 | _ :: _ => <[p := start_text w p
                                  +:+ lines_text (cells_of cs <$> kept)]> (files w)
                 end.
Proof.
  intros (on_disk & kept & _ & Hkept & -> & _ & _ & _ & _ & Hf)%write_rows_returned.
  destruct (dedup_loop_kept _ _ _ Hkept) as (_ & _ & _ & _ & Hsub & _).
  by exists kept.
Qed.

(** The fields of a row that can be written have their texts. *)
Lemma writable_field_text r key :
  writable r → key ∈ fieldnames →
  field_text cs (default (VStr "") (r !! key))
  = Ok (cell_text cs (default (VStr "") (r !! key))).
Proof.
  intros [_ Hp] Hkey. rewrite field_text_printable.
  unfold row_printable in Hp. rewrite forallb_forall in Hp.
  rewrite Hp; [done|]. by apply list_elem_of_In.
Qed.

(** X8.  What [write_rows] writes to a new file reads back, through
    [DictReader], as the rows it appended, in their order, each with all
    the thirty fields and every value turned into the text of its cell (a
    string as itself, a number as its numeral, [None] and a missing field
    as the empty text), unless a cell is longer than the reader accepts:
    then reading the file fails with the error of the csv module. *)
Theorem written_rows_read_back_as_text (w w' : world) (p : list string)
    (rows : list (gmap string value)) (n : Z) :
  files w !! p = None → write_rows cs p rows w = (w', Ok n) → n ≠ 0 →
  ∃ kept text,
    sublist kept rows ∧ n = Z.of_nat (length kept)
    ∧ files w' !! p = Some text
    ∧ DictReader text
      = (if all_small (cells_of cs <$> kept) then Ok (as_text cs <$> kept)
         else Raise CsvError)
    ∧ Forall (λ r, ∀ key, key ∈ fieldnames →
        ∃ s, field_text cs (default (VStr "") (r !! key)) = Ok s
             ∧ as_text cs r !! key = Some (VStr s)) kept.
Proof.
  intros Hp Hrun Hn.
  destruct (write_rows_returned cs p rows w w' n Hrun)
    as (on_disk & kept & _ & Hkept & -> & Hwr & _ & _ & _ & Hf).
  destruct (dedup_loop_kept _ _ _ Hkept) as (_ & _ & _ & _ & Hsub & _).
  destruct kept as [|k0 kept]; [done|].
  exists (k0 :: kept), (table_text (cells_of cs <$> k0 :: kept)).
  split; [done|]. split; [done|]. split; [|split].
  - by rewrite Hf, lookup_insert_eq, start_text_absent.
  - apply DictReader_table.
  - eapply Forall_impl; [exact Hwr|]. intros r Hr key Hkey.
    exists (cell_text cs (default (VStr "") (r !! key))).
    split; [by apply writable_field_text|]. apply dict_of_lookup.
    + rewrite <- list_fmap_compose. cbn. compute_done.
    + apply list_elem_of_fmap. by exists key.
Qed.

End Table.

(** ** The older script: the same table *)

Lemma read_existing_rows_indexed_eval p w :
  ∃ w', read_existing_rows_indexed p w = (w', existing_keys w p)
    ∧ same_store w w'.
Proof.
  unfold read_existing_rows_indexed, existing_keys, mbind, M_bind,
    os_path_isfile, open_read, lift, is_file.
  destruct (files w !! p) as [text|] eqn:Hp.
  - rewrite bool_decide_true by eauto. cbn [negb files called]. rewrite Hp.
    destruct text as [|c text]; [eexists; split; [reflexivity|done]|].
    cbn [files called]. rewrite Hp.
    destruct (DictReader (String c text)) as [rows|e]; cbn [rbind];
      (eexists; split; [reflexivity|done]).
  - rewrite bool_decide_false by (by intros [? ?]). cbn [negb].
    eexists; split; [reflexivity|done].
Qed.

Section OlderStore.

Variable cs : value → string.

Lemma script_write_rows_eval p rows w :
  ∃ w', Script.write_rows cs p rows w
        = (w', rbind (write_rows_effect cs w p rows).2 (λ _, Ok ()))
    ∧ dirs w' = dirs w ∧ printed w' = printed w
    ∧ files w' = match (write_rows_effect cs w p rows).1 with
                 | Some text => <[p := text]> (files w)
                 | None => files w
                 end.
Proof.
  destruct rows as [|r0 rows]; [by exists w|].
  unfold Script.write_rows, write_rows_effect.
  set (rs := r0 :: rows).
  unfold mbind at 1. unfold M_bind at 1. unfold os_path_isfile at 1.
  unfold mbind at 1. unfold M_bind at 1.
  destruct (read_existing_rows_indexed_eval p (called (SysIsfile p) w))
    as (w1 & -> & Hs1).
  pose proof (same_store_trans _ _ _ (same_store_called (SysIsfile p) w) Hs1)
    as Hs.
  rewrite (same_store_existing_keys w (called (SysIsfile p) w)) by done.
  destruct (existing_keys w p) as [keys|e]; cbn [rbind];
    [|exists w1; by destruct Hs as (? & ? & ?)].
  unfold mbind at 1. unfold M_bind at 1. unfold lift at 1.
  destruct (dedup_loop keys rs) as [[|d0 deduped]|e];
    [exists w1; by destruct Hs as (? & ? & ?)| |
     exists w1; by destruct Hs as (? & ? & ?)].
  set (ds := d0 :: deduped).
  unfold mbind at 1. unfold M_bind at 1.
  pose proof (open_append_eval p w1) as Hopen.
  pose proof (same_store_open_append_error w w1 p Hs) as Herr.
  rewrite Herr in Hopen.
  destruct (open_append_error w p) as [e|].
  { destruct Hopen as (w2 & -> & Hs2). exists w2.
    destruct (same_store_trans _ _ _ Hs Hs2) as (? & ? & ?). done. }
  destruct Hopen as (w2 & -> & Hd2 & Hp2 & Hf2).
  destruct Hs as (Hd1 & Hf1 & Hp1). rewrite Hf1 in Hf2.
  unfold mbind at 1. unfold M_bind at 1.
  unfold start_text. unfold is_file.
  destruct (files w !! p) as [t|] eqn:Hp.
  - rewrite bool_decide_true by eauto. cbn [negb]. unfold mret, M_ret.
    destruct (writerows_eval cs p ds w2 t) as (w3 & -> & Hd3 & Hp3 & Hf3).
    { by rewrite Hf2. }
    destruct (converted cs ds) as [recs [[]|e]]; cbn [fst snd rbind] in *.
    + exists w3. rewrite Hf3, Hf2, Hd3, Hd2, Hd1, Hp3, Hp2, Hp1. done.
    + exists w3. rewrite Hf3, Hf2, Hd3, Hd2, Hd1, Hp3, Hp2, Hp1. done.
  - rewrite bool_decide_false by (by intros [? ?]). cbn [negb].
    unfold writeheader, file_write at 1.
    match goal with |- context [writerows cs p ds ?w3] =>
      destruct (writerows_eval cs p ds w3 (writerow fieldnames))
        as (w4 & -> & Hd4 & Hp4 & Hf4)
    end.
    { cbn [files]. rewrite Hf2, lookup_insert_eq. cbn [default].
      by rewrite lookup_insert_eq. }
    cbn [dirs files printed] in Hd4, Hp4, Hf4.
    rewrite Hf2 in Hf4. rewrite !insert_insert_eq in Hf4.
    destruct (converted cs ds) as [recs [[]|e]]; cbn [fst snd rbind] in *.
    + exists w4. rewrite Hf4, Hd4, Hd2, Hd1, Hp4, Hp2, Hp1. done.
    + exists w4. rewrite Hf4, Hd4, Hd2, Hd1, Hp4, Hp2, Hp1. done.
Qed.

(** X9.  [write_rows] of the older script, which returns nothing and
    reads the keys with [read_existing_rows_indexed], leaves the same
    directories, files and printed lines as [write_rows] of the collector
    on the same rows and the same world, and it fails exactly when the
    other does, with the same exception. *)
Theorem older_write_rows_same_effect (p : list string)
    (rows : list (gmap string value)) (w : world) :
  dirs (Script.write_rows cs p rows w).1 = dirs (write_rows cs p rows w).1
  ∧ files (Script.write_rows cs p rows w).1 = files (write_rows cs p rows w).1
  ∧ printed (Script.write_rows cs p rows w).1
    = printed (write_rows cs p rows w).1
  ∧ (Script.write_rows cs p rows w).2
    = rbind (write_rows cs p rows w).2 (λ _, Ok ()).
Proof.
  destruct (script_write_rows_eval p rows w) as (w1 & -> & Hd1 & Hp1 & Hf1).
  destruct (write_rows_eval cs p rows w) as (w2 & -> & Hd2 & Hp2 & Hf2).
  cbn [fst snd]. by rewrite Hd1, Hd2, Hp1, Hp2, Hf1, Hf2.
Qed.

End OlderStore.

(** ** Counting lines *)

Lemma one_line_cons c s :
  one_line (String c s) = true
  ↔ Ascii.eqb c CR = false ∧ Ascii.eqb c LF = false ∧ one_line s = true.
Proof.
  unfold one_line. cbn [has_char].
  destruct (Ascii.eqb c CR), (Ascii.eqb c LF), (has_char CR s),
    (has_char LF s); cbn; naive_solver.
Qed.

Lemma one_line_app s t :
  one_line s = true → one_line t = true → one_line (s +:+ t) = true.
Proof.
  intros Hs Ht. induction s as [|c s IH]; [done|]. rewrite sapp_cons.
  apply one_line_cons in Hs as (? & ? & ?). apply one_line_cons. auto.
Qed.

Lemma one_line_double_quotes s :
  one_line s = true → one_line (double_quotes s) = true.
Proof.
  induction s as [|c s IH]; [done|]. intros (? & ? & ?)%one_line_cons.
  cbn [double_quotes]. destruct (Ascii.eqb c DQUOTE).
  - apply one_line_cons. split; [done|]. split; [done|].
    apply one_line_cons. auto.
  - apply one_line_cons. auto.
Qed.

Lemma one_line_join_append s :
  one_line s = true → one_line (join_append s) = true.
Proof.
  intros Hs. unfold join_append. destruct (must_quote s); [|done].
  apply one_line_cons. split; [done|]. split; [done|].
  apply one_line_app; [by apply one_line_double_quotes|done].
Qed.

Lemma one_line_join_record cells :
  Forall (λ c, one_line c = true) cells → one_line (join_record cells) = true.
Proof.
  induction 1 as [|c cells Hc Hcells IH]; [done|].
  cbn [join_record]. destruct cells as [|c' cells].
  - by apply one_line_join_append.
  - apply one_line_app; [by apply one_line_join_append|].
    apply one_line_cons. auto.
Qed.

Lemma one_line_record_text cells :
  Forall (λ c, one_line c = true) cells → one_line (record_text cells) = true.
Proof.
  intros Hc. unfold record_text.
  destruct (_ && _); [done|by apply one_line_join_record].
Qed.

Lemma count_lines_nonneg text : ∀ b, 0 ≤ count_lines b text.
Proof.
  induction text as [|c text IH]; intros b; cbn [count_lines].
  - by destruct b.
  - destruct (line_ends c text); [specialize (IH false); lia|apply IH].
Qed.

(** What follows a line terminator is counted on its own. *)
Lemma count_lines_terminated t u : ∀ b,
  count_lines b (t +:+ CRLF +:+ u)
  = count_lines b (t +:+ CRLF) + count_lines false u.
Proof.
  induction t as [|c t IH]; intros b.
  - rewrite !sapp_nil_l. unfold CRLF. rewrite !sapp_cons, sapp_nil_l.
    cbn [count_lines]. unfold line_ends. cbn. lia.
  - rewrite !sapp_cons. cbn [count_lines].
    assert (line_ends c (t +:+ CRLF +:+ u) = line_ends c (t +:+ CRLF)) as ->.
    { unfold line_ends. by destruct t. }
    destruct (line_ends c (t +:+ CRLF)); rewrite IH; lia.
Qed.

Lemma count_lines_one_line s : ∀ b,
  one_line s = true → count_lines b (s +:+ CRLF) = 1.
Proof.
  induction s as [|c s IH]; intros b Hs.
  - by destruct b.
  - apply one_line_cons in Hs as (Hcr & Hlf & Hs). rewrite sapp_cons.
    cbn [count_lines]. unfold line_ends. rewrite Hcr, Hlf. cbn.
    by apply IH.
Qed.

Lemma count_lines_terminated_pos t : ∀ b, 1 ≤ count_lines b (t +:+ CRLF).
Proof.
  induction t as [|c t IH]; intros b; [by destruct b|].
  rewrite sapp_cons. cbn [count_lines].
  destruct (line_ends c (t +:+ CRLF)); [|apply IH].
  pose proof (count_lines_nonneg (t +:+ CRLF) false). lia.
Qed.

Lemma count_lines_lines_text records :
  Forall (Forall (λ c, one_line c = true)) records →
  count_lines false (lines_text records) = Z.of_nat (length records).
Proof.
  induction 1 as [|cells records Hc _ IH]; [done|].
  cbn [lines_text length]. rewrite writerow_record_text, sapp_assoc.
  rewrite count_lines_terminated, IH.
  rewrite count_lines_one_line by by apply one_line_record_text. lia.
Qed.

Lemma one_line_fieldnames : Forall (λ c, one_line c = true) fieldnames.
Proof. compute_done. Qed.

Lemma count_data_lines_value p w :
  ∃ w', count_data_lines p w = (w', Ok (data_lines w p)) ∧ same_store w w'.
Proof.
  unfold count_data_lines, data_lines, mbind, M_bind, os_path_isfile,
    open_read, is_file.
  destruct (files w !! p) as [text|] eqn:Hp.
  - rewrite bool_decide_true by eauto. cbn [files called]. rewrite Hp.
    eexists. split; [reflexivity|done].
  - rewrite bool_decide_false by (by intros [? ?]).
    eexists. split; [reflexivity|done].
Qed.

Lemma same_store_data_lines w w' p :
  same_store w w' → data_lines w' p = data_lines w p.
Proof. intros (_ & Hf & _). unfold data_lines. by rewrite Hf. Qed.

Lemma same_store_terminated w w' p :
  same_store w w' → terminated w p → terminated w' p.
Proof. intros (_ & Hf & _). unfold terminated. by rewrite Hf. Qed.

Lemma normalize_records_length pairs ts rows :
  normalize_records pairs ts = Ok rows → length rows = length pairs.
Proof.
  unfold normalize_records. revert rows.
  induction pairs as [|p pairs IH]; intros rows; cbn [for_each].
  - by intros [= <-].
  - destruct (normalize_record p ts) as [row|e]; [|done]. cbn [rbind].
    destruct (for_each _ pairs) as [rows'|e]; [|done]. cbn [rbind].
    intros [= <-]. cbn [length]. by rewrite (IH rows').
Qed.

Section Counting.

Variable cs : value → string.

(** The rows appended are the lines gained. *)
Lemma data_lines_appended w w' p kept :
  terminated w p → one_line_rows cs kept →
  files w' = match kept with
             | [] => files w
             | _ :: _ => <[p := start_text w p
                              +:+ lines_text (cells_of cs <$> kept)]> (files w)
             end →
  data_lines w' p = data_lines w p + Z.of_nat (length kept).
Proof.
  intros Hterm Hone Hf. unfold data_lines. rewrite Hf.
  assert (count_lines false (lines_text (cells_of cs <$> kept))
          = Z.of_nat (length kept)) as Hcount.
  { rewrite count_lines_lines_text, length_fmap; [done|].
    by apply Forall_fmap. }
  destruct kept as [|k0 kept]; [cbn [length]; lia|].
  rewrite lookup_insert_eq. unfold start_text.
  destruct Hterm as [-> | [t ->]].
  - rewrite writerow_record_text, sapp_assoc, count_lines_terminated, Hcount.
    rewrite count_lines_one_line
      by apply one_line_record_text, one_line_fieldnames.
    lia.
  - rewrite sapp_assoc, count_lines_terminated, Hcount.
    pose proof (count_lines_terminated_pos t false). lia.
Qed.

Lemma one_line_rows_sublist kept rows :
  sublist kept rows → one_line_rows cs rows → one_line_rows cs kept.
Proof. intros Hsub. unfold one_line_rows. by apply Forall_of_sublist. Qed.

(** The steps of [do_snapshot] after a fetch that succeeded, with what
    is printed. *)
Lemma do_snapshot_steps now pairs outdir w rows w1 :
  normalize_records pairs (isoformat_seconds now) = Ok rows →
  ensure_dir outdir w = (w1, Ok ()) →
  ∃ w2, count_data_lines (_daily_csv_path outdir now) w1
        = (w2, Ok (data_lines w1 (_daily_csv_path outdir now)))
    ∧ same_store w1 w2
    ∧ ∀ w3 r, write_rows cs (_daily_csv_path outdir now) rows w2 = (w3, r) →
        ∃ w4, do_snapshot cs now (Fetched pairs) outdir w = (w4, r)
          ∧ dirs w4 = dirs w3 ∧ files w4 = files w3
          ∧ printed w4
            = match r with
              | Ok added =>
                  printed w3
                  ++ [OkWrote (isoformat_seconds now) added
                        (_daily_csv_path outdir now)
                        (data_lines w3 (_daily_csv_path outdir now))]
              | Raise _ => printed w3
              end.
Proof.
  intros Hn He.
  destruct (count_data_lines_value (_daily_csv_path outdir now) w1)
    as (w2 & Hc & Hs2).
  exists w2. split; [done|]. split; [done|]. intros w3 r Hw.
  unfold do_snapshot.
  unfold mbind at 1. unfold M_bind at 1. unfold lift at 1. rewrite Hn.
  unfold mbind at 1. unfold M_bind at 1. rewrite He.
  unfold mbind at 1. unfold M_bind at 1. rewrite Hc.
  unfold mbind at 1. unfold M_bind at 1. rewrite Hw.
  destruct r as [added|e]; [|by exists w3].
  unfold mbind at 1. unfold M_bind at 1.
  destruct (count_data_lines_value (_daily_csv_path outdir now) w3)
    as (w4 & -> & (Hd4 & Hf4 & Hp4)).
  eexists. split; [reflexivity|]. cbn. by rewrite Hd4, Hf4, Hp4.
Qed.

(** X10.  When [do_snapshot] returns a count, the partition being absent
    or ending with the line terminator before the call and no cell of the
    rows holding a line break, the one line it prints gives that count and
    as total the rows counted before plus that count: the rows counted in
    the partition grow by exactly the number returned, which is at most
    the number of pairs fetched. *)
Theorem do_snapshot_total_is_row_count (now : datetime) (pairs : list value)
    (outdir : list string) (w : world) (rows : list (gmap string value))
    (added : Z) :
  normalize_records pairs (isoformat_seconds now) = Ok rows →
  one_line_rows cs rows →
  terminated w (_daily_csv_path outdir now) →
  (do_snapshot cs now (Fetched pairs) outdir w).2 = Ok added →
  printed (do_snapshot cs now (Fetched pairs) outdir w).1
  = printed w
    ++ [OkWrote (isoformat_seconds now) added (_daily_csv_path outdir now)
          (data_lines w (_daily_csv_path outdir now) + added)]
  ∧ data_lines (do_snapshot cs now (Fetched pairs) outdir w).1
      (_daily_csv_path outdir now)
    = data_lines w (_daily_csv_path outdir now) + added
  ∧ 0 ≤ added ≤ Z.of_nat (length pairs).
Proof.
  intros Hn Hone Hterm Hres. set (p := _daily_csv_path outdir now) in *.
  destruct (ensure_dir_eval outdir w) as (w1 & r1 & He & Hf1 & Hp1 & Hr).
  destruct Hr as [(-> & _)|Hr]; cycle 1.
  { exfalso. revert Hres. unfold do_snapshot, mbind, M_bind, lift.
    rewrite Hn, He. by destruct Hr as [-> | [-> | [-> _]]]. }
  destruct (do_snapshot_steps now pairs outdir w rows w1 Hn He)
    as (w2 & _ & Hs2 & Hstep).
  fold p in Hstep.
  destruct (write_rows cs p rows w2) as [w3 r] eqn:Hw.
  destruct (Hstep w3 r eq_refl) as (w4 & Hdo & Hd4 & Hf4 & Hp4).
  rewrite Hdo in Hres |- *. cbn [fst snd] in *. subst r.
  destruct (write_rows_appended cs p rows w2 w3 added Hw) as (kept & Hsub & -> & Hf3).
  destruct (write_rows_eval cs p rows w2) as (w3' & Hw' & _ & Hp3 & _).
  rewrite Hw in Hw'. injection Hw' as <- _.
  destruct Hs2 as (_ & Hf2 & Hp2).
  assert (terminated w2 p) as Hterm2
    by (unfold terminated; by rewrite Hf2, Hf1).
  assert (data_lines w2 p = data_lines w p) as Hsame
    by (unfold data_lines; by rewrite Hf2, Hf1).
  assert (data_lines w3 p
          = data_lines w p + Z.of_nat (length kept)) as Hgrow.
  { rewrite <- Hsame. apply data_lines_appended; [done| |done].
    by eapply one_line_rows_sublist. }
  split; [|split].
  - by rewrite Hp4, Hgrow, Hp3, Hp2, Hp1.
  - unfold data_lines at 1. rewrite Hf4. exact Hgrow.
  - split; [lia|]. apply sublist_length in Hsub.
    pose proof (normalize_records_length pairs _ _ Hn). lia.
Qed.

End Counting.

(** ** The older script: the same count *)

Section OlderSnapshot.

Variable cs : value → string.

(** X11.  [snapshot_once] of the older script has no count from
    [write_rows]: it counts the lines of the partition before and after.
    On a response whose pairs [do_snapshot] turns into a count, the
    partition being absent or ending with the line terminator and no cell
    holding a line break, it returns and reports the same count and leaves
    the same directories and files. *)
Theorem older_snapshot_same_count (now : datetime) (raw : value)
    (pairs : list value) (outdir : list string) (w : world)
    (rows : list (gmap string value)) (added : Z) :
  pairs_of raw = Ok pairs →
  normalize_records pairs (isoformat_seconds now) = Ok rows →
  one_line_rows cs rows →
  terminated w (_daily_csv_path outdir now) →
  (do_snapshot cs now (Fetched pairs) outdir w).2 = Ok added →
  (Script.snapshot_once cs now (Returned raw) outdir w).2
  = Ok (added, Script.OkWrote (isoformat_seconds now) added
                 (_daily_csv_path outdir now))
  ∧ dirs (Script.snapshot_once cs now (Returned raw) outdir w).1
    = dirs (do_snapshot cs now (Fetched pairs) outdir w).1
  ∧ files (Script.snapshot_once cs now (Returned raw) outdir w).1
    = files (do_snapshot cs now (Fetched pairs) outdir w).1.
Proof.
  intros Hraw Hn Hone Hterm Hres. set (p := _daily_csv_path outdir now) in *.
  destruct (ensure_dir_eval outdir w) as (w1 & r1 & He & Hf1 & Hp1 & Hr).
  destruct Hr as [(-> & _)|Hr]; cycle 1.
  { exfalso. revert Hres. unfold do_snapshot, mbind, M_bind, lift.
    rewrite Hn, He. by destruct Hr as [-> | [-> | [-> _]]]. }
  destruct (do_snapshot_steps cs now pairs outdir w rows w1 Hn He)
    as (w2 & Hc & Hs2 & Hstep).
  fold p in Hc, Hstep.
  destruct (write_rows cs p rows w2) as [w3 r] eqn:Hw.
  destruct (Hstep w3 r eq_refl) as (w4 & Hdo & Hd4 & Hf4 & _).
  rewrite Hdo in Hres |- *. cbn [fst snd] in Hres |- *. subst r.
  destruct (write_rows_appended cs p rows w2 w3 added Hw)
    as (kept & Hsub & -> & Hf3).
  destruct (write_rows_eval cs p rows w2) as (w3' & Hw' & Hd3 & _ & Hf3').
  rewrite Hw in Hw'. injection Hw' as <- Heff.
  destruct (script_write_rows_eval cs p rows w2)
    as (v3 & Hv & Hvd & _ & Hvf).
  rewrite <- Heff in Hv. cbn [rbind] in Hv. rewrite <- Hf3' in Hvf.
  destruct (count_data_lines_value p v3) as (v4 & Hc' & (Hvd4 & Hvf4 & _)).
  assert (terminated w2 p) as Hterm2.
  { destruct Hs2 as (_ & Hf2 & _). unfold terminated. by rewrite Hf2, Hf1. }
  assert (data_lines v3 p
          = data_lines w2 p + Z.of_nat (length kept)) as Hgrow.
  { apply (data_lines_appended cs w2 v3 p kept); [done| |by rewrite Hvf].
    by eapply one_line_rows_sublist. }
  assert (data_lines w2 p = data_lines w1 p) as Hsame
    by by apply same_store_data_lines.
  assert (Script.snapshot_once cs now (Returned raw) outdir w
          = (v4, Ok (Z.of_nat (length kept),
                     Script.OkWrote (isoformat_seconds now)
                       (Z.of_nat (length kept)) p))) as ->.
  { unfold Script.snapshot_once.
    unfold mbind at 1. unfold M_bind at 1. unfold lift at 1.
    unfold Script.normalize_records. rewrite Hraw. cbn [rbind]. rewrite Hn.
    unfold mbind at 1. unfold M_bind at 1. rewrite He.
    unfold mbind at 1. unfold M_bind at 1. fold p. rewrite Hc.
    unfold mbind at 1. unfold M_bind at 1. rewrite Hv.
    unfold mbind at 1. unfold M_bind at 1. rewrite Hc'.
    cbn [mret M_ret fst snd].
    by replace (Z.max (data_lines v3 p - data_lines w1 p) 0)
      with (Z.of_nat (length kept)) by lia. }
  cbn [fst snd]. split; [done|]. split.
  - by rewrite Hvd4, Hvd, Hd4, Hd3.
  - by rewrite Hvf4, Hvf, Hf4.
Qed.

End OlderSnapshot.

(** ** What a snapshot leaves alone *)

Lemma makedirs_from_new rest : ∀ base w d,
  d ∈ dirs (makedirs_from base rest w).1 →
  d ∈ dirs w ∨ ∃ q, q `prefix_of` rest ∧ d = base ++ q.
Proof.
  induction rest as [|c rest IH]; intros base w d Hd; [by left|].
  cbn [makedirs_from] in Hd. destruct (is_file w (base ++ [c])); [by left|].
  apply IH in Hd as [Hd|(q & Hq & ->)].
  - cbn [dirs] in Hd. apply elem_of_union in Hd as [Hd|Hd]; [|by left].
    apply elem_of_singleton in Hd as ->. right. exists [c]. split; [|done].
    by exists rest.
  - right. exists (c :: q). split; [by apply prefix_cons|].
    by rewrite <- app_assoc.
Qed.

Lemma ensure_dir_new p w d :
  d ∈ dirs (ensure_dir p w).1 → d ∈ dirs w ∨ d `prefix_of` p.
Proof.
  unfold ensure_dir, mbind, M_bind, os_path_isdir.
  destruct (is_dir w p); cbn [negb]; [by left|]. unfold os_makedirs.
  destruct p as [|c p]; [by left|].
  intros [Hd|(q & Hq & ->)]%makedirs_from_new; [by left|by right].
Qed.

Section Frame.

Variable cs : value → string.

(** The store a snapshot leaves. *)
Lemma do_snapshot_store now fetch outdir w :
  ∃ w' r,
    do_snapshot cs now fetch outdir w = (w', r)
    ∧ (files w' = files w
       ∨ ∃ rs, sublist rs (fetched_rows now fetch)
           ∧ files w'
             = <[_daily_csv_path outdir now :=
                   start_text w (_daily_csv_path outdir now)
                   +:+ lines_text (cells_of cs <$> rs)]> (files w))
    ∧ dirs w ⊆ dirs w'
    ∧ (∀ d, d ∈ dirs w' → d ∈ dirs w ∨ d `prefix_of` outdir)
    ∧ match r with
      | Ok _ => ∃ msg, printed w' = printed w ++ [msg]
      | Raise _ => printed w' = printed w
      end.
Proof.
  set (p := _daily_csv_path outdir now).
  assert (∀ msg,
    do_snapshot cs now fetch outdir w = ((print msg w).1, Ok 0) →
    ∃ w' r,
      do_snapshot cs now fetch outdir w = (w', r)
      ∧ (files w' = files w
         ∨ ∃ rs, sublist rs (fetched_rows now fetch)
             ∧ files w'
               = <[p := start_text w p +:+ lines_text (cells_of cs <$> rs)]>
                   (files w))
      ∧ dirs w ⊆ dirs w'
      ∧ (∀ d, d ∈ dirs w' → d ∈ dirs w ∨ d `prefix_of` outdir)
      ∧ match r with
        | Ok _ => ∃ msg, printed w' = printed w ++ [msg]
        | Raise _ => printed w' = printed w
        end) as Hfailed.
  { intros msg ->. eexists _, _. split; [reflexivity|].
    cbn [fst snd print dirs files printed].
    split; [by left|]. split; [done|]. split; [by left|]. by eexists. }
  destruct fetch as [pairs|code| |]; [|by eapply Hfailed..]. clear Hfailed.
  cbn [fetched_rows].
  destruct (normalize_records pairs (isoformat_seconds now)) as [rows|e0]
    eqn:Hn; cycle 1.
  { exists w, (Raise e0). split.
    - unfold do_snapshot, mbind, M_bind, lift. by rewrite Hn.
    - split; [by left|]. split; [done|]. split; [by left|done]. }
  destruct (ensure_dir_eval outdir w) as (w1 & r1 & He & Hf1 & Hp1 & Hr).
  pose proof (ensure_dir_dirs outdir w) as Hsub.
  pose proof (ensure_dir_new outdir w) as Hnew.
  rewrite He in Hsub, Hnew. cbn [fst] in Hsub, Hnew.
  destruct Hr as [(-> & _)|Hr]; cycle 1.
  { assert (∃ e, r1 = Raise e) as [e ->]
      by (destruct Hr as [-> | [-> | [-> _]]]; by eexists).
    exists w1, (Raise e). split.
    - unfold do_snapshot, mbind, M_bind, lift. by rewrite Hn, He.
    - split; [by left|]. by split. }
  destruct (do_snapshot_steps cs now pairs outdir w rows w1 Hn He)
    as (w2 & _ & (Hd2 & Hf2 & Hp2) & Hstep).
  fold p in Hstep.
  destruct (write_rows_eval cs p rows w2) as (w3 & Hw & Hd3 & Hp3 & Hf3).
  destruct (Hstep w3 _ Hw) as (w4 & Hdo & Hd4 & Hf4 & Hp4).
  exists w4, (write_rows_effect cs w2 p rows).2. split; [done|].
  rewrite Hf4, Hd4, Hd3, Hd2, Hp4, Hp3, Hp2, Hp1.
  split; [|split; [done|split; [done|]]].
  - rewrite Hf3.
    destruct (write_rows_effect_file cs w2 p rows) as [-> | (rs & Hrs & ->)];
      [left; by rewrite Hf2, Hf1|].
    right. exists rs. split; [done|]. unfold start_text.
    by rewrite Hf2, Hf1.
  - destruct ((write_rows_effect cs w2 p rows).2); [by eexists|done].
Qed.

(** X12.  Whatever the fetch gave, [do_snapshot] changes no file but the
    partition of the day, which it only creates with the header or
    extends, by lines of rows of the pairs fetched; it removes no
    directory and makes none but the output directory and those above it.
    It prints exactly one line when it returns and none when it
    raises. *)
Theorem do_snapshot_touches_one_file (now : datetime) (fetch : fetch_outcome)
    (outdir : list string) (w : world) :
  (∀ q, q ≠ _daily_csv_path outdir now →
        files (do_snapshot cs now fetch outdir w).1 !! q = files w !! q)
  ∧ extends cs (fetched_rows now fetch)
      (files w !! _daily_csv_path outdir now)
      (files (do_snapshot cs now fetch outdir w).1
         !! _daily_csv_path outdir now)
  ∧ dirs w ⊆ dirs (do_snapshot cs now fetch outdir w).1
  ∧ (∀ d, d ∈ dirs (do_snapshot cs now fetch outdir w).1 →
          d ∈ dirs w ∨ d `prefix_of` outdir)
  ∧ (∀ k, (do_snapshot cs now fetch outdir w).2 = Ok k →
          ∃ msg, printed (do_snapshot cs now fetch outdir w).1
                 = printed w ++ [msg])
  ∧ (∀ e, (do_snapshot cs now fetch outdir w).2 = Raise e →
          printed (do_snapshot cs now fetch outdir w).1 = printed w).
Proof.
  destruct (do_snapshot_store now fetch outdir w)
    as (w' & r & -> & Hf & Hd & Hnew & Hp).
  cbn [fst snd]. split; [|split; [|split; [done|split; [done|split]]]].
  - intros q Hq. destruct Hf as [-> | (rs & _ & ->)]; [done|].
    by apply lookup_insert_ne.
  - destruct Hf as [-> | (rs & Hrs & ->)]; [apply extends_refl|].
    rewrite lookup_insert_eq. unfold start_text.
    destruct (files w !! _daily_csv_path outdir now); by exists rs.
  - by intros k ->.
  - by intros e ->.
Qed.

End Frame.

(** ** The same snapshot again *)

Lemma table_text_nil : table_text [] = writerow fieldnames.
Proof. unfold table_text. cbn [lines_text]. apply sapp_nil_r. Qed.

Lemma normalize_records_string_keyed pairs ts :
  Forall (λ p, ∃ d a, p = VDict d ∧ d !! "pairAddress" = Some (VStr a)) pairs →
  ∃ rows, normalize_records pairs ts = Ok rows
    ∧ Forall string_keyed rows ∧ Forall no_extra_fields rows.
Proof.
  unfold normalize_records.
  induction 1 as [|p pairs (d & a & -> & Ha) _ (rows & Hrows & Hsk & Hne)].
  - by exists [].
  - destruct (normalize_record_dict d ts)
      as (row & Hrow & Hdom & Hts & Hpa & _).
    exists (row :: rows). cbn [for_each]. rewrite Hrow. cbn [rbind].
    rewrite Hrows. cbn [rbind]. split; [done|]. split.
    + constructor; [|done]. exists a, ts. split; [|done].
      unfold dict_get in Hpa. by rewrite Ha in Hpa.
    + constructor; [|done]. unfold no_extra_fields. by rewrite Hdom.
Qed.

Section Again.

Variable cs : value → string.

(** After a batch of rows with string keys went into a partition that
    was absent or held a table, every row of the batch has its key in the
    file. *)
Lemma write_rows_covers w w' p rows n records :
  (files w !! p = None ∧ records = []
   ∨ files w !! p = Some (table_text records)) →
  Forall (λ cells, length cells = length fieldnames) records →
  Forall string_keyed rows →
  all_small (cells_of cs <$> rows) = true →
  rows ≠ [] →
  write_rows cs p rows w = (w', Ok n) →
  ∃ keys, existing_keys w' p = Ok keys
    ∧ Forall (λ r, ∃ k, dedup_key r = Ok k ∧ k ∈ keys) rows.
Proof.
  intros Hfile Hwide Hsk Hsm Hne Hrun.
  destruct (write_rows_returned cs p rows w w' n Hrun)
    as (on_disk & kept & Hk & Hkept & _ & _ & _ & _ & _ & Hf).
  specialize (Hk Hne).
  destruct (dedup_loop_kept _ _ _ Hkept)
    as (dkeys & Hdk & _ & _ & Hsub & Hcover).
  assert (on_disk = list_to_set (disk_key <$> records)
          ∧ all_small records = true) as [Hdisk Hsmr].
  { unfold existing_keys in Hk. destruct Hfile as [[Hp ->] | Hp];
      rewrite Hp in Hk; [by injection Hk as <-|].
    rewrite table_text_keys in Hk by done.
    destruct (all_small records); [|done]. by injection Hk as <-. }
  assert (start_text w p = table_text records) as Hstart.
  { unfold start_text. destruct Hfile as [[-> ->] | ->]; [|done].
    by rewrite table_text_nil. }
  assert (all_small (cells_of cs <$> kept) = true) as Hsmk.
  { rewrite all_small_Forall, Forall_fmap in Hsm |- *.
    eapply Forall_of_sublist; [exact Hsub|exact Hsm]. }
  destruct kept as [|k0 kept].
  - exists on_disk. split.
    + unfold existing_keys in *. by rewrite Hf.
    + apply Forall2_nil_inv_l in Hdk as ->.
      eapply Forall_impl; [exact Hcover|]. intros r (k & Hr & [Hin|Hin]);
        [by exists k|by apply elem_of_nil in Hin].
  - exists (on_disk ∪ list_to_set dkeys). split.
    + unfold existing_keys. rewrite Hf, lookup_insert_eq, Hstart.
      rewrite table_text_app, table_text_keys.
      * rewrite all_small_app, Hsmr, Hsmk. cbn [andb].
        rewrite fmap_app, list_to_set_app_L, Hdisk. f_equal.
        rewrite (string_keyed_disk_keys cs (k0 :: kept) dkeys); [done| |done].
        by eapply Forall_of_sublist.
      * apply Forall_app. split; [done|].
        apply Forall_fmap, Forall_forall. intros r _. apply cells_of_length.
    + eapply Forall_impl; [exact Hcover|]. intros r (k & Hr & Hin).
      exists k. split; [done|]. apply elem_of_union.
      destruct Hin as [Hin|Hin]; [by left|right].
      by apply elem_of_list_to_set.
Qed.

(** X13.  A snapshot taken again at the same moment with the same pairs
    adds nothing: when the pairs carry string addresses, no cell of their
    rows is longer than the reader accepts, and the partition is absent or
    holds a table, and [do_snapshot] returns, a second call on the world
    it leaves returns 0 and leaves the files and the directories as they
    are. *)
Theorem snapshot_again_adds_nothing (now : datetime) (pairs : list value)
    (outdir : list string) (w : world) (records : list (list string))
    (rows : list (gmap string value)) (k : Z) :
  Forall (λ p, ∃ d a, p = VDict d ∧ d !! "pairAddress" = Some (VStr a)) pairs →
  normalize_records pairs (isoformat_seconds now) = Ok rows →
  all_small (cells_of cs <$> rows) = true →
  (files w !! _daily_csv_path outdir now = None ∧ records = []
   ∨ files w !! _daily_csv_path outdir now = Some (table_text records)) →
  Forall (λ cells, length cells = length fieldnames) records →
  (do_snapshot cs now (Fetched pairs) outdir w).2 = Ok k →
  (do_snapshot cs now (Fetched pairs) outdir
     (do_snapshot cs now (Fetched pairs) outdir w).1).2 = Ok 0
  ∧ files (do_snapshot cs now (Fetched pairs) outdir
             (do_snapshot cs now (Fetched pairs) outdir w).1).1
    = files (do_snapshot cs now (Fetched pairs) outdir w).1
  ∧ dirs (do_snapshot cs now (Fetched pairs) outdir
            (do_snapshot cs now (Fetched pairs) outdir w).1).1
    = dirs (do_snapshot cs now (Fetched pairs) outdir w).1.
Proof.
  intros Hpairs Hn Hsm Hfile Hwide Hres.
  set (p := _daily_csv_path outdir now) in *.
  destruct (normalize_records_string_keyed pairs (isoformat_seconds now) Hpairs)
    as (rows' & Hn' & Hsk & _).
  rewrite Hn in Hn'. injection Hn' as <-.
  destruct (ensure_dir_eval outdir w) as (w1 & r1 & He & Hf1 & _ & Hr).
  destruct Hr as [(-> & Hdir)|Hr]; cycle 1.
  { exfalso. revert Hres. unfold do_snapshot, mbind, M_bind, lift.
    rewrite Hn, He. by destruct Hr as [-> | [-> | [-> _]]]. }
  destruct (do_snapshot_steps cs now pairs outdir w rows w1 Hn He)
    as (w2 & _ & (Hd2 & Hf2 & _) & Hstep).
  fold p in Hstep.
  destruct (write_rows cs p rows w2) as [w3 r] eqn:Hw.
  destruct (Hstep w3 r eq_refl) as (w4 & Hdo & Hd4 & Hf4 & _).
  rewrite Hdo in Hres |- *. cbn [fst snd] in Hres |- *. subst r.
  destruct (write_rows_eval cs p rows w2) as (w3' & Hw' & Hd3 & _).
  rewrite Hw in Hw'. injection Hw' as <- _.
  (* the second call *)
  assert (ensure_dir outdir w4 = (called (SysIsdir outdir) w4, Ok ())) as He'.
  { unfold ensure_dir, mbind, M_bind, os_path_isdir.
    assert (is_dir w4 outdir = true) as ->; [|done].
    unfold is_dir in *. by rewrite Hd4, Hd3, Hd2. }
  destruct (do_snapshot_steps cs now pairs outdir w4 rows _ Hn He')
    as (v2 & _ & Hs & Hstep').
  fold p in Hstep'.
  assert (∃ v3, write_rows cs p rows v2 = (v3, Ok 0)
            ∧ dirs v3 = dirs v2 ∧ files v3 = files v2)
    as (v3 & Hv & Hvd & Hvf).
  { destruct (decide (rows = [])) as [-> | Hne]; [by exists v2|].
    destruct (write_rows_covers w2 w3 p rows k records)
      as (keys & Hkeys & Hcov); [by rewrite Hf2, Hf1|done..|].
    destruct (write_rows_nothing_new cs v2 p rows keys)
      as (v3 & Hv & Hvd & _ & Hvf).
    { rewrite <- Hkeys. unfold existing_keys.
      destruct Hs as (_ & -> & _). cbn [files called]. by rewrite Hf4. }
    { by apply dedup_loop_all_present. }
    by exists v3. }
  destruct (Hstep' v3 _ Hv) as (v4 & -> & Hvd4 & Hvf4 & _).
  cbn [fst snd]. destruct Hs as (Hsd & Hsf & _).
  split; [done|]. split.
  - by rewrite Hvf4, Hvf, Hsf.
  - by rewrite Hvd4, Hvd, Hsd.
Qed.

End Again.

(** ** The loop of snapshots *)

Section Loop.

Variable net : Type.
Variable http_get_json :
  string → option (list (string * string)) → net → net * outcome value.
Variable quote : string → string.
Variable cs : value → string.

(** X14.  However long the loop of [main] runs and whatever the network
    answers, no file is removed or cut short: every file keeps its
    content and can only gain text at its end, and only the partitions of
    the days of the snapshots change at all; no directory is removed, and
    none is made but the output directory and those above it.  The loop
    never ends on the shape of the data, with [AttributeError] or
    [TypeError], and it ends for a directory that is not found only when
    the path of the output directory is empty. *)
Theorem snapshot_loop_only_appends (outdir queries : list string)
    (chain_id : string) (pair_ids_csv : option string)
    (clock : list datetime) (n : net) (w : world) :
  (∀ q t, files w !! q = Some t →
     ∃ u, files (snapshot_loop http_get_json quote cs outdir queries chain_id
                   pair_ids_csv clock n w).2.1 !! q = Some (t +:+ u))
  ∧ (∀ q, (∀ now, now ∈ clock → q ≠ _daily_csv_path outdir now) →
       files (snapshot_loop http_get_json quote cs outdir queries chain_id
                pair_ids_csv clock n w).2.1 !! q = files w !! q)
  ∧ dirs w ⊆ dirs (snapshot_loop http_get_json quote cs outdir queries
                     chain_id pair_ids_csv clock n w).2.1
  ∧ (∀ d, d ∈ dirs (snapshot_loop http_get_json quote cs outdir queries
                      chain_id pair_ids_csv clock n w).2.1 →
          d ∈ dirs w ∨ d `prefix_of` outdir)
  ∧ (∀ e, (snapshot_loop http_get_json quote cs outdir queries chain_id
             pair_ids_csv clock n w).2.2 = Raise e →
          e ≠ AttributeError ∧ e ≠ TypeError
          ∧ (e = FileNotFoundError → outdir = [])).
Proof.
  revert n w. induction clock as [|now clock IH]; intros n w.
  { cbn [snapshot_loop fst snd]. split.
    - intros q t ->. exists "". by rewrite sapp_nil_r.
    - split; [done|]. split; [done|]. split; [by left|done]. }
  cbn [snapshot_loop]. unfold do_snapshot_fetching.
  set (f := try_fetch net http_get_json quote queries chain_id pair_ids_csv n).
  destruct (do_snapshot_store cs now f.2 outdir w)
    as (w' & r & Hdo & Hf & Hd & Hnew & _).
  assert (∀ e, r = Raise e →
    e ≠ AttributeError ∧ e ≠ TypeError ∧ (e = FileNotFoundError → outdir = []))
    as Herr.
  { intros e ->. destruct f.2 as [pairs|code| |] eqn:Hfetch; try done.
    destruct (do_snapshot_good cs now pairs outdir w e)
      as [-> | [-> | [-> | [-> | [[-> ->] | [-> ?]]]]]];
      [by eapply fetchers_return_dicts|by rewrite Hdo|by repeat split..]. }
  assert (∀ q t, files w !! q = Some t →
    ∃ u, files w' !! q = Some (t +:+ u)) as Hgrow.
  { intros q t Hq. destruct Hf as [-> | (rs & _ & ->)].
    - exists "". by rewrite sapp_nil_r.
    - destruct (decide (q = _daily_csv_path outdir now)) as [->|Hne].
      + rewrite lookup_insert_eq. unfold start_text. rewrite Hq. by eexists.
      + rewrite lookup_insert_ne by done. exists "". by rewrite sapp_nil_r. }
  assert (∀ q, q ≠ _daily_csv_path outdir now →
    files w' !! q = files w !! q) as Hother.
  { intros q Hq. destruct Hf as [-> | (rs & _ & ->)]; [done|].
    by apply lookup_insert_ne. }
  rewrite Hdo. destruct r as [k|e]; cbn [fst snd].
  - destruct (IH f.1 w') as (IH1 & IH2 & IH3 & IH4 & IH5).
    split; [|split; [|split; [|split]]].
    + intros q t Hq. destruct (Hgrow q t Hq) as [u Hu].
      destruct (IH1 q _ Hu) as [u' Hu']. exists (u +:+ u').
      by rewrite <- sapp_assoc.
    + intros q Hq. rewrite IH2.
      * apply Hother, Hq. by left.
      * intros now' Hin. apply Hq. by right.
    + set_solver.
    + intros d Hin. destruct (IH4 d Hin) as [Hin'|?]; [|by right].
      by apply Hnew.
    + done.
  - split; [done|]. split.
    + intros q Hq. apply Hother, Hq. by left.
    + split; [done|]. split; [done|]. intros e' [= <-]. by apply Herr.
Qed.

End Loop.

(** ** When the fetchers fail *)

Lemma merge_pairs_total ps : ∀ seen merged,
  Forall sound_pair ps → ∃ sm, merge_pairs ps seen merged = Ok sm.
Proof.
  induction ps as [|p ps IH]; intros seen merged Hps; [by eexists|].
  apply Forall_cons in Hps as [([d ->] & Hp) Hps]. cbn [merge_pairs].
  cbn [pair_address] in Hp.
  destruct (py_truthy (dict_get d "pairAddress")); [|by apply IH].
  destruct (Hp eq_refl) as [a ->]. cbn [rbind]. case_decide; by apply IH.
Qed.

Section Failures.

Variable net : Type.
Variable http_get_json :
  string → option (list (string * string)) → net → net * outcome value.
Variable quote : string → string.

Hypothesis responses_well_formed : ∀ url params n0 n1 data,
  http_get_json url params n0 = (n1, Returned data) → well_formed data.

Lemma search_loop_first_failure queries : ∀ seen merged n,
  match first_failure http_get_json (search_requests queries) n with
  | Some (n', f) =>
      search_loop net http_get_json queries seen merged n = (n', Failed f)
  | None =>
      ∃ n' out,
        search_loop net http_get_json queries seen merged n
        = (n', Returned out)
  end.
Proof.
  induction queries as [|q queries IH]; intros seen merged n.
  { by eexists _, _. }
  cbn [search_loop search_requests]. case_bool_decide as Hq; [apply IH|].
  cbn [first_failure].
  destruct (http_get_json DEX_SEARCH_URL (Some [("q", strip q)]) n)
    as [n1 [data|e]] eqn:Hreq; [|done].
  destruct (responses_well_formed _ _ _ _ _ Hreq) as (ps & -> & Hsound).
  cbn [rbind].
  destruct (merge_pairs_total ps seen merged Hsound) as [[seen' merged'] ->].
  apply IH.
Qed.

Lemma ids_loop_first_failure chain_id pids : ∀ out n,
  Forall sound_pair out →
  match first_failure http_get_json
          ((λ pid, (pairs_url chain_id (quote pid), None)) <$> pids) n with
  | Some (n', f) =>
      ids_loop net http_get_json quote chain_id pids out n = (n', Failed f)
  | None =>
      ∃ n' out',
        ids_loop net http_get_json quote chain_id pids out n
        = (n', Returned out')
        ∧ Forall sound_pair out'
  end.
Proof.
  induction pids as [|pid pids IH]; intros out n Hout.
  { by eexists _, _. }
  cbn [ids_loop fmap list_fmap first_failure].
  destruct (http_get_json (pairs_url chain_id (quote pid)) None n)
    as [n1 [data|e]] eqn:Hreq; [|done].
  destruct (responses_well_formed _ _ _ _ _ Hreq) as (ps & -> & Hsound).
  apply IH. by apply Forall_app.
Qed.

(** X15.  With a network whose responses are all well formed, a fetcher
    fails exactly when a request of its run fails: the requests are made
    one after the other, each in the state of the network that the one
    before left (the search fetcher makes one for each query that is not
    blank, the fetcher by identifiers one for each identifier of the
    cleaned list), and the fetcher stops at the first that fails, in the
    state that request leaves and with what it raised.  No data of such
    responses makes the fetchers raise. *)
Theorem fetchers_fail_only_with_a_request (queries : list string)
    (chain_id pair_ids_csv : string) (n : net) :
  (∀ n' f,
     fetch_pairs_by_search_queries net http_get_json queries n
     = (n', Failed f)
     ↔ first_failure http_get_json (search_requests queries) n
       = Some (n', f))
  ∧ (∀ n' f,
       fetch_pairs_by_ids net http_get_json quote chain_id pair_ids_csv n
       = (n', Failed f)
       ↔ first_failure http_get_json
           (ids_requests quote chain_id pair_ids_csv) n
         = Some (n', f)).
Proof.
  split; intros n' f.
  - unfold fetch_pairs_by_search_queries.
    pose proof (search_loop_first_failure queries ∅ [] n) as Hloop.
    destruct (first_failure http_get_json (search_requests queries) n)
      as [[n1 f1]|].
    + rewrite Hloop. split; by intros [= -> ->].
    + destruct Hloop as (n1 & out & ->). done.
  - unfold fetch_pairs_by_ids, ids_requests.
    pose proof (ids_loop_first_failure chain_id (clean_list pair_ids_csv) [] n
                  (Forall_nil_2 _)) as Hloop.
    destruct (first_failure http_get_json _ n) as [[n1 f1]|].
    + rewrite Hloop. split; by intros [= -> ->].
    + destruct Hloop as (n1 & out & -> & Hsound).
      destruct (merge_pairs_total out ∅ [] Hsound) as [sm ->]. done.
Qed.

End Failures.

(** ** A snapshot at a new moment *)

Lemma dedup_loop_all_new rows : ∀ existing keys,
  Forall2 (λ r k, dedup_key r = Ok k) rows keys →
  NoDup keys → (∀ k, k ∈ keys → k ∉ existing) →
  dedup_loop existing rows = Ok rows.
Proof.
  induction rows as [|r rows IH]; intros existing keys Hk Hnd Hnew; [done|].
  apply Forall2_cons_inv_l in Hk as (k & keys' & Hkey & Hk & ->).
  apply NoDup_cons in Hnd as [Hfresh Hnd].
  cbn [dedup_loop]. rewrite Hkey. cbn [rbind].
  rewrite decide_False by (apply Hnew; by left).
  rewrite (IH _ keys'); [done|done|done|].
  intros k' Hin. apply not_elem_of_union. split; [|apply Hnew; by right].
  apply not_elem_of_singleton. by intros ->.
Qed.

Lemma normalize_records_addressed pairs addrs ts :
  Forall2 addressed pairs addrs →
  ∃ rows, normalize_records pairs ts = Ok rows
    ∧ Forall2 (λ r a, dedup_key r = Ok (a, AStr ts)) rows addrs
    ∧ Forall no_extra_fields rows.
Proof.
  unfold normalize_records.
  induction 1 as [|p a pairs addrs ([d ->] & _ & Ha) _ (rows & Hrows & Hk & Hne)].
  - exists []. by repeat split.
  - destruct (normalize_record_dict d ts)
      as (row & Hrow & Hdom & Hts & Hpa & _).
    exists (row :: rows). cbn [for_each]. rewrite Hrow. cbn [rbind].
    rewrite Hrows. cbn [rbind]. split; [done|]. split.
    + constructor; [|done]. unfold dedup_key.
      assert (dict_get row "pairAddress" = dict_get d "pairAddress") as ->
        by (unfold dict_get at 1; by rewrite Hpa).
      assert (dict_get row "snapshot_ts" = VStr ts) as ->
        by (unfold dict_get; by rewrite Hts).
      cbn [pair_address] in Ha. by rewrite Ha.
    + constructor; [|done]. unfold no_extra_fields. by rewrite Hdom.
Qed.

Section Fresh.

Variable net : Type.
Variable http_get_json :
  string → option (list (string * string)) → net → net * outcome value.
Variable quote : string → string.
Variable cs : value → string.

Lemma fetchers_return_merged queries chain_id pair_ids_csv n pairs :
  (try_fetch net http_get_json quote queries chain_id pair_ids_csv n).2
  = Fetched pairs →
  ∃ addrs, Forall2 addressed pairs addrs ∧ NoDup addrs.
Proof.
  unfold try_fetch. cbn [snd].
  assert (∀ n' ps,
    fetch_pairs_by_search_queries net http_get_json queries n
    = (n', Returned ps) →
    ∃ addrs, Forall2 addressed ps addrs ∧ NoDup addrs) as Hsearch.
  { intros n' ps Hf.
    apply search_loop_responses in Hf as (out & seen & _ & Hm).
    apply merge_pairs_merged_from in Hm as (_ & addrs & ? & ? & _).
    by exists addrs. }
  assert (∀ ids n' ps,
    fetch_pairs_by_ids net http_get_json quote chain_id ids n
    = (n', Returned ps) →
    ∃ addrs, Forall2 addressed ps addrs ∧ NoDup addrs) as Hids.
  { intros ids n' ps. unfold fetch_pairs_by_ids.
    destruct (ids_loop _ _ _ _ _ _ n) as [n1 [out|e]]; [|done].
    destruct (merge_pairs out ∅ []) as [[seen merged]|e] eqn:Hm; [|done].
    cbn. intros [= <- <-].
    apply merge_pairs_merged_from in Hm as (_ & addrs & ? & ? & _).
    by exists addrs. }
  destruct pair_ids_csv as [[|c ids]|].
  - destruct (fetch_pairs_by_search_queries _ _ _ n) as [n' [ps|[]]] eqn:Hf;
      cbn [snd]; try done. intros [= <-]. by eapply Hsearch.
  - destruct (fetch_pairs_by_ids _ _ _ _ _ n) as [n' [ps|[]]] eqn:Hf;
      cbn [snd]; try done. intros [= <-]. by eapply Hids.
  - destruct (fetch_pairs_by_search_queries _ _ _ n) as [n' [ps|[]]] eqn:Hf;
      cbn [snd]; try done. intros [= <-]. by eapply Hsearch.
Qed.

(** X16.  A snapshot whose moment is not yet in the partition writes
    every pair its fetch returned: the fetchers return no address twice,
    so that, the partition being absent or a table with no record of that
    moment, the count [do_snapshot] returns is the number of pairs
    fetched, and 0 when the fetch failed. *)
Theorem fresh_snapshot_writes_every_pair (now : datetime)
    (outdir queries : list string) (chain_id : string)
    (pair_ids_csv : option string) (n : net) (w : world)
    (records : list (list string)) (k : Z) :
  (files w !! _daily_csv_path outdir now = None ∧ records = []
   ∨ files w !! _daily_csv_path outdir now = Some (table_text records)) →
  Forall (λ cells, length cells = length fieldnames
                   ∧ nth 0 cells "" ≠ isoformat_seconds now) records →
  (do_snapshot_fetching net http_get_json quote cs now outdir queries
     chain_id pair_ids_csv n w).2.2 = Ok k →
  k = match (try_fetch net http_get_json quote queries chain_id
               pair_ids_csv n).2 with
      | Fetched pairs => Z.of_nat (length pairs)
      | _ => 0
      end.
Proof.
  intros Hfile Hrec. unfold do_snapshot_fetching. cbn [snd].
  set (p := _daily_csv_path outdir now) in *.
  destruct (try_fetch net http_get_json quote queries chain_id pair_ids_csv n).2
    as [pairs|code| |] eqn:Hfetch;
    [|by intros [= <-]..].
  intros Hres.
  destruct (fetchers_return_merged _ _ _ _ _ Hfetch) as (addrs & Hadr & Hnd).
  destruct (normalize_records_addressed pairs addrs (isoformat_seconds now) Hadr)
    as (rows & Hn & Hk & Hne).
  destruct (ensure_dir_eval outdir w) as (w1 & r1 & He & Hf1 & _ & Hr).
  destruct Hr as [(-> & _)|Hr]; cycle 1.
  { exfalso. revert Hres. unfold do_snapshot, mbind, M_bind, lift.
    rewrite Hn, He. by destruct Hr as [-> | [-> | [-> _]]]. }
  destruct (do_snapshot_steps cs now pairs outdir w rows w1 Hn He)
    as (w2 & _ & (_ & Hf2 & _) & Hstep).
  fold p in Hstep.
  destruct (write_rows cs p rows w2) as [w3 r] eqn:Hw.
  destruct (Hstep w3 r eq_refl) as (w4 & Hdo & _).
  rewrite Hdo in Hres. cbn [snd] in Hres. subst r.
  destruct (write_rows_returned cs p rows w2 w3 k Hw)
    as (on_disk & kept & Hdisk & Hkept & -> & _).
  destruct (decide (rows = [])) as [-> | Hrows].
  { injection Hkept as <-.
    by rewrite (normalize_records_length pairs _ _ Hn). }
  specialize (Hdisk Hrows).
  assert (on_disk = list_to_set (disk_key <$> records)) as ->.
  { unfold existing_keys in Hdisk. rewrite Hf2, Hf1 in Hdisk.
    destruct Hfile as [[Hp ->] | Hp]; rewrite Hp in Hdisk;
      [by injection Hdisk as <-|].
    rewrite table_text_keys in Hdisk by (eapply Forall_impl; [exact Hrec|];
                                          by intros cells [? _]).
    destruct (all_small records); [|done]. by injection Hdisk as <-. }
  rewrite (dedup_loop_all_new rows _
             ((λ a, (a, AStr (isoformat_seconds now))) <$> addrs)) in Hkept.
  - injection Hkept as <-.
    by rewrite (normalize_records_length pairs _ _ Hn).
  - apply Forall2_fmap_r. eapply Forall2_impl; [exact Hk|]. done.
  - apply NoDup_fmap; [|done]. by intros a a' [= ->].
  - intros key (a & -> & _)%list_elem_of_fmap Hin.
    apply elem_of_list_to_set, list_elem_of_fmap in Hin as (cells & Heq & Hin).
    rewrite Forall_forall in Hrec. destruct (Hrec cells Hin) as [_ Hts].
    unfold disk_key in Heq. by injection Heq as _ Heq.
Qed.

End Fresh.

(** ** The properties at concrete inputs *)

(** X1 at two queries whose responses share a pair. *)
Lemma search_merges_responses_witness :
  ∃ out,
    search_responses _ canned ["solana"; "orca solana"] two_responses
    = ([], Returned out)
    ∧ merged_from out (VDict <$> [pair_P1; pair_P2; pair_P3]).
Proof.
  apply (search_merges_responses _ canned ["solana"; "orca solana"]
           two_responses [] (VDict <$> [pair_P1; pair_P2; pair_P3])).
  vm_compute. reflexivity.
Defined.


(** X4 at a fetch of two responses, a file standing in the place of the
    output directory. *)
Lemma snapshot_never_fails_on_shape_witness :
  FileExistsError ≠ AttributeError ∧ FileExistsError ≠ TypeError
  ∧ (FileExistsError = FileNotFoundError → ["data"] = [])
  ∧ (FileExistsError = CsvError →
     is_file {| dirs := ∅; files := {[ ["data"] := "" ]};
                trace := []; printed := [] |}
       (_daily_csv_path ["data"] new_year) = true).
Proof.
  apply (snapshot_never_fails_on_shape _ canned (λ s, s) braces new_year
           ["data"] ["solana"; "orca solana"] "solana" None two_responses
           {| dirs := ∅; files := {[ ["data"] := "" ]};
              trace := []; printed := [] |} FileExistsError).
  vm_compute. reflexivity.
Defined.

(** X5 at a world with no directory. *)
Lemma ensure_dir_makes_the_directory_witness :
  is_dir (ensure_dir ["data"] bare).1 ["data"] = true
  ∧ ensure_dir ["data"] (ensure_dir ["data"] bare).1
    = (called (SysIsdir ["data"]) (ensure_dir ["data"] bare).1, Ok ()).
Proof.
  apply (proj1 (proj2 (proj2 (proj2 (proj2
           (ensure_dir_makes_the_directory ["data"] bare)))))).
  vm_compute. reflexivity.
Defined.

(** X6 at two moments of the same day. *)
Lemma daily_csv_path_one_per_day_witness :
  _daily_csv_path ["data"] new_year
  = _daily_csv_path ["data"]
      {| isoformat_seconds := "2024-01-01T12:00:00+00:00";
         strftime_Ymd := "2024-01-01" |}.
Proof.
  apply (proj1 (daily_csv_path_one_per_day ["data"] ["data"] new_year
                  {| isoformat_seconds := "2024-01-01T12:00:00+00:00";
                     strftime_Ymd := "2024-01-01" |})).
  split; reflexivity.
Defined.

(** X7 at the batches [P1; P2], [] and [P2; P3]. *)
Lemma table_keys_stay_unique_witness :
  ∃ rs keys,
    sublist rs
      (concat [[row_of pair_P1; row_of pair_P2]; [];
               [row_of pair_P2; row_of pair_P3]])
    ∧ Forall2 (λ r k, dedup_key r = Ok k) rs keys
    ∧ NoDup keys
    ∧ Forall (λ r, ∃ k, dedup_key r = Ok k ∧ k ∈ keys)
        (concat [[row_of pair_P1; row_of pair_P2]; [];
                 [row_of pair_P2; row_of pair_P3]])
    ∧ files (append_calls braces partition
               [[row_of pair_P1; row_of pair_P2]; [];
                [row_of pair_P2; row_of pair_P3]] with_data_dir) !! partition
      = match rs with
        | [] => None
        | _ :: _ => Some (table_text (cells_of braces <$> rs))
        end
    ∧ (read_existing_keys partition
         (append_calls braces partition
            [[row_of pair_P1; row_of pair_P2]; [];
             [row_of pair_P2; row_of pair_P3]] with_data_dir)).2
      = Ok (list_to_set keys).
Proof.
  apply (table_keys_stay_unique braces with_data_dir partition
           [[row_of pair_P1; row_of pair_P2]; [];
            [row_of pair_P2; row_of pair_P3]]).
  - reflexivity.
  - split; [reflexivity|]. right. split; reflexivity.
  - repeat apply Forall_cons_2; try apply Forall_nil_2;
      (split; [eexists _, _; split; vm_compute; reflexivity
              |split; [split; [unfold no_extra_fields; compute_done
                              |vm_compute; reflexivity]
                      |vm_compute; reflexivity]]).
Defined.

(** X8 at a batch of two rows, the second without [pairAddress]. *)
Lemma written_rows_read_back_as_text_witness :
  ∃ kept text,
    sublist kept [row_of pair_P1; row_of pair_unnamed]
    ∧ 2 = Z.of_nat (length kept)
    ∧ files (write_rows braces partition
               [row_of pair_P1; row_of pair_unnamed] with_data_dir).1
        !! partition = Some text
    ∧ DictReader text
      = (if all_small (cells_of braces <$> kept)
         then Ok (as_text braces <$> kept) else Raise CsvError)
    ∧ Forall (λ r, ∀ key, key ∈ fieldnames →
        ∃ s, field_text braces (default (VStr "") (r !! key)) = Ok s
             ∧ as_text braces r !! key = Some (VStr s)) kept.
Proof.
  apply (written_rows_read_back_as_text braces with_data_dir
           (write_rows braces partition
              [row_of pair_P1; row_of pair_unnamed] with_data_dir).1
           partition [row_of pair_P1; row_of pair_unnamed] 2).
  - reflexivity.
  - vm_compute. reflexivity.
  - discriminate.
Defined.

(** X10 at a fetch of two pairs into a new partition. *)
Lemma do_snapshot_total_is_row_count_witness :
  printed (do_snapshot braces new_year (Fetched (VDict <$> [pair_P1; pair_P2]))
             ["data"] with_data_dir).1
  = printed with_data_dir
    ++ [OkWrote (isoformat_seconds new_year) 2 partition
          (data_lines with_data_dir partition + 2)]
  ∧ data_lines (do_snapshot braces new_year
                  (Fetched (VDict <$> [pair_P1; pair_P2])) ["data"]
                  with_data_dir).1 partition
    = data_lines with_data_dir partition + 2
  ∧ 0 ≤ 2 ≤ Z.of_nat (length (VDict <$> [pair_P1; pair_P2])).
Proof.
  apply (do_snapshot_total_is_row_count braces new_year
           (VDict <$> [pair_P1; pair_P2]) ["data"] with_data_dir
           (rows_of [pair_P1; pair_P2]) 2).
  - apply rows_of_ok.
  - unfold one_line_rows. compute_done.
  - left. reflexivity.
  - vm_compute. reflexivity.
Defined.

(** X11 at the same fetch, as the response the older script receives. *)
Lemma older_snapshot_same_count_witness :
  (Script.snapshot_once braces new_year (Returned (body [pair_P1; pair_P2]))
     ["data"] with_data_dir).2
  = Ok (2, Script.OkWrote (isoformat_seconds new_year) 2 partition)
  ∧ dirs (Script.snapshot_once braces new_year
            (Returned (body [pair_P1; pair_P2])) ["data"] with_data_dir).1
    = dirs (do_snapshot braces new_year
              (Fetched (VDict <$> [pair_P1; pair_P2])) ["data"]
              with_data_dir).1
  ∧ files (Script.snapshot_once braces new_year
             (Returned (body [pair_P1; pair_P2])) ["data"] with_data_dir).1
    = files (do_snapshot braces new_year
               (Fetched (VDict <$> [pair_P1; pair_P2])) ["data"]
               with_data_dir).1.
Proof.
  apply (older_snapshot_same_count braces new_year (body [pair_P1; pair_P2])
           (VDict <$> [pair_P1; pair_P2]) ["data"] with_data_dir
           (rows_of [pair_P1; pair_P2]) 2).
  - vm_compute. reflexivity.
  - apply rows_of_ok.
  - unfold one_line_rows. compute_done.
  - left. reflexivity.
  - vm_compute. reflexivity.
Defined.

(** X12 at a snapshot that has to make the output directory. *)
Lemma do_snapshot_touches_one_file_witness :
  ∃ msg,
    printed (do_snapshot braces new_year (Fetched (VDict <$> [pair_P1]))
               ["data"] bare).1
    = printed bare ++ [msg].
Proof.
  apply (proj1 (proj2 (proj2 (proj2 (proj2
           (do_snapshot_touches_one_file braces new_year
              (Fetched (VDict <$> [pair_P1])) ["data"] bare))))) 1).
  vm_compute. reflexivity.
Defined.

(** X13 at a fetch of two pairs into a new partition. *)
Lemma snapshot_again_adds_nothing_witness :
  (do_snapshot braces new_year (Fetched (VDict <$> [pair_P1; pair_P2])) ["data"]
     (do_snapshot braces new_year (Fetched (VDict <$> [pair_P1; pair_P2]))
        ["data"] with_data_dir).1).2 = Ok 0
  ∧ files (do_snapshot braces new_year (Fetched (VDict <$> [pair_P1; pair_P2]))
             ["data"]
             (do_snapshot braces new_year
                (Fetched (VDict <$> [pair_P1; pair_P2])) ["data"]
                with_data_dir).1).1
    = files (do_snapshot braces new_year
               (Fetched (VDict <$> [pair_P1; pair_P2])) ["data"]
               with_data_dir).1
  ∧ dirs (do_snapshot braces new_year (Fetched (VDict <$> [pair_P1; pair_P2]))
            ["data"]
            (do_snapshot braces new_year
               (Fetched (VDict <$> [pair_P1; pair_P2])) ["data"]
               with_data_dir).1).1
    = dirs (do_snapshot braces new_year
              (Fetched (VDict <$> [pair_P1; pair_P2])) ["data"]
              with_data_dir).1.
Proof.
  apply (snapshot_again_adds_nothing braces new_year
           (VDict <$> [pair_P1; pair_P2]) ["data"] with_data_dir []
           (rows_of [pair_P1; pair_P2]) 2).
  - repeat apply Forall_cons_2; try apply Forall_nil_2;
      (eexists _, _; split; [reflexivity|vm_compute; reflexivity]).
  - apply rows_of_ok.
  - vm_compute. reflexivity.
  - left. split; reflexivity.
  - apply Forall_nil_2.
  - vm_compute. reflexivity.
Defined.

(** X14 at two snapshots of the same day over the canned network. *)
Lemma snapshot_loop_only_appends_witness :
  ∃ u,
    files (snapshot_loop canned (λ s, s) braces ["data"]
             ["solana"; "orca solana"] "solana" None [new_year; new_year]
             two_responses unterminated).2.1 !! partition
    = Some ((table_text [cells_of braces (row_of pair_P1)]
             +:+ record_text (cells_of braces (row_of pair_P2))) +:+ u).
Proof.
  apply (proj1 (snapshot_loop_only_appends _ canned (λ s, s) braces ["data"]
                  ["solana"; "orca solana"] "solana" None [new_year; new_year]
                  two_responses unterminated) partition).
  reflexivity.
Defined.

Lemma flaky_well_formed url params n0 n1 data :
  flaky url params n0 = (n1, Returned data) → well_formed data.
Proof.
  destruct n0 as [|n0]; [|done]. intros [= _ <-].
  exists (VDict <$> [pair_P1; pair_P2]).
  split; [vm_compute; reflexivity|].
  repeat apply Forall_cons_2; try apply Forall_nil_2;
    (split; [by eexists|intros _; eexists; vm_compute; reflexivity]).
Qed.

(** X15 at a network that fails at the second request. *)
Lemma fetchers_fail_only_with_a_request_witness :
  first_failure flaky (search_requests ["solana"; " "; "orca solana"]) 0%nat
  = Some (2%nat, RequestsException).
Proof.
  apply (proj1 (proj1 (fetchers_fail_only_with_a_request _ flaky (λ s, s)
                         flaky_well_formed ["solana"; " "; "orca solana"]
                         "solana" "A" 0%nat) 2%nat RequestsException)).
  vm_compute. reflexivity.
Defined.

(** X16 at a fetch of two responses that share a pair. *)
Lemma fresh_snapshot_writes_every_pair_witness :
  3 = match (try_fetch _ canned (λ s, s) ["solana"; "orca solana"] "solana"
               None two_responses).2 with
      | Fetched pairs => Z.of_nat (length pairs)
      | _ => 0
      end.
Proof.
  apply (fresh_snapshot_writes_every_pair _ canned (λ s, s) braces new_year
           ["data"] ["solana"; "orca solana"] "solana" None two_responses
           with_data_dir [] 3).
  - left. split; reflexivity.
  - apply Forall_nil_2.
  - vm_compute. reflexivity.
Defined.
